(** * networkzero.discovery: the discovery beacon, its control RPC and its
      JSON wire format.

    A shallow embedding of [networkzero/discovery.py].  Python values that
    cross the wire are an inductive type [pyval]; Python text is a list of
    Unicode code points; the beacon's two tables are insertion-ordered
    association lists whose keys and members are compared with Python's
    [==]; every method is a computation over the beacon state that also
    records what it logs and what it puts on its sockets, and that may end
    in a Python exception.

    Floating-point numbers are outside the model: the decoder reports a
    float literal with the separate outcome [Unmodelled], and waits are
    whole seconds. *)

From Stdlib Require Import ZArith NArith QArith Bool List String Ascii Lia Lqa.
Import ListNotations.
Close Scope Q_scope.

Set Implicit Arguments.

(* ===================================================================== *)
(** ** Python values *)
(* ===================================================================== *)

(** A Python [str]: the sequence of its code points. *)
Definition pystr := list N.

(** The code points of a literal whose characters are all below 256. *)
Definition u (s : string) : pystr := map N_of_ascii (list_ascii_of_string s).

(** [bytes]: each element is below 256. *)
Definition pybytes := list N.

Unset Elimination Schemes.
Inductive pyval : Type :=
| VNone
| VBool (b : bool)
| VInt (z : Z)
| VStr (s : pystr)
| VList (l : list pyval)
| VTuple (l : list pyval)
| VDict (items : list (pyval * pyval)).
Set Elimination Schemes.

(** The exceptions the module can end in. [ValueError] stands for its two
    subclasses raised when decoding, [UnicodeDecodeError] and
    [json.JSONDecodeError]. *)
Inductive exn : Type :=
| ValueError
| UnicodeEncodeError
| KeyError
| TypeError
| IndexError
| AttributeError
| NotImplementedError
| ZMQError.

(** How a computation ends: with a value, with an exception, on a float
    (outside the model), or not within the fuel it was given (a loop that
    is still running, a caller still waiting for a reply). *)
Inductive outcome (A : Type) : Type :=
| Ok (a : A)
| Raise (e : exn)
| Unmodelled
| Unfinished.
Arguments Ok {A} a.
Arguments Raise {A} e.
Arguments Unmodelled {A}.
Arguments Unfinished {A}.

Definition obind {A B} (x : outcome A) (f : A -> outcome B) : outcome B :=
  match x with
  | Ok a => f a
  | Raise e => Raise e
  | Unmodelled => Unmodelled
  | Unfinished => Unfinished
  end.

Section PyvalInd.
Variable P : pyval -> Prop.
Hypothesis HNone : P VNone.
Hypothesis HBool : forall b, P (VBool b).
Hypothesis HInt : forall z, P (VInt z).
Hypothesis HStr : forall s, P (VStr s).
Hypothesis HList : forall l, Forall P l -> P (VList l).
Hypothesis HTuple : forall l, Forall P l -> P (VTuple l).
Hypothesis HDict :
  forall items, Forall (fun kv => P (fst kv) /\ P (snd kv)) items -> P (VDict items).

Fixpoint pyval_rect' (v : pyval) : P v :=
  match v with
  | VNone => HNone
  | VBool b => HBool b
  | VInt z => HInt z
  | VStr s => HStr s
  | VList l =>
      HList ((fix go (l : list pyval) : Forall P l :=
                match l with
                | [] => Forall_nil _
                | x :: r => Forall_cons _ (pyval_rect' x) (go r)
                end) l)
  | VTuple l =>
      HTuple ((fix go (l : list pyval) : Forall P l :=
                 match l with
                 | [] => Forall_nil _
                 | x :: r => Forall_cons _ (pyval_rect' x) (go r)
                 end) l)
  | VDict items =>
      HDict ((fix go (l : list (pyval * pyval))
                : Forall (fun kv => P (fst kv) /\ P (snd kv)) l :=
                match l with
                | [] => Forall_nil _
                | (k, x) :: r =>
                    Forall_cons (k, x) (conj (pyval_rect' k) (pyval_rect' x)) (go r)
                end) items)
  end.
End PyvalInd.

(** *** Equality, hashing, truth *)

Definition streq (a b : pystr) : bool :=
  if list_eq_dec N.eq_dec a b then true else false.

Definition b2z (b : bool) : Z := if b then 1%Z else 0%Z.

Section All2.
Variables A B : Type.
Variable f : A -> B -> bool.

(** Two sequences of one length whose members agree pairwise. *)
Fixpoint all2 (xs : list A) (ys : list B) : bool :=
  match xs, ys with
  | [], [] => true
  | x :: xs', y :: ys' => f x y && all2 xs' ys'
  | _, _ => false
  end.
End All2.

(** Python's [==] on the modelled values.  [bool] is a subclass of [int], so
    [True == 1]; a list never equals a tuple; two dicts are equal when they
    have as many items and every key of the first maps to an equal value in
    the second. *)
Fixpoint py_eq (a b : pyval) {struct a} : bool :=
  match a, b with
  | VNone, VNone => true
  | VBool x, VBool y => Bool.eqb x y
  | VBool x, VInt y => Z.eqb (b2z x) y
  | VInt x, VBool y => Z.eqb x (b2z y)
  | VInt x, VInt y => Z.eqb x y
  | VStr x, VStr y => streq x y
  | VList xs, VList ys => all2 py_eq xs ys
  | VTuple xs, VTuple ys => all2 py_eq xs ys
  | VDict xs, VDict ys =>
      Nat.eqb (List.length xs) (List.length ys) &&
      forallb (fun kx : pyval * pyval =>
                 let (k, x) := kx in
                 match find (fun ky : pyval * pyval => py_eq k (fst ky)) ys with
                 | Some ky => py_eq x (snd ky)
                 | None => false
                 end) xs
  | _, _ => false
  end.

(** [hash(v)] succeeds: lists and dicts are unhashable, a tuple is hashable
    when its members are. *)
Fixpoint hashable (v : pyval) : bool :=
  match v with
  | VNone | VBool _ | VInt _ | VStr _ => true
  | VTuple l => forallb hashable l
  | VList _ | VDict _ => false
  end.

(* ===================================================================== *)
(** ** Python sets and dicts *)
(* ===================================================================== *)

(** A [set]: a list with no two [==] members.  It is iterated from the
    member added last to the one added first, one of the orders Python may
    iterate in. *)
Definition pyset := list pyval.

Definition set_mem (x : pyval) (s : pyset) : bool := existsb (py_eq x) s.

(** [s.add(x)] *)
Definition set_add (x : pyval) (s : pyset) : outcome pyset :=
  if hashable x then Ok (if set_mem x s then s else x :: s) else Raise TypeError.

(** [s.remove(x)]: [KeyError] when [x] is not a member. *)
Definition set_remove (x : pyval) (s : pyset) : outcome pyset :=
  if hashable x then
    if set_mem x s then Ok (filter (fun y => negb (py_eq x y)) s) else Raise KeyError
  else Raise TypeError.

(** A [dict] with values in [V], in insertion order. *)
Definition pydict (V : Type) := list (pyval * V).

Fixpoint dict_find {V} (k : pyval) (d : pydict V) : option V :=
  match d with
  | [] => None
  | (k', v) :: r => if py_eq k k' then Some v else dict_find k r
  end.

(** [d[k] = v] *)
Fixpoint dict_set {V} (k : pyval) (v : V) (d : pydict V) : pydict V :=
  match d with
  | [] => [(k, v)]
  | (k', v') :: r => if py_eq k k' then (k', v) :: r else (k', v') :: dict_set k v r
  end.

(** [del d[k]] for a key that is present. *)
Fixpoint dict_del {V} (k : pyval) (d : pydict V) : pydict V :=
  match d with
  | [] => []
  | (k', v') :: r => if py_eq k k' then r else (k', v') :: dict_del k r
  end.

Definition dict_keys {V} (d : pydict V) : list pyval := map fst d.

(* ===================================================================== *)
(** ** The wire format: [json.dumps] and [json.loads] *)
(* ===================================================================== *)

(** [pack] and [unpack] call the standard [json] module with its default
    options.  What follows is that module's behaviour on the modelled
    values: the encoder of [json.encoder] with [ensure_ascii=True] and the
    separators [", "] and [": "], and the decoder of [json.decoder] and
    [json.scanner] with [strict=True]. *)

Module Json.
Local Open Scope N_scope.

Local Abbreviation QUOTE := 34 (only parsing).
Local Abbreviation BACKSLASH := 92 (only parsing).
Local Abbreviation LBRACKET := 91 (only parsing).
Local Abbreviation RBRACKET := 93 (only parsing).
Local Abbreviation LBRACE := 123 (only parsing).
Local Abbreviation RBRACE := 125 (only parsing).
Local Abbreviation COMMA := 44 (only parsing).
Local Abbreviation COLON := 58 (only parsing).
Local Abbreviation SPACE := 32 (only parsing).
Local Abbreviation MINUS := 45 (only parsing).
Local Abbreviation ZERO := 48 (only parsing).

(** *** Encoder *)

(** One lower-case hexadecimal digit, as [format(n, 'x')] writes it. *)
Definition hexdigit (d : N) : N := if d <? 10 then ZERO + d else 87 + d.

(** ['{0:04x}'.format(n)] for [n < 0x10000]. *)
Definition hex4 (n : N) : pystr :=
  [hexdigit (n / 4096 mod 16); hexdigit (n / 256 mod 16);
   hexdigit (n / 16 mod 16); hexdigit (n mod 16)].

Definition uXXXX (n : N) : pystr := BACKSLASH :: 117 :: hex4 n.

(** The replacement of one character by [encode_basestring_ascii]: the short
    escapes of [ESCAPE_DCT], the printable ASCII characters as they are, and
    [\uXXXX] for the rest, a surrogate pair above the basic plane. *)
Definition escape_char (c : N) : pystr :=
  if c =? QUOTE then [BACKSLASH; QUOTE]
  else if c =? BACKSLASH then [BACKSLASH; BACKSLASH]
  else if c =? 10 then [BACKSLASH; 110]
  else if c =? 13 then [BACKSLASH; 114]
  else if c =? 9 then [BACKSLASH; 116]
  else if c =? 8 then [BACKSLASH; 98]
  else if c =? 12 then [BACKSLASH; 102]
  else if (SPACE <=? c) && (c <=? 126) then [c]
  else if c <? 65536 then uXXXX c
  else
    let n := c - 65536 in
    let s1 := N.lor 55296 (N.land (N.shiftr n 10) 1023) in
    let s2 := N.lor 56320 (N.land n 1023) in
    uXXXX s1 ++ uXXXX s2.

Definition encode_basestring_ascii (s : pystr) : pystr :=
  QUOTE :: flat_map escape_char s ++ [QUOTE].

(** [int.__repr__]: decimal digits, most significant first, no leading
    zero. *)
Fixpoint digits_from (fuel : nat) (n : N) (acc : pystr) : pystr :=
  match fuel with
  | O => acc
  | S f =>
      let acc' := (ZERO + n mod 10) :: acc in
      if n <? 10 then acc' else digits_from f (n / 10) acc'
  end.

Definition decimal (n : N) : pystr := digits_from (S (N.to_nat (N.log2 n))) n [].

Definition int_repr (z : Z) : pystr :=
  match z with
  | Zneg p => MINUS :: decimal (Npos p)
  | _ => decimal (Z.to_N z)
  end.

Section Join.
Variable A : Type.
Variable f : A -> outcome pystr.
Variable sep : pystr.

(** [sep.join(f(x) for x in l)], stopping at the first exception. *)
Fixpoint join (l : list A) : outcome pystr :=
  match l with
  | [] => Ok []
  | x :: r =>
      obind (f x) (fun a =>
        match r with
        | [] => Ok a
        | _ :: _ => obind (join r) (fun b => Ok (a ++ sep ++ b))
        end)
  end.
End Join.

(** A dict key as the encoder writes it: text as it is, [True], [False],
    [None] and integers by their JSON spelling, anything else is a
    [TypeError] ([skipkeys] is off). *)
Definition key_text (k : pyval) : outcome pystr :=
  match k with
  | VStr s => Ok s
  | VBool true => Ok (u "true")
  | VBool false => Ok (u "false")
  | VNone => Ok (u "null")
  | VInt z => Ok (int_repr z)
  | _ => Raise TypeError
  end.

Fixpoint dumps (v : pyval) : outcome pystr :=
  match v with
  | VNone => Ok (u "null")
  | VBool true => Ok (u "true")
  | VBool false => Ok (u "false")
  | VInt z => Ok (int_repr z)
  | VStr s => Ok (encode_basestring_ascii s)
  | VList l | VTuple l =>
      obind (join dumps (u ", ") l) (fun body => Ok (LBRACKET :: body ++ [RBRACKET]))
  | VDict items =>
      obind (join (fun kv : pyval * pyval =>
                     let (k, x) := kv in
                     obind (key_text k) (fun kt =>
                     obind (dumps x) (fun xt =>
                     Ok (encode_basestring_ascii kt ++ u ": " ++ xt))))
                  (u ", ") items)
            (fun body => Ok (LBRACE :: body ++ [RBRACE]))
  end.

(** *** Decoder *)

(** What a scanning function returns: a value and the text after it, a
    [json.JSONDecodeError], a float literal (outside the model), or no
    answer within the fuel. *)
Inductive scan (A : Type) : Type :=
| Scanned (a : A) (rest : pystr)
| Bad
| IsFloat
| NoFuel.
Arguments Scanned {A} a rest.
Arguments Bad {A}.
Arguments IsFloat {A}.
Arguments NoFuel {A}.

Definition sbind {A B} (x : scan A) (f : A -> pystr -> scan B) : scan B :=
  match x with
  | Scanned a r => f a r
  | Bad => Bad
  | IsFloat => IsFloat
  | NoFuel => NoFuel
  end.

(** The characters of [WHITESPACE]: space, tab, line feed, carriage
    return. *)
Definition is_ws (c : N) : bool :=
  (c =? SPACE) || (c =? 9) || (c =? 10) || (c =? 13).

Fixpoint skip_ws (s : pystr) : pystr :=
  match s with
  | c :: r => if is_ws c then skip_ws r else s
  | [] => []
  end.

Definition is_digit (c : N) : bool := (ZERO <=? c) && (c <=? 57).

(** The value of one hexadecimal digit, in either case. *)
Definition hexval (c : N) : option N :=
  if is_digit c then Some (c - ZERO)
  else if (97 <=? c) && (c <=? 102) then Some (c - 87)
  else if (65 <=? c) && (c <=? 70) then Some (c - 55)
  else None.

Definition hexval4 (a b c d : N) : option N :=
  match hexval a, hexval b, hexval c, hexval d with
  | Some x, Some y, Some z, Some w => Some (((x * 16 + y) * 16 + z) * 16 + w)
  | _, _, _, _ => None
  end.

Definition is_high_surrogate (c : N) : bool := (55296 <=? c) && (c <=? 56319).
Definition is_low_surrogate (c : N) : bool := (56320 <=? c) && (c <=? 57343).

(** [Py_UNICODE_JOIN_SURROGATES] *)
Definition join_surrogates (hi lo : N) : N :=
  65536 + N.lor (N.shiftl (N.land hi 1023) 10) (N.land lo 1023).

(** [BACKSLASH] of [json.decoder]: the one-letter escapes. *)
Definition backslash (e : N) : option N :=
  if e =? QUOTE then Some QUOTE
  else if e =? BACKSLASH then Some BACKSLASH
  else if e =? 47 then Some 47
  else if e =? 98 then Some 8
  else if e =? 102 then Some 12
  else if e =? 110 then Some 10
  else if e =? 114 then Some 13
  else if e =? 116 then Some 9
  else None.

(** [scanstring(s, end, strict=True)], from just after the opening quote;
    [acc] is the text read so far, last character first.  A high surrogate
    escape directly followed by a low surrogate escape is one character. *)
Fixpoint scanstring (s : pystr) (acc : pystr) {struct s} : scan pystr :=
  match s with
  | [] => Bad
  | c :: r =>
      if c =? QUOTE then Scanned (rev acc) r
      else if c =? BACKSLASH then
        match r with
        | [] => Bad
        | e :: r1 =>
            if e =? 117 then
              match r1 with
              | h1 :: h2 :: h3 :: h4 :: r2 =>
                  match hexval4 h1 h2 h3 h4 with
                  | None => Bad
                  | Some uni =>
                      if is_high_surrogate uni then
                        match r2 with
                        | b :: e' :: k1 :: k2 :: k3 :: k4 :: r3 =>
                            if (b =? BACKSLASH) && (e' =? 117) then
                              match hexval4 k1 k2 k3 k4 with
                              | None => Bad
                              | Some uni2 =>
                                  if is_low_surrogate uni2
                                  then scanstring r3 (join_surrogates uni uni2 :: acc)
                                  else scanstring r2 (uni :: acc)
                              end
                            else scanstring r2 (uni :: acc)
                        | _ => scanstring r2 (uni :: acc)
                        end
                      else scanstring r2 (uni :: acc)
                  end
              | _ => Bad
              end
            else
              match backslash e with
              | Some x => scanstring r1 (x :: acc)
              | None => Bad
              end
        end
      else if c <=? 31 then Bad
      else scanstring r (c :: acc)
  end.

(** The decimal digits at the head of [s], folded into [acc]. *)
Fixpoint scan_digits (s : pystr) (acc : N) : N * pystr :=
  match s with
  | c :: r => if is_digit c then scan_digits r (acc * 10 + (c - ZERO)) else (acc, s)
  | [] => (acc, [])
  end.

(** The integer part of [NUMBER_RE]: a lone zero, or a non-zero digit and
    the digits after it. *)
Definition match_integer (s : pystr) : option (N * pystr) :=
  match s with
  | c :: r =>
      if c =? ZERO then Some (0, r)
      else if is_digit c then Some (scan_digits r (c - ZERO))
      else None
  | [] => None
  end.

(** Does [s] begin with a fraction (a dot and a digit) or an exponent (e or
    E, an optional sign, a digit)?  Then the number is a float. *)
Definition float_follows (s : pystr) : bool :=
  match s with
  | c :: d :: r =>
      if c =? 46 then is_digit d
      else if (c =? 101) || (c =? 69) then
        if is_digit d then true
        else if (d =? 43) || (d =? MINUS) then
          match r with
          | d' :: _ => is_digit d'
          | [] => false
          end
        else false
      else false
  | _ => false
  end.

(** [match_number] followed by [parse_int]. *)
Definition match_number (s : pystr) : scan Z :=
  match s with
  | c :: r =>
      if c =? MINUS then
        match match_integer r with
        | Some (n, r') => if float_follows r' then IsFloat else Scanned (- Z.of_N n)%Z r'
        | None => Bad
        end
      else
        match match_integer s with
        | Some (n, r') => if float_follows r' then IsFloat else Scanned (Z.of_N n) r'
        | None => Bad
        end
  | [] => Bad
  end.

Fixpoint starts_with (p s : pystr) : option pystr :=
  match p, s with
  | [], _ => Some s
  | a :: p', b :: s' => if a =? b then starts_with p' s' else None
  | _ :: _, [] => None
  end.

(** [dict(pairs)]: a repeated key keeps its first place and takes the last
    value. *)
Definition dict_of_pairs (pairs : list (pystr * pyval)) : list (pyval * pyval) :=
  fold_left (fun d kv => dict_set (VStr (fst kv)) (snd kv) d) pairs [].

(** [scan_once], [JSONArray] and [JSONObject].  [array_loop] is the
    [while True] of [JSONArray], entered at a value; [object_loop] is the one
    of [JSONObject], entered just after the opening quote of a key. *)
Fixpoint scan_once (fuel : nat) (s : pystr) {struct fuel} : scan pyval :=
  match fuel with
  | O => NoFuel
  | S f =>
      match s with
      | [] => Bad
      | c :: r =>
          if c =? QUOTE then
            sbind (scanstring r []) (fun t r' => Scanned (VStr t) r')
          else if c =? LBRACE then
            match skip_ws r with
            | c' :: r' =>
                if c' =? RBRACE then Scanned (VDict []) r'
                else if c' =? QUOTE then object_loop f r' []
                else Bad
            | [] => Bad
            end
          else if c =? LBRACKET then
            match skip_ws r with
            | c' :: r' =>
                if c' =? RBRACKET then Scanned (VList []) r'
                else array_loop f (c' :: r') []
            | [] => Bad
            end
          else
            match starts_with (u "null") s with
            | Some r' => Scanned VNone r'
            | None =>
            match starts_with (u "true") s with
            | Some r' => Scanned (VBool true) r'
            | None =>
            match starts_with (u "false") s with
            | Some r' => Scanned (VBool false) r'
            | None =>
            match match_number s with
            | Scanned z r' => Scanned (VInt z) r'
            | IsFloat => IsFloat
            | NoFuel => NoFuel
            | Bad =>
                match starts_with (u "NaN") s, starts_with (u "Infinity") s,
                      starts_with (u "-Infinity") s with
                | None, None, None => Bad
                | _, _, _ => IsFloat
                end
            end end end end
      end
  end

with array_loop (fuel : nat) (s : pystr) (acc : list pyval) {struct fuel}
  : scan pyval :=
  match fuel with
  | O => NoFuel
  | S f =>
      sbind (scan_once f s) (fun v r =>
        match skip_ws r with
        | c :: r' =>
            if c =? RBRACKET then Scanned (VList (rev (v :: acc))) r'
            else if c =? COMMA then array_loop f (skip_ws r') (v :: acc)
            else Bad
        | [] => Bad
        end)
  end

with object_loop (fuel : nat) (s : pystr) (acc : list (pystr * pyval)) {struct fuel}
  : scan pyval :=
  match fuel with
  | O => NoFuel
  | S f =>
      sbind (scanstring s []) (fun key r =>
        match skip_ws r with
        | c :: r1 =>
            if c =? COLON then
              sbind (scan_once f (skip_ws r1)) (fun v r2 =>
                match skip_ws r2 with
                | c' :: r3 =>
                    if c' =? RBRACE
                    then Scanned (VDict (dict_of_pairs (rev ((key, v) :: acc)))) r3
                    else if c' =? COMMA then
                      match skip_ws r3 with
                      | q :: r4 =>
                          if q =? QUOTE then object_loop f r4 ((key, v) :: acc) else Bad
                      | [] => Bad
                      end
                    else Bad
                | [] => Bad
                end)
            else Bad
        | [] => Bad
        end)
  end.

(** [json.loads(s)] for a [str]: no byte-order mark, one value between
    optional whitespace, nothing after it.  The scanner is given two units
    of fuel for every character, which it cannot use up. *)
Definition loads (s : pystr) : outcome pyval :=
  match s with
  | 65279 :: _ => Raise ValueError
  | _ =>
      match scan_once (S (2 * List.length s)) (skip_ws s) with
      | Scanned v r =>
          match skip_ws r with
          | [] => Ok v
          | _ :: _ => Raise ValueError
          end
      | Bad => Raise ValueError
      | IsFloat => Unmodelled
      | NoFuel => Unmodelled
      end
  end.

End Json.
(* ===================================================================== *)
(** ** UTF-8 *)
(* ===================================================================== *)

Module Utf8.
Local Open Scope N_scope.

Definition is_surrogate (c : N) : bool := (55296 <=? c) && (c <=? 57343).

(** One code point as [str.encode('utf-8')] writes it; a surrogate cannot
    be encoded. *)
Definition encode_char (c : N) : outcome pybytes :=
  if c <? 128 then Ok [c]
  else if c <? 2048 then Ok [192 + c / 64; 128 + c mod 64]
  else if c <? 65536 then
    if is_surrogate c then Raise UnicodeEncodeError
    else Ok [224 + c / 4096; 128 + (c / 64) mod 64; 128 + c mod 64]
  else if c <? 1114112 then
    Ok [240 + c / 262144; 128 + (c / 4096) mod 64; 128 + (c / 64) mod 64; 128 + c mod 64]
  else Raise UnicodeEncodeError.

Fixpoint encode (s : pystr) : outcome pybytes :=
  match s with
  | [] => Ok []
  | c :: r => obind (encode_char c) (fun a => obind (encode r) (fun b => Ok (a ++ b)))
  end.

Definition between (lo hi b : N) : bool := (lo <=? b) && (b <=? hi).
Definition cont (b : N) : bool := between 128 191 b.

(** [bytes.decode('utf-8')] with the default strict error handler: shortest
    forms only, no surrogates, nothing above U+10FFFF. *)
Fixpoint decode (bs : pybytes) : outcome pystr :=
  match bs with
  | [] => Ok []
  | b0 :: r =>
      if b0 <? 128 then obind (decode r) (fun t => Ok (b0 :: t))
      else if between 194 223 b0 then
        match r with
        | b1 :: r1 =>
            if cont b1
            then obind (decode r1) (fun t => Ok (((b0 - 192) * 64 + (b1 - 128)) :: t))
            else Raise ValueError
        | _ => Raise ValueError
        end
      else if between 224 239 b0 then
        match r with
        | b1 :: b2 :: r2 =>
            if between (if b0 =? 224 then 160 else 128) (if b0 =? 237 then 159 else 191) b1
               && cont b2
            then obind (decode r2) (fun t =>
                   Ok ((((b0 - 224) * 64 + (b1 - 128)) * 64 + (b2 - 128)) :: t))
            else Raise ValueError
        | _ => Raise ValueError
        end
      else if between 240 244 b0 then
        match r with
        | b1 :: b2 :: b3 :: r3 =>
            if between (if b0 =? 240 then 144 else 128) (if b0 =? 244 then 143 else 191) b1
               && cont b2 && cont b3
            then obind (decode r3) (fun t =>
                   Ok (((((b0 - 240) * 64 + (b1 - 128)) * 64 + (b2 - 128)) * 64
                        + (b3 - 128)) :: t))
            else Raise ValueError
        | _ => Raise ValueError
        end
      else Raise ValueError
  end.

End Utf8.

(* ===================================================================== *)
(** ** [networkzero.config] *)
(* ===================================================================== *)

Module config.
(** Modelled from the spec: [config.ENCODING], which [config.py] defines and
    which is not among the sources; the spec gives the wire form as UTF-8
    text. *)
Definition ENCODING : string := "utf-8".
End config.

(** [s.encode(encoding)] and [b.decode(encoding)]; only UTF-8 is modelled. *)
Definition str_encode (encoding : string) (s : pystr) : outcome pybytes :=
  if String.eqb encoding "utf-8" then Utf8.encode s else Unmodelled.

Definition bytes_decode (encoding : string) (b : pybytes) : outcome pystr :=
  if String.eqb encoding "utf-8" then Utf8.decode b else Unmodelled.

(* ===================================================================== *)
(** ** [networkzero.discovery] *)
(* ===================================================================== *)

Definition unpack (message : pybytes) : outcome pyval :=
  obind (bytes_decode config.ENCODING message) Json.loads.

Definition pack (message : pyval) : outcome pybytes :=
  obind (Json.dumps message) (str_encode config.ENCODING).

(** *** The beacon's state and what it does to the world *)

Inductive level : Type := DEBUG | INFO | WARNING | ERROR.

Inductive logarg : Type :=
| LVal (v : pyval)
| LBytes (b : pybytes)
| LMethod (name : string).

(** One call of [logger.debug], [logger.warn], ...: the format and its
    arguments. *)
Record log_record : Type := Log { lvl : level; fmt : string; args : list logarg }.

(** A [Beacon] instance.  The two sockets are what was sent through them,
    oldest first: [rpc] the replies of the control channel, [socket] the
    broadcast datagrams with their destination. *)
Record Beacon : Type := mkBeacon {
  _services_to_advertise : pydict pyset;
  _services_found : pydict pyset;
  rpc : list pybytes;
  socket : list (pybytes * (string * Z))
}.

Definition rpc_port : Z := 9998.
Definition beacon_port : Z := 9999.
Definition beacon_message_size : nat := 256.

(** [Beacon.__init__], when both sockets bind. *)
Definition Beacon__init__ : Beacon := mkBeacon [] [] [] [].

(** A method body: from the instance to how it ends, the instance after
    it, and the log records it wrote.  An exception does not undo what was
    done before it. *)
Definition M (A : Type) : Type := Beacon -> outcome A * Beacon * list log_record.

Definition ret {A} (a : A) : M A := fun b => (Ok a, b, []).

Definition bind {A B} (m : M A) (k : A -> M B) : M B :=
  fun b =>
    match m b with
    | (Ok a, b1, l1) => let '(r, b2, l2) := k a b1 in (r, b2, l1 ++ l2)
    | (Raise e, b1, l1) => (Raise e, b1, l1)
    | (Unmodelled, b1, l1) => (Unmodelled, b1, l1)
    | (Unfinished, b1, l1) => (Unfinished, b1, l1)
    end.

Declare Scope beacon_scope.
Delimit Scope beacon_scope with beacon.
Notation "x <- m ;; k" := (bind m (fun x => k))
  (at level 61, m at next level, right associativity) : beacon_scope.
Notation "m ;; k" := (bind m (fun _ => k))
  (at level 61, right associativity) : beacon_scope.
Local Open Scope beacon_scope.

Definition lift {A} (o : outcome A) : M A := fun b => (o, b, []).
Definition raise {A} (e : exn) : M A := lift (Raise e).
Definition logger (l : level) (f : string) (a : list logarg) : M unit :=
  fun b => (Ok tt, b, [Log l f a]).
Definition get_advertised : M (pydict pyset) := fun b => (Ok (_services_to_advertise b), b, []).
Definition get_found : M (pydict pyset) := fun b => (Ok (_services_found b), b, []).
Definition set_advertised (d : pydict pyset) : M unit :=
  fun b => (Ok tt, mkBeacon d (_services_found b) (rpc b) (socket b), []).
Definition set_found (d : pydict pyset) : M unit :=
  fun b => (Ok tt, mkBeacon (_services_to_advertise b) d (rpc b) (socket b), []).
Definition rpc_send (frame : pybytes) : M unit :=
  fun b => (Ok tt, mkBeacon (_services_to_advertise b) (_services_found b)
                            (rpc b ++ [frame]) (socket b), []).
Definition socket_sendto (datagram : pybytes) (dest : string * Z) : M unit :=
  fun b => (Ok tt, mkBeacon (_services_to_advertise b) (_services_found b)
                            (rpc b) (socket b ++ [(datagram, dest)]), []).

(** [d.setdefault(k, set()).add(x)] on a table of sets: the key is hashed
    first, an absent key gets its empty set, and only then is [x] hashed and
    added to the set the table holds. *)
Definition setdefault_add (k x : pyval) (d : pydict pyset)
  : pydict pyset * outcome unit :=
  if hashable k then
    let d1 := match dict_find k d with
              | Some _ => d
              | None => dict_set k [] d
              end in
    match set_add x (match dict_find k d1 with Some s => s | None => [] end) with
    | Ok s' => (dict_set k s' d1, Ok tt)
    | Raise e => (d1, Raise e)
    | Unmodelled => (d1, Unmodelled)
    | Unfinished => (d1, Unfinished)
    end
  else (d, Raise TypeError).

(** [d.get(k, set())] *)
Definition get_or_empty (k : pyval) (d : pydict pyset) : outcome pyset :=
  if hashable k then
    Ok (match dict_find k d with Some s => s | None => [] end)
  else Raise TypeError.

(** [name + "!!"] *)
Definition add_bangs (name : pyval) : outcome pyval :=
  match name with
  | VStr s => Ok (VStr (s ++ u "!!"))
  | _ => Raise TypeError
  end.

Definition do_advertise (name port ip : pyval) : M pyval :=
  logger DEBUG "Advertise %s on %s" [LVal name; LVal port] ;;
  d <- get_advertised ;;
  (let (d', r) := setdefault_add name port d in
   set_advertised d' ;; lift r) ;;
  lift (add_bangs name).

Definition do_unadvertise (name port ip : pyval) : M pyval :=
  logger DEBUG "Unadvertise %s on %s" [LVal name; LVal port] ;;
  d <- get_advertised ;;
  ports <- lift (get_or_empty name d) ;;
  match ports with
  | [] =>
      logger WARNING "Not currently advertising %s on %s" [LVal name; LVal port] ;;
      ret VNone
  | _ :: _ =>
      ports' <- lift (set_remove port ports) ;;
      match ports' with
      | [] => set_advertised (dict_del name d)
      | _ :: _ => set_advertised (dict_set name ports' d)
      end ;;
      ret VNone
  end.

(** *** What the model takes from outside *)

(** [time_time k] is what the [k]-th call of [time.time()] inside one
    [do_discover] returns; [randbelow n] is the draw of [random.choice] on a
    sequence of [n] items; [other_threads k] is what holders of [_lock] other
    than the caller do to the instance between the [k]-th pass of the wait
    loop and the next one (nothing, when the beacon's own thread is the only
    one that touches it); [repr] is the text of a list, tuple or dict, which
    the model leaves open. *)
Record world : Type := mkWorld {
  time_time : nat -> Q;
  randbelow : nat -> nat;
  other_threads : nat -> Beacon -> Beacon;
  repr : pyval -> pystr
}.

(** [if s:] for a set. *)
Definition truthy (s : pyset) : bool :=
  match s with
  | [] => false
  | _ :: _ => true
  end.

(** The right operand of [time.time() + wait_for_secs]. *)
Definition as_number (v : pyval) : outcome Q :=
  match v with
  | VInt z => Ok (inject_Z z)
  | VBool b => Ok (inject_Z (b2z b))
  | _ => Raise TypeError
  end.

(** [d.get(k)] *)
Definition dict_get (k : pyval) (d : pydict pyset) : outcome (option pyset) :=
  if hashable k then Ok (dict_find k d) else Raise TypeError.

(** [random.choice(seq)] *)
Definition random_choice (w : world) (seq : list pyval) : outcome pyval :=
  match nth_error seq (randbelow w (List.length seq)) with
  | Some x => Ok x
  | None => Raise IndexError
  end.

Definition interfere (w : world) (pass : nat) : M unit :=
  fun b => (Ok tt, other_threads w pass b, []).

(** The [while True] of [do_discover]; [pass] counts the passes made. *)
Fixpoint discover_loop (w : world) (fuel pass : nat) (name wait_for_secs : pyval)
    (t1 : Q) : M (option pyset) :=
  match fuel with
  | O => lift Unfinished
  | S f =>
      found <- get_found ;;
      discovered <- lift (dict_get name found) ;;
      match discovered with
      | Some (x :: s) => ret (Some (x :: s))
      | _ =>
          if negb (Qle_bool (time_time w (S pass)) t1) then
            logger WARNING "%s not discovered after %s secs"
                   [LVal name; LVal wait_for_secs] ;;
            ret None
          else
            interfere w pass ;;
            discover_loop w f (S pass) name wait_for_secs t1
      end
  end.

Definition do_discover (w : world) (fuel : nat) (name wait_for_secs : pyval) : M pyval :=
  logger DEBUG "Discover %s waiting for %s secs" [LVal name; LVal wait_for_secs] ;;
  t1 <- lift (obind (as_number wait_for_secs) (fun d => Ok (time_time w 0 + d)%Q)) ;;
  discovered <- discover_loop w fuel 0 name wait_for_secs t1 ;;
  match discovered with
  | None => ret VNone
  | Some services => lift (random_choice w services)
  end.

(** *** The main loop's three steps *)

(** What [self.rpc.recv] does. *)
Inductive received : Type :=
| Message (message : pybytes)
| EAGAIN
| OtherError.

(** [segments[0]] and [segments[1:]], the latter as the sequence that
    [function( *params)] spreads. *)
Definition head_and_tail (segments : pyval) : outcome (pyval * list pyval) :=
  match segments with
  | VList (x :: r) | VTuple (x :: r) => Ok (x, r)
  | VList [] | VTuple [] => Raise IndexError
  | VStr (c :: r) => Ok (VStr [c], map (fun c' => VStr [c']) r)
  | VStr [] => Raise IndexError
  | VDict d =>
      match dict_find (VInt 0) d with
      | Some _ => Raise TypeError (* the slice [1:] is no key *)
      | None => Raise KeyError
      end
  | VNone | VBool _ | VInt _ => Raise TypeError
  end.

(** [str.lower] on one character, exact on ASCII and Latin-1.  Characters
    above are left as they are; none of them lower-cases to text made of
    the letters of a method name, so the method lookup below cannot tell the
    difference. *)
Definition lower_char (c : N) : N :=
  if ((65 <=? c) && (c <=? 90))%N then (c + 32)%N
  else if ((192 <=? c) && (c <=? 222) && negb (c =? 215))%N then (c + 32)%N
  else c.

Definition lower (s : pystr) : pystr := map lower_char s.

(** [action.lower()] *)
Definition action_lower (action : pyval) : outcome pystr :=
  match action with
  | VStr s => Ok (lower s)
  | _ => Raise AttributeError
  end.

(** [function( *params)] for each of the three methods: the positional
    arguments must fit the signature. *)
Definition call_do_advertise (params : list pyval) : M pyval :=
  match params with
  | [name; port] => do_advertise name port VNone
  | [name; port; ip] => do_advertise name port ip
  | _ => raise TypeError
  end.

Definition call_do_unadvertise (params : list pyval) : M pyval :=
  match params with
  | [name; port] => do_unadvertise name port VNone
  | [name; port; ip] => do_unadvertise name port ip
  | _ => raise TypeError
  end.

Definition call_do_discover (w : world) (fuel : nat) (params : list pyval) : M pyval :=
  match params with
  | [name; wait_for_secs] => do_discover w fuel name wait_for_secs
  | _ => raise TypeError
  end.

(** The attributes of a [Beacon] whose name starts with [do_]: the name, and
    the bound method with the name it is logged under. *)
Definition do_methods (w : world) (fuel : nat)
  : list (pystr * (string * (list pyval -> M pyval))) :=
  [ (u "do_advertise", ("do_advertise"%string, call_do_advertise));
    (u "do_unadvertise", ("do_unadvertise"%string, call_do_unadvertise));
    (u "do_discover", ("do_discover"%string, call_do_discover w fuel)) ].

(** [getattr(self, attr, None)] for an [attr] that starts with [do_]. *)
Fixpoint getattr {A} (attr : pystr) (methods : list (pystr * A)) : option A :=
  match methods with
  | [] => None
  | (n, m) :: r => if streq attr n then Some m else getattr attr r
  end.

Definition check_for_commands (w : world) (fuel : nat) (wait : bool) (got : received)
  : M unit :=
  match got with
  | EAGAIN => ret tt
  | OtherError => raise ZMQError
  | Message message =>
      logger DEBUG "Received command %s" [LBytes message] ;;
      segments <- lift (unpack message) ;;
      ap <- lift (head_and_tail segments) ;;
      let (action, params) := ap : pyval * list pyval in
      low <- lift (action_lower action) ;;
      match getattr (u "do_" ++ low) (do_methods w fuel) with
      | None => raise NotImplementedError
      | Some (fname, function) =>
          logger DEBUG "Calling %s with %s" [LMethod fname; LVal (VList params)] ;;
          result <- function params ;;
          frame <- lift (pack result) ;;
          rpc_send frame
      end
  end.

(** What the poll of the broadcast socket finds within
    [finder_timeout_secs]: nothing, or a datagram and where it came from. *)
Inductive polled : Type :=
| Quiet
| Datagram (payload : pybytes) (source : pystr * Z).

(** [a, b = v] *)
Definition unpack2 (v : pyval) : outcome (pyval * pyval) :=
  match v with
  | VList [a; b] | VTuple [a; b] => Ok (a, b)
  | VStr [a; b] => Ok (VStr [a], VStr [b])
  | VDict [(a, _); (b, _)] => Ok (a, b)
  | VList _ | VTuple _ | VStr _ | VDict _ => Raise ValueError
  | VNone | VBool _ | VInt _ => Raise TypeError
  end.

Definition check_for_adverts (p : polled) : M unit :=
  match p with
  | Quiet => ret tt
  | Datagram payload source =>
      let message := firstn beacon_message_size payload in
      v <- lift (unpack message) ;;
      np <- lift (unpack2 v) ;;
      let (service_name, service_port) := np : pyval * pyval in
      let (service_ip, _) := source in
      logger DEBUG "Advert received from %s for %s on %s"
             [LVal (VStr service_ip); LVal service_name; LVal service_port] ;;
      d <- get_found ;;
      let (d', r) := setdefault_add service_name (VTuple [VStr service_ip; service_port]) d in
      set_found d' ;; lift r
  end.

Fixpoint each {A} (body : A -> M unit) (l : list A) : M unit :=
  match l with
  | [] => ret tt
  | x :: r => body x ;; each body r
  end.

Definition advertise_names : M unit :=
  d <- get_advertised ;;
  each (fun item : pyval * pyset =>
          let (service_name, service_ports) := item in
          each (fun service_port =>
                  logger DEBUG "Advertising %s on %s" [LVal service_name; LVal service_port] ;;
                  message <- lift (pack (VList [service_name; service_port])) ;;
                  socket_sendto message ("255.255.255.255"%string, beacon_port))
               service_ports)
       d.

(** *** The module's global state and public functions *)

(** The global [_beacon]: [None], the beacon this process constructed and
    started, or the marker [_remote_beacon]. *)
Inductive beacon_ref : Type :=
| PyNone
| Started (b : Beacon)
| _remote_beacon.

(** A callable left with [atexit.register], and its arguments. *)
Record hook : Type := Hook { hook_function : string; hook_args : list pyval }.

(** The process: its global [_beacon], the beacon that another process of
    this host serves on the loopback interface (if any), and the exit hooks
    in the order they were registered. *)
Record process : Type := mkProcess {
  _beacon : beacon_ref;
  loopback : option Beacon;
  atexit : list hook
}.

(** [Beacon()]: the constructor binds the two ports, and raises when one of
    them is taken. *)
Definition Beacon_new (ports_free : bool) : outcome Beacon :=
  if ports_free then Ok Beacon__init__ else Raise ZMQError.

Definition start_beacon (ports_free : bool) (p : process) : process * list log_record :=
  match _beacon p with
  | PyNone =>
      match Beacon_new ports_free with
      | Ok b =>
          (mkProcess (Started b) (loopback p) (atexit p),
           [Log DEBUG "About to start beacon" []])
      | _ =>
          (mkProcess _remote_beacon (loopback p) (atexit p),
           [Log DEBUG "About to start beacon" []; Log ERROR "Unable to start beacon" []])
      end
  | _ => (p, [])
  end.

(** The beacon that answers on [tcp://localhost:9998]: this process's own
    one when it has one, else the one on the loopback interface. *)
Definition serving (p : process) : option Beacon :=
  match _beacon p with
  | Started b => Some b
  | _ => loopback p
  end.

Definition set_serving (b : Beacon) (p : process) : process :=
  match _beacon p with
  | Started _ => mkProcess (Started b) (loopback p) (atexit p)
  | r => mkProcess r (Some b) (atexit p)
  end.

(** [_rpc(action, *args)]: the request is packed and sent, the serving
    beacon takes it in its [check_for_commands], and its reply is unpacked.
    With nobody serving, or with a beacon that raises instead of replying,
    the caller is left waiting. *)
Definition _rpc (w : world) (fuel : nat) (action : pystr) (args : list pyval)
    (p : process) : outcome pyval * process * list log_record :=
  match pack (VList (VStr action :: args)) with
  | Ok request =>
      match serving p with
      | None => (Unfinished, p, [])
      | Some b =>
          let '(r, b', l) := check_for_commands w fuel false (Message request) b in
          match r with
          | Ok _ =>
              match nth_error (rpc b') (List.length (rpc b)) with
              | Some reply => (unpack reply, set_serving b' p, l)
              | None => (Unfinished, set_serving b' p, l)
              end
          | _ => (Unfinished, set_serving b' p, l)
          end
      end
  | Raise e => (Raise e, p, [])
  | Unmodelled => (Unmodelled, p, [])
  | Unfinished => (Unfinished, p, [])
  end.

(** [":" in address] and [address.partition(":")] *)
Fixpoint partition_colon (s : pystr) : option (pystr * pystr) :=
  match s with
  | [] => None
  | c :: r =>
      if (c =? 58)%N then Some ([], r)
      else match partition_colon r with
           | Some (a, b) => Some (c :: a, b)
           | None => None
           end
  end.

Definition split_address (address : pystr) : pyval * pystr :=
  match partition_colon address with
  | Some (ip, port) => (VStr ip, port)
  | None => (VNone, address)
  end.

(** [str(v)] *)
Definition str (w : world) (v : pyval) : pystr :=
  match v with
  | VStr s => s
  | VNone => u "None"
  | VBool true => u "True"
  | VBool false => u "False"
  | VInt z => Json.int_repr z
  | _ => repr w v
  end.

Definition advertise (w : world) (fuel : nat) (ports_free : bool) (name address : pyval)
    (p : process) : outcome pyval * process * list log_record :=
  let (p1, l1) := start_beacon ports_free p in
  let (ip, port) := split_address (str w address) in
  let '(result, p2, l2) := _rpc w fuel (u "advertise") [name; VStr port; ip] p1 in
  match result with
  | Ok v =>
      (Ok v,
       mkProcess (_beacon p2) (loopback p2)
                 (atexit p2 ++ [Hook "unadvertise" [name; VStr port; ip]]),
       l1 ++ l2)
  | _ => (result, p2, l1 ++ l2)
  end.

Definition unadvertise (w : world) (fuel : nat) (ports_free : bool) (name address : pyval)
    (p : process) : outcome pyval * process * list log_record :=
  let (p1, l1) := start_beacon ports_free p in
  let (ip, port) := split_address (str w address) in
  let '(result, p2, l2) := _rpc w fuel (u "unadvertise") [name; VStr port; ip] p1 in
  (result, p2, l1 ++ l2).

Definition discover (w : world) (fuel : nat) (ports_free : bool) (name wait_for_secs : pyval)
    (p : process) : outcome pyval * process * list log_record :=
  let (p1, l1) := start_beacon ports_free p in
  let '(result, p2, l2) := _rpc w fuel (u "discover") [name; wait_for_secs] p1 in
  (result, p2, l1 ++ l2).


(** *** The thread's main loop *)

Definition interval_secs : Q := inject_Z 2.

(** What one turn of the loop of [run] meets: what the control socket holds,
    what [time.time()] returns when the interval is tested and, if a
    broadcast follows, when the interval starts again, and what the poll of
    the broadcast socket finds. *)
Record cycle : Type := mkCycle {
  command : received;
  now : Q;
  after_broadcast : Q;
  heard : polled
}.

(** One turn of the [while] of [run]; [t0] is when the interval started, and
    the result is when it starts for the next turn. *)
Definition run_cycle (w : world) (fuel : nat) (c : cycle) (t0 : Q) : M Q :=
  check_for_commands w fuel false (command c) ;;
  t0' <- (if negb (Qle_bool (now c) (t0 + interval_secs)%Q)
          then advertise_names ;; ret (after_broadcast c)
          else ret t0) ;;
  check_for_adverts (heard c) ;;
  ret t0'.

(** The [while not self._stop_event.wait(0)]: the turns are those made
    before the stop event is found set. *)
Fixpoint run_loop (w : world) (fuel : nat) (cycles : list cycle) (t0 : Q) : M unit :=
  match cycles with
  | [] => ret tt
  | c :: r => t0' <- run_cycle w fuel c t0 ;; run_loop w fuel r t0'
  end.

(** [Beacon.run]; [started] is the first [time.time()]. *)
Definition run (w : world) (fuel : nat) (started : Q) (cycles : list cycle) : M unit :=
  logger INFO "Starting discovery" [] ;;
  run_loop w fuel cycles started ;;
  logger INFO "Ending discovery" [].

(** *** Exit hooks *)

(** The call an exit hook makes, [function( *args)].  The only function the
    module registers is [unadvertise], which takes a name and an address. *)
Definition call_hook (w : world) (fuel : nat) (ports_free : bool) (h : hook) (p : process)
  : outcome pyval * process * list log_record :=
  if String.eqb (hook_function h) "unadvertise" then
    match hook_args h with
    | [name; address] => unadvertise w fuel ports_free name address p
    | _ => (Raise TypeError, p, [])
    end
  else (Unmodelled, p, []).

(** What [atexit] does with a list of hooks, first to last: each is called,
    and an exception of one does not keep the next from running.  The
    result is the process after all of them and how each ended. *)
Fixpoint call_hooks (w : world) (fuel : nat) (ports_free : bool) (hooks : list hook)
    (p : process) : process * list (outcome pyval) :=
  match hooks with
  | [] => (p, [])
  | h :: r =>
      let '(o, p1, _) := call_hook w fuel ports_free h p in
      let (p2, os) := call_hooks w fuel ports_free r p1 in
      (p2, o :: os)
  end.

(** At exit the hooks run last registered first. *)
Definition run_exit_hooks (w : world) (fuel : nat) (ports_free : bool) (p : process)
  : process * list (outcome pyval) :=
  call_hooks w fuel ports_free (rev (atexit p)) p.
(* ===================================================================== *)
(** ** Concrete states and inputs used in the examples *)
(* ===================================================================== *)

Definition svc : pyval := VStr (u "svc").
Definition port_9005 : pyval := VStr (u "9005").
Definition port_9006 : pyval := VStr (u "9006").

(** A beacon that advertises ["svc"] on ["9005"] and nothing else. *)
Definition advertising_svc : Beacon := mkBeacon [(svc, [port_9005])] [] [] [].

(* ===================================================================== *)
(** ** Vocabulary of the properties *)
(* ===================================================================== *)

(** Values that are [==] have one normal form: a [bool] is the integer it
    equals. *)
Fixpoint norm (v : pyval) : pyval :=
  match v with
  | VBool b => VInt (b2z b)
  | VTuple l => VTuple (map norm l)
  | _ => v
  end.

(** No two members are [==]. *)
Definition distinct (s : list pyval) : Prop :=
  ForallOrdPairs (fun x y => py_eq x y = false) s.

(** No two keys are [==]; a later key is compared with an earlier one. *)
Definition keys_distinct {V} (d : pydict V) : Prop :=
  ForallOrdPairs (fun k1 k2 => py_eq k2 k1 = false) (dict_keys d).

Definition all_hashable (s : list pyval) : Prop := Forall (fun x => hashable x = true) s.

(** A bucket as the invariant wants it: not empty, members hashable and
    pairwise different. *)
Definition bucket_ok (s : pyset) : Prop := s <> [] /\ distinct s /\ all_hashable s.

(** A table of buckets: keys hashable and pairwise different, every bucket
    as above. *)
Definition table_ok (d : pydict pyset) : Prop :=
  keys_distinct d /\ all_hashable (dict_keys d) /\ Forall (fun kv => bucket_ok (snd kv)) d.

(** The calls that change the advertisement set. *)
Inductive op : Type :=
| Advertise (name port ip : pyval)
| Unadvertise (name port ip : pyval).

(** The instance after a call, whether it returned or raised. *)
Definition run_op (o : op) (b : Beacon) : Beacon :=
  match o with
  | Advertise name port ip => snd (fst (do_advertise name port ip b))
  | Unadvertise name port ip => snd (fst (do_unadvertise name port ip b))
  end.

Definition run_ops (ops : list op) (b : Beacon) : Beacon :=
  fold_left (fun b o => run_op o b) ops b.

(** A port is something that can be a member of a set. *)
Definition port_hashable (o : op) : Prop :=
  match o with
  | Advertise _ port _ => hashable port = true
  | Unadvertise _ _ _ => True
  end.

(** The instance after [self.rpc.send(frame)]. *)
Definition sent (frame : pybytes) (b : Beacon) : Beacon :=
  mkBeacon (_services_to_advertise b) (_services_found b) (rpc b ++ [frame]) (socket b).

(** [check_for_commands] answered [message] through [handler]: whenever the
    handler returns a result that can be packed, the outcome [out] of the
    step is the handler's state with the packed result sent on the control
    channel, after the two debug records of the step and the handler's own. *)
Definition answered_by (out : outcome unit * Beacon * list log_record)
    (fname : string) (handler : M pyval) (message : pybytes) (params : list pyval)
    (b : Beacon) : Prop :=
  forall result b1 l1 frame,
    handler b = (Ok result, b1, l1) ->
    pack result = Ok frame ->
    out = (Ok tt, sent frame b1,
           Log DEBUG "Received command %s" [LBytes message]
           :: Log DEBUG "Calling %s with %s" [LMethod fname; LVal (VList params)]
           :: l1).

(** What [check_for_commands] leaves when [method], found under the name
    [fname], is called on the beacon [b] for the frame [message]: the two
    debug records of the step and the method's own; when the method returns,
    its packed result sent on the control channel from the state the method
    left; when the method or the packing ends otherwise, that ending, the
    method's state and no reply. *)
Definition served (fname : string) (method : M pyval) (message : pybytes)
    (params : list pyval) (b : Beacon) : outcome unit * Beacon * list log_record :=
  let '(o, b1, l1) := method b in
  let logs := Log DEBUG "Received command %s" [LBytes message]
              :: Log DEBUG "Calling %s with %s" [LMethod fname; LVal (VList params)]
              :: l1 in
  match obind o pack with
  | Ok frame => (Ok tt, sent frame b1, logs)
  | Raise e => (Raise e, b1, logs)
  | Unmodelled => (Unmodelled, b1, logs)
  | Unfinished => (Unfinished, b1, logs)
  end.

(** The ASCII bytes of a literal in which an apostrophe stands for the
    double quote. *)
Definition wire (s : string) : pybytes :=
  map (fun c => if (c =? 39)%N then 34%N else c) (u s).

Definition request_ADVERTISE : pybytes := wire "['ADVERTISE', 'svc', '9005']".
Definition request_Discover : pybytes := wire "['Discover', 'svc', -1]".
Definition request_subscribe : pybytes := wire "['subscribe', 'svc']".

(** An advertise request whose port is a list, and a frame whose verb is an
    integer. *)
Definition request_advertise_list : pybytes := wire "['advertise', 'svc', []]".
Definition request_verb_5 : pybytes := wire "[5, 'svc']".

(** A world whose clock advances one second per reading, whose draws are
    always the first item, and where the beacon thread is alone. *)
Definition quiet_world : world :=
  mkWorld (fun k => inject_Z (Z.of_nat k)) (fun _ => O) (fun _ b => b) (fun _ => []).

(** The instance at the [k]-th pass of the wait loop of a [do_discover]
    entered with [b]. *)
Fixpoint state_at (w : world) (k : nat) (b : Beacon) : Beacon :=
  match k with
  | O => b
  | S k' => other_threads w k' (state_at w k' b)
  end.

(** What the [k]-th pass finds under [name]; nothing is the empty bucket. *)
Definition bucket_at (w : world) (k : nat) (name : pyval) (b : Beacon) : pyset :=
  match dict_find name (_services_found (state_at w k b)) with
  | Some s => s
  | None => []
  end.

(** [t1] of [do_discover]. *)
Definition deadline (w : world) (z : Z) : Q := (time_time w 0 + inject_Z z)%Q.

(** The [j]-th pass neither finds an endpoint nor sees the deadline
    passed. *)
Definition still_waiting (w : world) (name : pyval) (z : Z) (b : Beacon) (j : nat) : Prop :=
  bucket_at w j name b = [] /\ (time_time w (S j) <= deadline w z)%Q.

(** An endpoint as [check_for_adverts] stores it: the pair of the sender's
    address and the port of the frame. *)
Definition is_endpoint (v : pyval) : Prop :=
  exists ip port, v = VTuple [VStr ip; port].

Definition localhost_9005 : pyval := VTuple [VStr (u "127.0.0.1"); port_9005].

(** A beacon that has heard of ["svc"] at 127.0.0.1, port ["9005"]. *)
Definition discovered_svc : Beacon := mkBeacon [] [(svc, [localhost_9005])] [] [].

Definition request_discover_5 : pybytes := wire "['discover', 'svc', 5]".

(** A datagram that is no JSON text, and one whose 300 bytes are cut in the
    middle of its first string. *)
Definition datagram_garbage : pybytes := wire "svc on 9005".
Definition datagram_too_long : pybytes :=
  wire "['" ++ repeat 97%N 300 ++ wire "', '9005']".
Definition from_peer : pystr * Z := (u "192.168.1.5", 9999%Z).

Definition no_process : process := mkProcess PyNone None [].

(** Text that comes back from the wire as it went: code points of Unicode,
    with no high surrogate directly before a low one (the decoder reads such
    a pair of escapes as one character). *)
Fixpoint text_ok (s : pystr) : Prop :=
  match s with
  | [] => True
  | c :: r =>
      (c < 1114112)%N /\
      (Json.is_high_surrogate c = true ->
       match r with
       | c2 :: _ => Json.is_low_surrogate c2 = false
       | [] => True
       end) /\
      text_ok r
  end.

(** The values that JSON has as they are: [None], booleans, integers, text
    as above, lists of such values, and dicts of such values under text keys
    that are all different.  A tuple is not among them. *)
Fixpoint native (v : pyval) : Prop :=
  match v with
  | VNone | VBool _ | VInt _ => True
  | VStr s => text_ok s
  | VList l =>
      (fix all (l : list pyval) : Prop :=
         match l with
         | [] => True
         | x :: r => native x /\ all r
         end) l
  | VTuple _ => False
  | VDict items =>
      (fix all (l : list (pyval * pyval)) : Prop :=
         match l with
         | [] => True
         | (k, x) :: r =>
             match k with
             | VStr s => text_ok s
             | _ => False
             end /\ native x /\ all r
         end) items
      /\ NoDup (map fst items)
  end.

(** The number of calls of the scanner that reading a value back takes, at
    most. *)
Fixpoint size (v : pyval) : nat :=
  match v with
  | VList l | VTuple l => 2 + list_sum (map size l)
  | VDict items => 2 + list_sum (map (fun kv : pyval * pyval => size (snd kv)) items)
  | _ => 1
  end.

(** What may follow a value in a JSON text: nothing, a comma, or a closing
    bracket or brace. *)
Definition delimited (rest : pystr) : Prop :=
  match rest with
  | [] => True
  | c :: _ => c = 44%N \/ c = 93%N \/ c = 125%N
  end.

(** The first character of an encoded value. *)
Definition value_start (c : N) : Prop :=
  c = 34%N \/ c = 91%N \/ c = 123%N \/ c = 110%N \/ c = 116%N \/ c = 102%N \/
  c = 45%N \/ (48 <= c <= 57)%N.

(** What may follow the digits of an integer: no further digit, and no
    fraction or exponent. *)
Definition ends_number (rest : pystr) : Prop :=
  Json.float_follows rest = false /\
  match rest with
  | c :: _ => Json.is_digit c = false
  | [] => True
  end.

(** A value reads back: for every sufficient fuel and whatever delimiter
    follows, scanning its encoding gives the value and stops there. *)
Definition reads_back (v : pyval) : Prop :=
  forall fuel rest,
    size v <= fuel ->
    delimited rest ->
    exists t, Json.dumps v = Ok t /\ Json.scan_once fuel (t ++ rest) = Json.Scanned v rest.

(** The item of a dict with a text key, as the pair the decoder collects. *)
Definition to_pair (kv : pyval * pyval) : pystr * pyval :=
  (match fst kv with VStr k => k | _ => [] end, snd kv).

(** The text of one item of a dict, as the encoder writes it. *)
Definition item_text (kv : pyval * pyval) : outcome pystr :=
  let (k, x) := kv in
  obind (Json.key_text k) (fun kt =>
  obind (Json.dumps x) (fun xt =>
  Ok (Json.encode_basestring_ascii kt ++ u ": " ++ xt))).

(** Characters, or bytes, of ASCII only. *)
Definition is_ascii (t : list N) : Prop := Forall (fun c => (c < 128)%N) t.

Definition a_tuple : pyval := VTuple [VInt 1; VInt 2].
Definition lone_surrogates : pyval := VStr [55357%N; 56832%N].


(** The (name, port) pairs of an advertisement set, in the order
    [advertise_names] visits them. *)
Definition pairs_of (d : pydict pyset) : list (pyval * pyval) :=
  flat_map (fun item : pyval * pyset => map (fun port => (fst item, port)) (snd item)) d.

(** The instance after some datagrams were sent on the broadcast socket. *)
Definition broadcast (frames : list (pybytes * (string * Z))) (b : Beacon) : Beacon :=
  mkBeacon (_services_to_advertise b) (_services_found b) (rpc b) (socket b ++ frames).

(** A datagram is the advertisement of a pair: the packed two-element
    sequence, sent to the broadcast address. *)
Definition advertises (pair : pyval * pyval) (frame : pybytes * (string * Z)) : Prop :=
  pack (VList [fst pair; snd pair]) = Ok (fst frame) /\
  snd frame = ("255.255.255.255"%string, beacon_port).

(** An address object whose text is not its own: [str] of the integer
    9005. *)
Definition address_9005 : pyval := VInt 9005.
Definition address_text : pyval := VStr (u "127.0.0.1:9005").

(** An address whose port is a high surrogate followed by a low one, and
    the character U+1F600 that the two escapes are read back as. *)
Definition address_surrogates : pyval := VStr [104%N; 58%N; 55357%N; 56832%N].
Definition port_surrogates : pyval := VStr [55357%N; 56832%N].
Definition port_U1F600 : pyval := VStr [128512%N].

(** Every member of every bucket of the discovered set is an endpoint. *)
Definition endpoints_only (d : pydict pyset) : Prop :=
  Forall (fun kv : pyval * pyset => Forall is_endpoint (snd kv)) d.

(* ===================================================================== *)
(** ** Vocabulary of the further properties *)
(* ===================================================================== *)

(** A value as it comes back from the wire: every tuple is a list. *)
Fixpoint listify (v : pyval) : pyval :=
  match v with
  | VList l | VTuple l => VList (map listify l)
  | VDict items =>
      VDict (map (fun kv : pyval * pyval => let (k, x) := kv in (k, listify x)) items)
  | _ => v
  end.

(** The bucket of a name; no bucket is the empty one. *)
Definition bucket (name : pyval) (d : pydict pyset) : pyset :=
  match dict_find name d with
  | Some s => s
  | None => []
  end.

(** The frame a peer broadcasts for ["svc"] on ["9005"]. *)
Definition advert_svc : pybytes := wire "['svc', '9005']".

(** ["svc"] as heard from the peer. *)
Definition peer_svc : pyval := VTuple [VStr (u "192.168.1.5"); port_9005].


(** A step that leaves the advertisement set as it finds it, however it
    ends. *)
Definition keeps_advertised {A} (m : M A) : Prop :=
  forall b, _services_to_advertise (snd (fst (m b))) = _services_to_advertise b.
(* ===================================================================== *)
(** * Properties *)
(* ===================================================================== *)

Unset Implicit Arguments.

Ltac unfold_M :=
  unfold bind, ret, lift, raise, logger, get_advertised, get_found,
    set_advertised, set_found, rpc_send, socket_sendto, interfere in *.

(** ** [do_unadvertise] *)

(** A name that is not advertised at all: the warning is logged, the table
    is as it was, the result is [None]. *)
Lemma do_unadvertise_absent_name name port ip b :
  hashable name = true ->
  dict_find name (_services_to_advertise b) = None ->
  do_unadvertise name port ip b =
    (Ok VNone, b,
     [Log DEBUG "Unadvertise %s on %s" [LVal name; LVal port];
      Log WARNING "Not currently advertising %s on %s" [LVal name; LVal port]]).
Proof.
  intros Hh Hf. unfold do_unadvertise, get_or_empty. unfold_M.
  rewrite Hh, Hf. reflexivity.
Qed.

(** C2: a name that is advertised, on another port only.  [ports.remove]
    raises [KeyError]: no warning is logged and nothing is returned, so the
    control channel sends no reply. *)
Theorem do_unadvertise_other_port_raises :
  do_unadvertise svc port_9006 VNone advertising_svc =
    (Raise KeyError, advertising_svc,
     [Log DEBUG "Unadvertise %s on %s" [LVal svc; LVal port_9006]]).
Proof. reflexivity. Qed.

(** The same, whatever the table: an advertised name and a port that is not
    in its bucket end in [KeyError], with the table untouched and no
    warning. *)
Lemma do_unadvertise_missing_port name port ip b x s :
  hashable name = true ->
  hashable port = true ->
  dict_find name (_services_to_advertise b) = Some (x :: s) ->
  set_mem port (x :: s) = false ->
  do_unadvertise name port ip b =
    (Raise KeyError, b, [Log DEBUG "Unadvertise %s on %s" [LVal name; LVal port]]).
Proof.
  intros Hn Hp Hf Hm. unfold do_unadvertise, get_or_empty, set_remove. unfold_M.
  rewrite Hn, Hf, Hp, Hm. reflexivity.
Qed.

(** A pair that is advertised: the port leaves the bucket, the bucket
    leaves the table when it is empty, and the result is [None]. *)
Lemma do_unadvertise_present name port ip b x s :
  hashable name = true ->
  hashable port = true ->
  dict_find name (_services_to_advertise b) = Some (x :: s) ->
  set_mem port (x :: s) = true ->
  let ports' := filter (fun y => negb (py_eq port y)) (x :: s) in
  do_unadvertise name port ip b =
    (Ok VNone,
     mkBeacon (match ports' with
               | [] => dict_del name (_services_to_advertise b)
               | _ :: _ => dict_set name ports' (_services_to_advertise b)
               end)
              (_services_found b) (rpc b) (socket b),
     [Log DEBUG "Unadvertise %s on %s" [LVal name; LVal port]])
  /\ set_mem port ports' = false.
Proof.
  intros Hn Hp Hf Hm ports'. split.
  - unfold do_unadvertise, get_or_empty, set_remove. unfold_M.
    rewrite Hn, Hf, Hp, Hm. fold ports'. destruct ports'; reflexivity.
  - unfold set_mem, ports'. clear. induction (x :: s) as [|y l IH]; [reflexivity|].
    simpl. destruct (py_eq port y) eqn:E; simpl; [exact IH|].
    rewrite E. exact IH.
Qed.

(** ** Python equality on hashable values *)

Lemma streq_eq a b : streq a b = true <-> a = b.
Proof. unfold streq. destruct (list_eq_dec N.eq_dec a b); split; congruence. Qed.

Lemma streq_refl a : streq a a = true.
Proof. apply streq_eq. reflexivity. Qed.

Lemma b2z_inj x y : b2z x = b2z y -> x = y.
Proof. destruct x, y; simpl; congruence. Qed.

(** On hashable values [==] is equality of normal forms. *)
Lemma py_eq_norm a :
  hashable a = true ->
  forall b, py_eq a b = true <-> (hashable b = true /\ norm a = norm b).
Proof.
  induction a using pyval_rect'; intros Ha b0; try discriminate Ha.
  - destruct b0; simpl; split; try tauto; try discriminate;
      try (intros [_ E]; discriminate E); intros [E _]; discriminate E.
  - destruct b0; simpl; split; try discriminate; try (intros [E _]; discriminate E);
      try (intros [_ E]; discriminate E).
    + intros E. apply Bool.eqb_prop in E. subst. auto.
    + intros [_ E]. injection E as E. apply b2z_inj in E. subst. apply Bool.eqb_reflx.
    + intros E. apply Z.eqb_eq in E. subst. auto.
    + intros [_ E]. injection E as E. apply Z.eqb_eq. exact E.
  - destruct b0; simpl; split; try discriminate; try (intros [E _]; discriminate E);
      try (intros [_ E]; discriminate E).
    + intros E. apply Z.eqb_eq in E. subst. auto.
    + intros [_ E]. injection E as E. apply Z.eqb_eq. exact E.
    + intros E. apply Z.eqb_eq in E. subst. auto.
    + intros [_ E]. injection E as E. apply Z.eqb_eq. exact E.
  - destruct b0; simpl; split; try discriminate; try (intros [E _]; discriminate E);
      try (intros [_ E]; discriminate E).
    + intros E. apply streq_eq in E. subst. auto.
    + intros [_ E]. injection E as E. apply streq_eq. exact E.
  - destruct b0 as [| | | | |l0|]; simpl;
      try (split; [discriminate | intros [E1 E2]; try discriminate E1; discriminate E2]).
    simpl in Ha. revert l0. induction l as [|x l IH]; intros [|y l0]; simpl.
    + tauto.
    + split; [discriminate | intros [_ E]; discriminate E].
    + split; [discriminate | intros [_ E]; discriminate E].
    + simpl in Ha. apply andb_true_iff in Ha as [Hx Hl].
      inversion H as [|? ? Px Pl]; subst.
      specialize (IH Pl Hl l0). specialize (Px Hx y).
      rewrite !andb_true_iff, Px, IH. split.
      * intros [[? E1] [? E2]]. repeat split; try assumption.
        injection E2 as E2. congruence.
      * intros [[? ?] E]. injection E as E1 E2. repeat split; try assumption.
        congruence.
Qed.

Lemma py_eq_refl a : hashable a = true -> py_eq a a = true.
Proof. intros H. apply py_eq_norm; auto. Qed.

Lemma py_eq_sym a b : hashable a = true -> py_eq a b = true -> py_eq b a = true.
Proof.
  intros H E. apply (py_eq_norm a H) in E as [Hb E]. apply py_eq_norm; auto.
Qed.

Lemma py_eq_trans a b c :
  hashable a = true -> py_eq a b = true -> py_eq b c = true -> py_eq a c = true.
Proof.
  intros H E1 E2. apply (py_eq_norm a H) in E1 as [Hb E1].
  apply (py_eq_norm b Hb) in E2 as [Hc E2]. apply py_eq_norm; auto. split; congruence.
Qed.

(** Text equals only the same text. *)
Lemma py_eq_str s v : py_eq (VStr s) v = true <-> v = VStr s.
Proof.
  destruct v; simpl; split; try discriminate.
  - intros E. apply streq_eq in E. congruence.
  - intros E. injection E as E. apply streq_eq. congruence.
Qed.

(** ** Sets and dicts *)

Lemma set_mem_false x s :
  set_mem x s = false -> Forall (fun y => py_eq x y = false) s.
Proof.
  unfold set_mem. induction s as [|y s IH]; simpl; intros H; constructor.
  - apply orb_false_iff in H. tauto.
  - apply IH. apply orb_false_iff in H. tauto.
Qed.

Lemma distinct_filter (f : pyval -> bool) s : distinct s -> distinct (filter f s).
Proof.
  unfold distinct. induction 1 as [|x s Hx Hs IH]; simpl; [constructor|].
  destruct (f x); [|exact IH]. constructor; [|exact IH].
  clear -Hx. induction Hx; simpl; [constructor|]. destruct (f x0); auto.
Qed.

Lemma all_hashable_filter (f : pyval -> bool) s : all_hashable s -> all_hashable (filter f s).
Proof.
  unfold all_hashable. rewrite !Forall_forall. intros H x Hx.
  apply filter_In in Hx. apply H. tauto.
Qed.

Lemma distinct_NoDup s : distinct s -> all_hashable s -> NoDup s.
Proof.
  unfold distinct, all_hashable. induction 1 as [|x s Hx Hs IH]; intros Hh; constructor.
  - intros Hin. inversion Hh; subst. rewrite Forall_forall in Hx.
    specialize (Hx _ Hin). rewrite py_eq_refl in Hx; [discriminate | assumption].
  - apply IH. inversion Hh; assumption.
Qed.

Lemma FOP_app_one {A} (R : A -> A -> Prop) l x :
  ForallOrdPairs R l -> Forall (fun y => R y x) l -> ForallOrdPairs R (l ++ [x]).
Proof.
  induction 1 as [|y l Hy Hl IH]; intros H; simpl.
  - repeat constructor.
  - inversion H; subst. constructor; [|auto].
    apply Forall_app. split; [assumption | repeat constructor; assumption].
Qed.

Lemma dict_find_none_keys {V} k (d : pydict V) :
  dict_find k d = None -> Forall (fun k' => py_eq k k' = false) (dict_keys d).
Proof.
  induction d as [|[k' v] d IH]; simpl; [constructor|].
  destruct (py_eq k k') eqn:E; [discriminate|]. intros H. constructor; auto.
Qed.

Lemma dict_find_In {V} k (d : pydict V) v :
  dict_find k d = Some v -> exists k', In (k', v) d /\ py_eq k k' = true.
Proof.
  induction d as [|[k' v'] d IH]; simpl; [discriminate|].
  destruct (py_eq k k') eqn:E.
  - intros H. injection H as <-. eauto.
  - intros H. destruct (IH H) as (k'' & ? & ?). eauto.
Qed.

Lemma dict_set_set {V} k (v0 v : V) d :
  py_eq k k = true -> dict_set k v (dict_set k v0 d) = dict_set k v d.
Proof.
  intros Hk. induction d as [|[k' v'] d IH]; simpl.
  - rewrite Hk. reflexivity.
  - destruct (py_eq k k') eqn:E; simpl; rewrite E; [reflexivity | congruence].
Qed.

Lemma dict_find_set_same {V} k (v : V) d :
  py_eq k k = true -> dict_find k (dict_set k v d) = Some v.
Proof.
  intros Hk. induction d as [|[k' v'] d IH]; simpl.
  - rewrite Hk. reflexivity.
  - destruct (py_eq k k') eqn:E; simpl; rewrite E; auto.
Qed.

Lemma dict_set_keys {V} k (v : V) d :
  dict_keys (dict_set k v d) =
    match dict_find k d with
    | Some _ => dict_keys d
    | None => dict_keys d ++ [k]
    end.
Proof.
  induction d as [|[k' v'] d IH]; simpl; [reflexivity|].
  destruct (py_eq k k') eqn:E; simpl; [reflexivity|].
  rewrite IH. destruct (dict_find k d); reflexivity.
Qed.

Lemma dict_set_Forall {V} (P : V -> Prop) k v (d : pydict V) :
  Forall (fun kv => P (snd kv)) d -> P v -> Forall (fun kv => P (snd kv)) (dict_set k v d).
Proof.
  intros Hd Hv. induction Hd as [|[k' v'] d Hx Hd IH]; simpl.
  - repeat constructor. exact Hv.
  - destruct (py_eq k k'); constructor; auto.
Qed.

Lemma table_ok_set k s d :
  table_ok d -> hashable k = true -> bucket_ok s -> table_ok (dict_set k s d).
Proof.
  intros (Hk & Hh & Hb) Hkh Hs. unfold table_ok, keys_distinct.
  rewrite dict_set_keys. destruct (dict_find k d) eqn:E.
  - repeat split; try assumption. apply dict_set_Forall; assumption.
  - repeat split.
    + apply FOP_app_one; [exact Hk|]. apply dict_find_none_keys. exact E.
    + apply Forall_app. split; [exact Hh | repeat constructor; exact Hkh].
    + apply dict_set_Forall; assumption.
Qed.

Lemma table_ok_del k d : table_ok d -> table_ok (dict_del k d).
Proof.
  unfold table_ok, keys_distinct, all_hashable.
  induction d as [|[k' v'] d IH]; simpl; [tauto|].
  intros (Hk & Hh & Hb).
  inversion Hk as [|? ? Hk1 Hk2]; subst. inversion Hh; subst. inversion Hb; subst.
  destruct (py_eq k k'); [tauto|].
  destruct IH as (I1 & I2 & I3); [tauto|]. simpl. repeat split.
  - constructor; [|exact I1].
    clear -Hk1. induction d as [|[k2 v2] d IH]; simpl in *; [constructor|].
    inversion Hk1; subst. destruct (py_eq k k2); [assumption|]. simpl. constructor; auto.
  - constructor; assumption.
  - constructor; assumption.
Qed.

(** After [del d[k]] the key is gone. *)
Lemma dict_find_del {V} k (d : pydict V) :
  keys_distinct d -> all_hashable (dict_keys d) -> hashable k = true ->
  dict_find k (dict_del k d) = None.
Proof.
  unfold keys_distinct, all_hashable. intros Hk Hh Hkh.
  induction d as [|[k' v'] d IH]; simpl in *; [reflexivity|].
  inversion Hk as [|? ? Hk1 Hk2]; subst. inversion Hh as [|? ? Hh1 Hh2]; subst.
  destruct (py_eq k k') eqn:E.
  - clear IH Hk Hk2 Hh. induction d as [|[k2 v2] d IH]; simpl in *; [reflexivity|].
    inversion Hk1; subst. inversion Hh2; subst.
    destruct (py_eq k k2) eqn:E2; [|auto].
    exfalso. assert (py_eq k2 k' = true) as C.
    { apply py_eq_trans with k; [assumption | | assumption].
      apply py_eq_sym; assumption. }
    congruence.
  - simpl. rewrite E. auto.
Qed.

(** What [setdefault(k, set()).add(x)] amounts to when both can be hashed. *)
Lemma setdefault_add_hashable k x d :
  hashable k = true -> hashable x = true ->
  setdefault_add k x d =
    (dict_set k (let s := match dict_find k d with Some s => s | None => [] end in
                 if set_mem x s then s else x :: s) d,
     Ok tt).
Proof.
  intros Hk Hx. unfold setdefault_add, set_add. rewrite Hk, Hx.
  destruct (dict_find k d) eqn:E.
  - rewrite E. reflexivity.
  - rewrite dict_find_set_same by (apply py_eq_refl; exact Hk).
    simpl. rewrite dict_set_set by (apply py_eq_refl; exact Hk). reflexivity.
Qed.

Lemma bucket_of_table k d s :
  table_ok d -> dict_find k d = Some s -> bucket_ok s.
Proof.
  intros (_ & _ & Hb) H. apply dict_find_In in H as (k' & Hin & _).
  rewrite Forall_forall in Hb. apply (Hb _ Hin).
Qed.

Lemma setdefault_add_table_ok k x d :
  table_ok d -> hashable x = true -> table_ok (fst (setdefault_add k x d)).
Proof.
  intros Hd Hx. destruct (hashable k) eqn:Hk.
  - rewrite setdefault_add_hashable by assumption. simpl.
    apply table_ok_set; [assumption | assumption |].
    destruct (dict_find k d) as [s|] eqn:E.
    + pose proof (bucket_of_table _ _ _ Hd E) as (Hne & Hdi & Hha).
      destruct (set_mem x s) eqn:M; [repeat split; assumption|].
      repeat split; [discriminate | | constructor; assumption].
      constructor; [apply set_mem_false; exact M | exact Hdi].
    + simpl. repeat split; [discriminate | repeat constructor | repeat constructor; exact Hx].
  - unfold setdefault_add. rewrite Hk. exact Hd.
Qed.

(** ** The advertisement set *)

(** The table after [do_advertise], however the call ends. *)
Lemma do_advertise_table name port ip b :
  _services_to_advertise (snd (fst (do_advertise name port ip b))) =
    fst (setdefault_add name port (_services_to_advertise b)).
Proof.
  unfold do_advertise. unfold_M.
  destruct (setdefault_add name port (_services_to_advertise b)) as [d' r]. simpl.
  destruct r; simpl; try reflexivity; destruct (add_bangs name); reflexivity.
Qed.

Lemma do_advertise_keeps_table_ok name port ip b :
  hashable port = true ->
  table_ok (_services_to_advertise b) ->
  table_ok (_services_to_advertise (snd (fst (do_advertise name port ip b)))).
Proof.
  intros Hp Hb. rewrite do_advertise_table. apply setdefault_add_table_ok; assumption.
Qed.

Lemma do_unadvertise_keeps_table_ok name port ip b :
  table_ok (_services_to_advertise b) ->
  table_ok (_services_to_advertise (snd (fst (do_unadvertise name port ip b)))).
Proof.
  intros Hb. unfold do_unadvertise, get_or_empty, set_remove. unfold_M.
  destruct (hashable name) eqn:Hn; [|exact Hb].
  destruct (dict_find name (_services_to_advertise b)) as [[|x s]|] eqn:E; try exact Hb.
  destruct (hashable port); [|exact Hb].
  destruct (set_mem port (x :: s)); [|exact Hb].
  pose proof (bucket_of_table _ _ _ Hb E) as (_ & Hd & Hh).
  destruct (filter (fun y => negb (py_eq port y)) (x :: s)) as [|y s'] eqn:F; simpl.
  - apply table_ok_del. exact Hb.
  - apply table_ok_set; [exact Hb | exact Hn |]. rewrite <- F.
    repeat split.
    + rewrite F. discriminate.
    + apply distinct_filter. exact Hd.
    + apply all_hashable_filter. exact Hh.
Qed.

Lemma run_ops_keeps_table_ok ops b :
  Forall port_hashable ops ->
  table_ok (_services_to_advertise b) ->
  table_ok (_services_to_advertise (run_ops ops b)).
Proof.
  unfold run_ops. intros H. revert b. induction H as [|o ops Ho Hops IH]; intros b Hb.
  - exact Hb.
  - simpl. apply IH. destruct o; simpl in *.
    + apply do_advertise_keeps_table_ok; assumption.
    + apply do_unadvertise_keeps_table_ok; assumption.
Qed.

Lemma table_ok_empty : table_ok [].
Proof. repeat split; constructor. Qed.

(** C6: from the empty advertisement set, whatever is advertised and
    unadvertised (with ports that can be members of a set), every name in
    the table has a bucket that is not empty and holds no port twice; and an
    unadvertise that takes the last port of a bucket leaves the table
    without that name. *)
Theorem advertisement_set_invariant ops :
  Forall port_hashable ops ->
  let b := run_ops ops Beacon__init__ in
  (forall name ports,
      In (name, ports) (_services_to_advertise b) ->
      ports <> [] /\ distinct ports /\ NoDup ports) /\
  (forall name port ip ports,
      hashable name = true ->
      dict_find name (_services_to_advertise b) = Some ports ->
      set_remove port ports = Ok [] ->
      dict_find name (_services_to_advertise (run_op (Unadvertise name port ip) b))
        = None).
Proof.
  intros Hops b.
  assert (table_ok (_services_to_advertise b)) as Hb.
  { apply run_ops_keeps_table_ok; [exact Hops | apply table_ok_empty]. }
  split.
  - intros name ports Hin. destruct Hb as (_ & _ & Hb).
    rewrite Forall_forall in Hb. destruct (Hb _ Hin) as (Hne & Hd & Hh).
    repeat split; [exact Hne | exact Hd | apply distinct_NoDup; assumption].
  - intros name port ip ports Hn Hf Hr. simpl.
    pose proof (bucket_of_table _ _ _ Hb Hf) as (Hne & _ & _).
    unfold do_unadvertise, get_or_empty. unfold_M. rewrite Hn, Hf.
    destruct ports as [|x s]; [congruence|]. rewrite Hr. simpl.
    destruct Hb as (Hk & Hh & _). apply dict_find_del; assumption.
Qed.

(** The invariant at work: advertise two ports, one of them twice, and take
    one away again. *)
Lemma advertisement_set_invariant_witness :
  Forall port_hashable
    [Advertise svc port_9005 VNone; Advertise svc port_9006 VNone;
     Advertise svc port_9005 VNone; Unadvertise svc port_9006 VNone] /\
  _services_to_advertise
    (run_ops [Advertise svc port_9005 VNone; Advertise svc port_9006 VNone;
              Advertise svc port_9005 VNone; Unadvertise svc port_9006 VNone]
             Beacon__init__) = [(svc, [port_9005])] /\
  (forall name ports,
      In (name, ports)
         (_services_to_advertise
            (run_ops [Advertise svc port_9005 VNone; Advertise svc port_9006 VNone;
                      Advertise svc port_9005 VNone; Unadvertise svc port_9006 VNone]
                     Beacon__init__)) ->
      ports <> [] /\ distinct ports /\ NoDup ports).
Proof.
  split; [repeat constructor|]. split; [reflexivity|].
  apply (advertisement_set_invariant
           [Advertise svc port_9005 VNone; Advertise svc port_9006 VNone;
            Advertise svc port_9005 VNone; Unadvertise svc port_9006 VNone]).
  repeat constructor.
Defined.

(** ** The control channel: [check_for_commands] *)

Lemma streq_prefix p a b : streq (p ++ a) (p ++ b) = streq a b.
Proof.
  destruct (streq a b) eqn:E.
  - apply streq_eq in E. subst. apply streq_refl.
  - destruct (streq (p ++ a) (p ++ b)) eqn:E'; [|reflexivity].
    apply streq_eq in E'. apply app_inv_head in E'. subst.
    rewrite streq_refl in E. discriminate.
Qed.

(** The attribute lookup of the dispatch, by the lower-cased verb. *)
Lemma getattr_do w fuel low :
  getattr (u "do_" ++ low) (do_methods w fuel) =
    if streq low (u "advertise") then Some ("do_advertise"%string, call_do_advertise)
    else if streq low (u "unadvertise") then Some ("do_unadvertise"%string, call_do_unadvertise)
    else if streq low (u "discover") then Some ("do_discover"%string, call_do_discover w fuel)
    else None.
Proof.
  unfold do_methods, getattr.
  change (u "do_advertise") with (u "do_" ++ u "advertise").
  change (u "do_unadvertise") with (u "do_" ++ u "unadvertise").
  change (u "do_discover") with (u "do_" ++ u "discover").
  rewrite !streq_prefix. reflexivity.
Qed.

(** The step on a frame [[verb, params...]], as far as the lookup. *)
Lemma check_for_commands_frame w fuel wait message verb params b :
  unpack message = Ok (VList (VStr verb :: params)) ->
  check_for_commands w fuel wait (Message message) b =
    match getattr (u "do_" ++ lower verb) (do_methods w fuel) with
    | None =>
        (Raise NotImplementedError, b, [Log DEBUG "Received command %s" [LBytes message]])
    | Some (fname, function) =>
        (logger DEBUG "Received command %s" [LBytes message] ;;
         logger DEBUG "Calling %s with %s" [LMethod fname; LVal (VList params)] ;;
         result <- function params ;;
         frame <- lift (pack result) ;;
         rpc_send frame) b
    end.
Proof.
  intros Hu. unfold check_for_commands. unfold_M. rewrite Hu.
  cbn [head_and_tail action_lower app].
  destruct (getattr (u "do_" ++ lower verb) (do_methods w fuel)) as [[fname function]|];
    [|reflexivity].
  destruct (function params b) as [[o b1] l1].
  destruct o; try reflexivity.
  destruct (pack a); reflexivity.
Qed.

Lemma answered w fuel wait message verb params b fname handler :
  unpack message = Ok (VList (VStr verb :: params)) ->
  getattr (u "do_" ++ lower verb) (do_methods w fuel) = Some (fname, handler) ->
  answered_by (check_for_commands w fuel wait (Message message) b)
              fname (handler params) message params b.
Proof.
  intros Hu Hg result b1 l1 frame Hh Hp.
  rewrite (check_for_commands_frame w fuel wait _ _ _ b Hu), Hg.
  unfold_M. simpl. rewrite Hh, Hp. simpl. rewrite app_nil_r. reflexivity.
Qed.

(** A verb that names no method: [NotImplementedError], with the instance
    as it was and only the record of the command logged. *)
Lemma unknown_verb w fuel wait message verb params b :
  unpack message = Ok (VList (VStr verb :: params)) ->
  lower verb <> u "advertise" ->
  lower verb <> u "unadvertise" ->
  lower verb <> u "discover" ->
  check_for_commands w fuel wait (Message message) b =
    (Raise NotImplementedError, b, [Log DEBUG "Received command %s" [LBytes message]]).
Proof.
  intros Hu H1 H2 H3.
  rewrite (check_for_commands_frame w fuel wait _ _ _ b Hu), getattr_do.
  destruct (streq (lower verb) (u "advertise")) eqn:E1;
    [apply streq_eq in E1; contradiction|].
  destruct (streq (lower verb) (u "unadvertise")) eqn:E2;
    [apply streq_eq in E2; contradiction|].
  destruct (streq (lower verb) (u "discover")) eqn:E3;
    [apply streq_eq in E3; contradiction|].
  reflexivity.
Qed.

(** The step on a frame whose verb names a method. *)
Lemma check_for_commands_served w fuel wait message verb params b fname handler :
  unpack message = Ok (VList (VStr verb :: params)) ->
  getattr (u "do_" ++ lower verb) (do_methods w fuel) = Some (fname, handler) ->
  check_for_commands w fuel wait (Message message) b
    = served fname (handler params) message params b.
Proof.
  intros Hu Hg. rewrite (check_for_commands_frame w fuel wait _ _ _ b Hu), Hg.
  unfold served. unfold_M. destruct (handler params b) as [[o b1] l1].
  destruct o as [result| | |]; cbn [obind]; try reflexivity.
  destruct (pack result); cbn [app]; rewrite ?app_nil_r; reflexivity.
Qed.

(** C7, as the code has it: on a frame [[verb, params...]] whose verb is
    text the step goes by the lower-cased verb.  [advertise] and
    [unadvertise] call [do_advertise] and [do_unadvertise] with the two or
    three remaining arguments as name, port and ip, [discover] calls
    [do_discover] with the two remaining arguments as name and wait; the
    packed result is sent when the method returns, and nothing is sent when
    it raises, as the call itself does with [TypeError] when the number of
    arguments does not fit.  Any other text verb ends in
    [NotImplementedError]; a verb that is not text ends in [AttributeError]
    at [action.lower()]. *)
Theorem check_for_commands_dispatch w fuel wait message verb params b :
  unpack message = Ok (VList (verb :: params)) ->
  let out := check_for_commands w fuel wait (Message message) b in
  match verb with
  | VStr v =>
      (lower v = u "advertise" ->
       out = served "do_advertise"
                    match params with
                    | [name; port] => do_advertise name port VNone
                    | [name; port; ip] => do_advertise name port ip
                    | _ => raise TypeError
                    end message params b) /\
      (lower v = u "unadvertise" ->
       out = served "do_unadvertise"
                    match params with
                    | [name; port] => do_unadvertise name port VNone
                    | [name; port; ip] => do_unadvertise name port ip
                    | _ => raise TypeError
                    end message params b) /\
      (lower v = u "discover" ->
       out = served "do_discover"
                    match params with
                    | [name; wait_for_secs] => do_discover w fuel name wait_for_secs
                    | _ => raise TypeError
                    end message params b) /\
      (lower v <> u "advertise" ->
       lower v <> u "unadvertise" ->
       lower v <> u "discover" ->
       out = (Raise NotImplementedError, b,
              [Log DEBUG "Received command %s" [LBytes message]]))
  | _ =>
      out = (Raise AttributeError, b, [Log DEBUG "Received command %s" [LBytes message]])
  end.
Proof.
  intros Hu out.
  destruct verb as [|flag|z|v|l|l|items];
    try (unfold out, check_for_commands; unfold_M; rewrite Hu; reflexivity).
  repeat split.
  - intros E. unfold out.
    rewrite (check_for_commands_served w fuel wait message v params b
               "do_advertise" call_do_advertise Hu)
      by (rewrite getattr_do, E; reflexivity).
    destruct params as [|name [|port [|ip [|x r]]]]; reflexivity.
  - intros E. unfold out.
    rewrite (check_for_commands_served w fuel wait message v params b
               "do_unadvertise" call_do_unadvertise Hu)
      by (rewrite getattr_do, E; reflexivity).
    destruct params as [|name [|port [|ip [|x r]]]]; reflexivity.
  - intros E. unfold out.
    rewrite (check_for_commands_served w fuel wait message v params b
               "do_discover" (call_do_discover w fuel) Hu)
      by (rewrite getattr_do, E; reflexivity).
    destruct params as [|name [|wait_for_secs [|x r]]]; reflexivity.
  - intros H1 H2 H3. exact (unknown_verb w fuel wait _ _ _ b Hu H1 H2 H3).
Qed.

(** C10: a frame whose verb names no method fails before anything is sent:
    the control channel carries no new frame and both tables are what they
    were. *)
Theorem unknown_verb_sends_nothing w fuel wait message verb params b :
  unpack message = Ok (VList (VStr verb :: params)) ->
  lower verb <> u "advertise" ->
  lower verb <> u "unadvertise" ->
  lower verb <> u "discover" ->
  let out := check_for_commands w fuel wait (Message message) b in
  fst (fst out) = Raise NotImplementedError /\
  rpc (snd (fst out)) = rpc b /\
  _services_to_advertise (snd (fst out)) = _services_to_advertise b /\
  _services_found (snd (fst out)) = _services_found b.
Proof.
  intros Hu H1 H2 H3 out. unfold out.
  rewrite (unknown_verb w fuel wait _ _ _ b Hu H1 H2 H3). simpl. auto.
Qed.

(** [ADVERTISE] in capitals is [advertise]: the frame is answered by
    [do_advertise] with the name and the port of the frame, which stores the
    pair and replies the name with two exclamation marks. *)
Lemma check_for_commands_dispatch_witness :
  unpack request_ADVERTISE = Ok (VList [VStr (u "ADVERTISE"); svc; port_9005]) /\
  lower (u "ADVERTISE") = u "advertise" /\
  check_for_commands quiet_world 1 false (Message request_ADVERTISE) Beacon__init__ =
    (Ok tt, mkBeacon [(svc, [port_9005])] [] [wire "'svc!!'"] [],
     [Log DEBUG "Received command %s" [LBytes request_ADVERTISE];
      Log DEBUG "Calling %s with %s" [LMethod "do_advertise"; LVal (VList [svc; port_9005])];
      Log DEBUG "Advertise %s on %s" [LVal svc; LVal port_9005]]).
Proof.
  assert (unpack request_ADVERTISE = Ok (VList [VStr (u "ADVERTISE"); svc; port_9005]))
    as H by (vm_compute; reflexivity).
  assert (lower (u "ADVERTISE") = u "advertise") as E by (vm_compute; reflexivity).
  split; [exact H|]. split; [exact E|].
  rewrite (proj1 (check_for_commands_dispatch quiet_world 1 false request_ADVERTISE
                    (VStr (u "ADVERTISE")) [svc; port_9005] Beacon__init__ H) E).
  vm_compute. reflexivity.
Defined.

(** C7 as written fails: a frame whose verb is the integer 5 does not end
    in the unimplemented condition; [action.lower()] raises
    [AttributeError] before any method is looked up. *)
Lemma integer_verb_raises_attribute_error :
  unpack request_verb_5 = Ok (VList [VInt 5; svc]) /\
  fst (fst (check_for_commands quiet_world 1 false (Message request_verb_5) Beacon__init__))
    = Raise AttributeError /\
  fst (fst (check_for_commands quiet_world 1 false (Message request_verb_5) Beacon__init__))
    <> Raise NotImplementedError.
Proof.
  split; [vm_compute; reflexivity|]. split; [vm_compute; reflexivity|].
  vm_compute. discriminate.
Qed.

(** [subscribe] is no verb of the beacon. *)
Lemma unknown_verb_sends_nothing_witness :
  unpack request_subscribe = Ok (VList [VStr (u "subscribe"); svc]) /\
  lower (u "subscribe") <> u "advertise" /\
  lower (u "subscribe") <> u "unadvertise" /\
  lower (u "subscribe") <> u "discover" /\
  fst (fst (check_for_commands quiet_world 1 false (Message request_subscribe)
                               advertising_svc)) = Raise NotImplementedError /\
  rpc (snd (fst (check_for_commands quiet_world 1 false (Message request_subscribe)
                                    advertising_svc))) = rpc advertising_svc.
Proof.
  assert (unpack request_subscribe = Ok (VList [VStr (u "subscribe"); svc]))
    as H by (vm_compute; reflexivity).
  assert (lower (u "subscribe") <> u "advertise") as H1 by (vm_compute; discriminate).
  assert (lower (u "subscribe") <> u "unadvertise") as H2 by (vm_compute; discriminate).
  assert (lower (u "subscribe") <> u "discover") as H3 by (vm_compute; discriminate).
  repeat (split; [assumption|]).
  pose proof (unknown_verb_sends_nothing quiet_world 1 false request_subscribe
                (u "subscribe") [svc] advertising_svc H H1 H2 H3) as T.
  split; [exact (proj1 T) | exact (proj1 (proj2 T))].
Defined.

(** ** [start_beacon] *)

(** C8: the first call on a process without a beacon starts one, or marks
    the beacon remote when the constructor raises; a call after any call
    changes nothing and does not look at whether the ports are free (it
    logs no attempt), so two calls are one call. *)
Theorem start_beacon_idempotent (first again : bool) (p : process) :
  let p1 := fst (start_beacon first p) in
  (_beacon p = PyNone ->
   _beacon p1 = if first then Started Beacon__init__ else _remote_beacon) /\
  start_beacon again p1 = (p1, []) /\
  fst (start_beacon again (fst (start_beacon first p))) = fst (start_beacon first p).
Proof.
  unfold start_beacon. destruct p as [[| b |] lo ex]; simpl.
  - destruct first; simpl; repeat split; reflexivity.
  - repeat split; try reflexivity. discriminate.
  - repeat split; try reflexivity. discriminate.
Qed.

Lemma start_beacon_idempotent_witness :
  _beacon no_process = PyNone /\
  _beacon (fst (start_beacon false no_process)) = _remote_beacon /\
  start_beacon true (fst (start_beacon false no_process))
    = (fst (start_beacon false no_process), []).
Proof.
  split; [reflexivity|].
  pose proof (start_beacon_idempotent false true no_process) as T.
  split; [exact (proj1 T eq_refl) | exact (proj1 (proj2 T))].
Defined.

(** ** [do_discover] *)

Lemma discover_loop_step w fuel pass name wv t1 b :
  hashable name = true ->
  discover_loop w (S fuel) pass name wv t1 b =
    match dict_find name (_services_found b) with
    | Some (x :: s) => (Ok (Some (x :: s)), b, [])
    | _ =>
        if negb (Qle_bool (time_time w (S pass)) t1)
        then (Ok None, b, [Log WARNING "%s not discovered after %s secs" [LVal name; LVal wv]])
        else discover_loop w fuel (S pass) name wv t1 (other_threads w pass b)
    end.
Proof.
  intros Hn. cbn [discover_loop]. unfold dict_get. unfold_M. rewrite Hn.
  destruct (dict_find name (_services_found b)) as [[|x s]|]; try reflexivity.
  - destruct (negb (Qle_bool (time_time w (S pass)) t1)); [reflexivity|].
    destruct (discover_loop w fuel (S pass) name wv t1 (other_threads w pass b)) as [[o b'] l].
    reflexivity.
  - destruct (negb (Qle_bool (time_time w (S pass)) t1)); [reflexivity|].
    destruct (discover_loop w fuel (S pass) name wv t1 (other_threads w pass b)) as [[o b'] l].
    reflexivity.
Qed.

Lemma do_discover_unfold w fuel name z b :
  do_discover w fuel name (VInt z) b =
    match discover_loop w fuel 0 name (VInt z) (deadline w z) b with
    | (Ok (Some services), b', l) =>
        (random_choice w services, b',
         Log DEBUG "Discover %s waiting for %s secs" [LVal name; LVal (VInt z)] :: l)
    | (Ok None, b', l) =>
        (Ok VNone, b',
         Log DEBUG "Discover %s waiting for %s secs" [LVal name; LVal (VInt z)] :: l)
    | (Raise e, b', l) =>
        (Raise e, b',
         Log DEBUG "Discover %s waiting for %s secs" [LVal name; LVal (VInt z)] :: l)
    | (Unmodelled, b', l) =>
        (Unmodelled, b',
         Log DEBUG "Discover %s waiting for %s secs" [LVal name; LVal (VInt z)] :: l)
    | (Unfinished, b', l) =>
        (Unfinished, b',
         Log DEBUG "Discover %s waiting for %s secs" [LVal name; LVal (VInt z)] :: l)
    end.
Proof.
  unfold do_discover, deadline. unfold_M. simpl.
  destruct (discover_loop w fuel 0 name (VInt z) (time_time w 0 + inject_Z z) b)
    as [[o b'] l].
  destruct o as [[services|]| | |]; simpl; rewrite ?app_nil_r; reflexivity.
Qed.

Lemma bucket_at_empty w k name b :
  bucket_at w k name b = [] ->
  dict_find name (_services_found (state_at w k b)) = None \/
  dict_find name (_services_found (state_at w k b)) = Some [].
Proof.
  unfold bucket_at. destruct (dict_find name (_services_found (state_at w k b))).
  - intros ->. auto.
  - auto.
Qed.

(** Passes that neither find nor time out only use up fuel. *)
Lemma discover_loop_waits w name wv z b0 :
  hashable name = true ->
  forall k pass fuel,
    (forall j, j < k -> still_waiting w name z b0 (pass + j)) ->
    discover_loop w (k + fuel) pass name wv (deadline w z) (state_at w pass b0) =
    discover_loop w fuel (pass + k) name wv (deadline w z) (state_at w (pass + k) b0).
Proof.
  intros Hn. induction k as [|k IH]; intros pass fuel Hw.
  - rewrite Nat.add_0_r. reflexivity.
  - cbn [Nat.add]. rewrite discover_loop_step by exact Hn.
    destruct (Hw 0 (Nat.lt_0_succ k)) as [Hb Ht]. rewrite Nat.add_0_r in Hb, Ht.
    apply Qle_bool_iff in Ht. rewrite Ht. cbn [negb].
    replace (pass + S k) with (S pass + k) by lia.
    change (other_threads w pass (state_at w pass b0)) with (state_at w (S pass) b0).
    rewrite <- IH.
    + destruct (bucket_at_empty _ _ _ _ Hb) as [E|E]; rewrite E; reflexivity.
    + intros j Hj. replace (S pass + j) with (pass + S j) by lia. apply Hw. lia.
Qed.

Lemma random_choice_member w seq :
  randbelow w (List.length seq) < List.length seq ->
  exists e, nth_error seq (randbelow w (List.length seq)) = Some e /\
            In e seq /\ random_choice w seq = Ok e.
Proof.
  intros H. unfold random_choice.
  destruct (nth_error seq (randbelow w (List.length seq))) as [e|] eqn:E.
  - exists e. repeat split. eapply nth_error_In. exact E.
  - apply nth_error_None in E. lia.
Qed.

(** The wait loop of [do_discover], whoever else writes the discovered
    set: while the passes find no endpoint under the name and the deadline
    has not passed, the call has not returned; at the first pass that finds
    a bucket it returns the member that [random.choice] draws; at the first
    pass that finds none with the deadline passed it logs a warning and
    returns [None]. *)
Lemma do_discover_blocks_until w name z b k :
  hashable name = true ->
  (forall j, j < k -> still_waiting w name z b j) ->
  let start := Log DEBUG "Discover %s waiting for %s secs" [LVal name; LVal (VInt z)] in
  do_discover w k name (VInt z) b = (Unfinished, state_at w k b, [start]) /\
  (forall x s fuel,
      dict_find name (_services_found (state_at w k b)) = Some (x :: s) ->
      randbelow w (List.length (x :: s)) < List.length (x :: s) ->
      exists e,
        nth_error (x :: s) (randbelow w (List.length (x :: s))) = Some e /\
        do_discover w (S k + fuel) name (VInt z) b = (Ok e, state_at w k b, [start]) /\
        (Forall is_endpoint (x :: s) -> is_endpoint e /\ forall text, e <> VStr text)) /\
  (forall fuel,
      bucket_at w k name b = [] ->
      (deadline w z < time_time w (S k))%Q ->
      do_discover w (S k + fuel) name (VInt z) b =
        (Ok VNone, state_at w k b,
         [start; Log WARNING "%s not discovered after %s secs" [LVal name; LVal (VInt z)]])).
Proof.
  intros Hn Hw start.
  assert (forall fuel,
             discover_loop w (k + fuel) 0 name (VInt z) (deadline w z) b =
             discover_loop w fuel k name (VInt z) (deadline w z) (state_at w k b)) as Hloop.
  { intros fuel. apply (discover_loop_waits w name (VInt z) z b Hn k 0 fuel). exact Hw. }
  repeat split.
  - rewrite do_discover_unfold. specialize (Hloop 0). rewrite Nat.add_0_r in Hloop.
    rewrite Hloop. reflexivity.
  - intros x s fuel Hf Hr.
    destruct (random_choice_member w (x :: s) Hr) as (e & He & Hin & Hc).
    exists e. split; [exact He|]. split.
    + rewrite do_discover_unfold.
      replace (S k + fuel) with (k + S fuel) by lia.
      rewrite Hloop, discover_loop_step by exact Hn. rewrite Hf, Hc. reflexivity.
    + intros Hall. rewrite Forall_forall in Hall. specialize (Hall e Hin).
      split; [exact Hall|]. destruct Hall as (ip & port & ->). discriminate.
  - intros fuel Hb Ht. rewrite do_discover_unfold.
    replace (S k + fuel) with (k + S fuel) by lia.
    rewrite Hloop, discover_loop_step by exact Hn.
    assert (negb (Qle_bool (time_time w (S k)) (deadline w z)) = true) as Hd.
    { destruct (Qle_bool (time_time w (S k)) (deadline w z)) eqn:E; [|reflexivity].
      apply Qle_bool_iff in E. exfalso. apply (Qlt_not_le _ _ Ht E). }
    rewrite Hd. destruct (bucket_at_empty _ _ _ _ Hb) as [E|E]; rewrite E; reflexivity.
Qed.


(** C1 as written fails: with ["svc"] discovered at 127.0.0.1, port
    ["9005"], [do_discover] returns the pair and the control channel replies
    the two-element sequence, not the text [127.0.0.1:9005]. *)
Lemma discover_returns_pair_not_text :
  fst (fst (do_discover quiet_world 1 svc (VInt 5) discovered_svc)) = Ok localhost_9005 /\
  fst (fst (do_discover quiet_world 1 svc (VInt 5) discovered_svc))
    <> Ok (VStr (u "127.0.0.1:9005")) /\
  rpc (snd (fst (check_for_commands quiet_world 1 false (Message request_discover_5)
                                    discovered_svc)))
    = [wire "['127.0.0.1', '9005']"].
Proof.
  split; [reflexivity|]. split; [discriminate|]. vm_compute. reflexivity.
Qed.


(** ** [check_for_adverts] *)

(** C3, as the code has it: when the first 256 bytes of a datagram do not
    decode, the exception of [unpack] leaves [check_for_adverts]; nothing is
    logged and the instance, the discovered set in it, is what it was. *)
Theorem check_for_adverts_decode_error_propagates payload source b e :
  unpack (firstn beacon_message_size payload) = Raise e ->
  check_for_adverts (Datagram payload source) b = (Raise e, b, []).
Proof.
  intros H. unfold check_for_adverts. unfold_M. rewrite H. reflexivity.
Qed.

(** A datagram cut by the receiver in the middle of a string. *)
Lemma check_for_adverts_decode_error_propagates_witness :
  unpack (firstn beacon_message_size datagram_too_long) = Raise ValueError /\
  check_for_adverts (Datagram datagram_too_long from_peer) advertising_svc =
    (Raise ValueError, advertising_svc, []).
Proof.
  assert (unpack (firstn beacon_message_size datagram_too_long) = Raise ValueError) as H
      by (vm_compute; reflexivity).
  split; [exact H|].
  exact (check_for_adverts_decode_error_propagates datagram_too_long from_peer
           advertising_svc ValueError H).
Defined.

(** C3 as written fails: a datagram that is no JSON text is not logged and
    dropped, its [ValueError] comes out of the receive step. *)
Lemma garbage_datagram_raises :
  check_for_adverts (Datagram datagram_garbage from_peer) advertising_svc =
    (Raise ValueError, advertising_svc, []).
Proof. vm_compute. reflexivity. Qed.

(** A frame that decodes but is no pair fails the same way. *)
Lemma check_for_adverts_not_a_pair payload source b v e :
  unpack (firstn beacon_message_size payload) = Ok v ->
  unpack2 v = Raise e ->
  check_for_adverts (Datagram payload source) b = (Raise e, b, []).
Proof.
  intros H1 H2. unfold check_for_adverts. unfold_M. rewrite H1. simpl. rewrite H2.
  reflexivity.
Qed.

(** ** The discovered set *)

Lemma setdefault_add_members (P : pyval -> Prop) k x d :
  P x ->
  Forall (fun kv : pyval * pyset => Forall P (snd kv)) d ->
  Forall (fun kv : pyval * pyset => Forall P (snd kv)) (fst (setdefault_add k x d)).
Proof.
  intros Hx Hd. unfold setdefault_add. destruct (hashable k); [|exact Hd].
  assert (Forall (fun kv : pyval * pyset => Forall P (snd kv))
                 (match dict_find k d with Some _ => d | None => dict_set k [] d end)) as Hd1.
  { destruct (dict_find k d); [exact Hd|].
    apply (dict_set_Forall (Forall P)); [exact Hd | constructor]. }
  set (d1 := match dict_find k d with Some _ => d | None => dict_set k [] d end) in *.
  assert (Forall P (match dict_find k d1 with Some s => s | None => [] end)) as Hs.
  { destruct (dict_find k d1) as [s|] eqn:E; [|constructor].
    apply dict_find_In in E as (k' & Hin & _). rewrite Forall_forall in Hd1.
    apply (Hd1 _ Hin). }
  unfold set_add. destruct (hashable x); [|exact Hd1]. cbn [fst].
  apply (dict_set_Forall (Forall P)); [exact Hd1|].
  destruct (set_mem x _); [exact Hs | constructor; [exact Hx | exact Hs]].
Qed.

(** [check_for_adverts] stores endpoints only: pairs of the sender's address
    and the port of the frame. *)
Lemma check_for_adverts_keeps_endpoints p b :
  endpoints_only (_services_found b) ->
  endpoints_only (_services_found (snd (fst (check_for_adverts p b)))).
Proof.
  intros Hb. unfold check_for_adverts. destruct p as [|payload [ip sport]]; [exact Hb|].
  unfold_M. destruct (unpack (firstn beacon_message_size payload)) as [v| | |]; try exact Hb.
  cbn [fst snd]. destruct (unpack2 v) as [[service_name service_port]| | |]; try exact Hb.
  cbn [fst snd].
  pose proof (setdefault_add_members is_endpoint service_name
                (VTuple [VStr ip; service_port]) (_services_found b)
                ltac:(eexists _, _; reflexivity) Hb) as H.
  destruct (setdefault_add service_name (VTuple [VStr ip; service_port]) (_services_found b))
    as [d' r]. cbn [fst] in H. destruct r; exact H.
Qed.

(** In a bucket of pairwise different members every endpoint is the choice
    of exactly one draw, so that draws that are equally likely make every
    endpoint equally likely. *)
Lemma one_draw_per_endpoint (s : pyset) e :
  distinct s -> all_hashable s -> In e s ->
  exists i, nth_error s i = Some e /\ forall j, nth_error s j = Some e -> j = i.
Proof.
  intros Hd Hh Hin. pose proof (distinct_NoDup s Hd Hh) as Hn.
  apply In_nth_error in Hin as (i & Hi). exists i. split; [exact Hi|].
  intros j Hj. apply (proj1 (NoDup_nth_error s) Hn).
  - apply nth_error_Some. rewrite Hj. discriminate.
  - rewrite Hi, Hj. reflexivity.
Qed.

(** C6 as written fails: a port that cannot be hashed, as the list of the
    frame [["advertise", "svc", []]] is.  [setdefault] has put the empty
    bucket in the table before [add] raises [TypeError], so from the empty
    advertisement set one [do_advertise] leaves a name with an empty
    bucket; the control channel takes the beacon there. *)
Lemma unhashable_port_leaves_empty_bucket :
  do_advertise svc (VList []) VNone Beacon__init__ =
    (Raise TypeError, mkBeacon [(svc, [])] [] [] [],
     [Log DEBUG "Advertise %s on %s" [LVal svc; LVal (VList [])]]) /\
  In (svc, []) (_services_to_advertise
                  (run_ops [Advertise svc (VList []) VNone] Beacon__init__)) /\
  ~ (forall name ports,
        In (name, ports)
           (_services_to_advertise (run_ops [Advertise svc (VList []) VNone] Beacon__init__)) ->
        ports <> []) /\
  _services_to_advertise
    (snd (fst (check_for_commands quiet_world 1 false (Message request_advertise_list)
                                  Beacon__init__)))
  = [(svc, [])].
Proof.
  split; [reflexivity|]. split; [left; reflexivity|]. split.
  - intros H. apply (H svc []); [left; reflexivity | reflexivity].
  - vm_compute. reflexivity.
Qed.

(** ** The wire format: text *)

Module JsonFacts.
Import Json.
Local Open Scope N_scope.

(** [lia] with the equations of division by a constant. *)
Ltac nlia := zify; Z.to_euclidean_division_equations; lia.

Lemma hexval_hexdigit d : d < 16 -> hexval (hexdigit d) = Some d.
Proof.
  intros H. unfold hexval, hexdigit, is_digit.
  destruct (N.ltb_spec d 10).
  - replace ((48 <=? 48 + d) && (48 + d <=? 57)) with true.
    + f_equal. lia.
    + symmetry. apply andb_true_iff. split; apply N.leb_le; lia.
  - replace ((48 <=? 87 + d) && (87 + d <=? 57)) with false.
    + replace ((97 <=? 87 + d) && (87 + d <=? 102)) with true.
      * f_equal. lia.
      * symmetry. apply andb_true_iff. split; apply N.leb_le; lia.
    + symmetry. apply andb_false_iff. right. apply N.leb_gt. lia.
Qed.

(** The four digits that the encoder writes read back as the number. *)
Lemma hexval4_hex4 n :
  n < 65536 ->
  hexval4 (hexdigit (n / 4096 mod 16)) (hexdigit (n / 256 mod 16))
          (hexdigit (n / 16 mod 16)) (hexdigit (n mod 16)) = Some n.
Proof.
  intros H. unfold hexval4.
  rewrite !hexval_hexdigit by (apply N.mod_lt; lia).
  f_equal. nlia.
Qed.

Lemma lor_disjoint a b : N.land a b = 0 -> N.lor a b = a + b.
Proof.
  intros H. rewrite (N.add_nocarry_lxor _ _ H). symmetry. apply N.lxor_lor. exact H.
Qed.

Lemma land_shiftl_low a k l : l < 2 ^ k -> N.land (N.shiftl a k) l = 0.
Proof.
  intros H. apply N.bits_inj_0. intros i. rewrite N.land_spec.
  destruct (N.lt_ge_cases i k) as [Hi|Hi].
  - rewrite N.shiftl_spec_low by exact Hi. reflexivity.
  - replace (N.testbit l i) with false; [apply andb_false_r|].
    symmetry. destruct (N.eq_dec l 0) as [->|Hl]; [apply N.bits_0|].
    apply N.bits_above_log2. apply N.lt_le_trans with k; [|exact Hi].
    apply N.log2_lt_pow2; lia.
Qed.

Lemma lor_shiftl_low a k l : l < 2 ^ k -> N.lor (N.shiftl a k) l = a * 2 ^ k + l.
Proof.
  intros H. rewrite lor_disjoint by (apply land_shiftl_low; exact H).
  rewrite N.shiftl_mul_pow2. reflexivity.
Qed.

Lemma land_1023 x : N.land x 1023 = x mod 1024.
Proof. change 1023 with (N.ones 10). rewrite N.land_ones. reflexivity. Qed.

Lemma lor_55296 h : h < 1024 -> N.lor 55296 h = 55296 + h.
Proof.
  intros H. change 55296 with (N.shiftl 54 10) at 1.
  rewrite lor_shiftl_low by (simpl; exact H). reflexivity.
Qed.

Lemma lor_56320 l : l < 1024 -> N.lor 56320 l = 56320 + l.
Proof.
  intros H. change 56320 with (N.shiftl 55 10) at 1.
  rewrite lor_shiftl_low by (simpl; exact H). reflexivity.
Qed.

(** The two halves of a character above the basic plane, as the encoder
    computes them. *)
Lemma surrogates_of c :
  65536 <= c < 1114112 ->
  let n := c - 65536 in
  let s1 := N.lor 55296 (N.land (N.shiftr n 10) 1023) in
  let s2 := N.lor 56320 (N.land n 1023) in
  s1 < 65536 /\ s2 < 65536 /\
  is_high_surrogate s1 = true /\ is_low_surrogate s2 = true /\
  join_surrogates s1 s2 = c.
Proof.
  intros Hc n s1 s2.
  assert (s1 = 55296 + (n / 1024) mod 1024) as E1.
  { unfold s1. rewrite land_1023, N.shiftr_div_pow2. change (2 ^ 10) with 1024.
    apply lor_55296. apply N.mod_lt. lia. }
  assert (s2 = 56320 + n mod 1024) as E2.
  { unfold s2. rewrite land_1023. apply lor_56320. apply N.mod_lt. lia. }
  assert (n = c - 65536) as En0 by reflexivity.
  clearbody s1 s2 n.
  assert ((n / 1024) mod 1024 < 1024) as B1 by (apply N.mod_lt; lia).
  assert (n mod 1024 < 1024) as B2 by (apply N.mod_lt; lia).
  unfold is_high_surrogate, is_low_surrogate, join_surrogates.
  rewrite !land_1023, lor_shiftl_low by (simpl; apply N.mod_lt; lia).
  change (2 ^ 10) with 1024. rewrite E1, E2.
  repeat split.
  - lia.
  - lia.
  - apply andb_true_iff. split; apply N.leb_le; clear -B1; nlia.
  - apply andb_true_iff. split; apply N.leb_le; clear -B2; nlia.
  - set (h := (n / 1024) mod 1024) in *. set (l := n mod 1024) in *.
    assert ((55296 + h) mod 1024 = h) as ->.
    { symmetry. apply (N.mod_unique _ _ 54); lia. }
    assert ((56320 + l) mod 1024 = l) as ->.
    { symmetry. apply (N.mod_unique _ _ 55); lia. }
    assert (n < 1048576) as Hn by lia.
    assert (n = h * 1024 + l) as En.
    { unfold h, l. clear -Hn. nlia. }
    lia.
Qed.

Lemma scanstring_u h1 h2 h3 h4 r2 acc :
  scanstring (92 :: 117 :: h1 :: h2 :: h3 :: h4 :: r2) acc =
    match hexval4 h1 h2 h3 h4 with
    | None => Bad
    | Some uni =>
        if is_high_surrogate uni then
          match r2 with
          | b :: e' :: k1 :: k2 :: k3 :: k4 :: r3 =>
              if (b =? 92) && (e' =? 117) then
                match hexval4 k1 k2 k3 k4 with
                | None => Bad
                | Some uni2 =>
                    if is_low_surrogate uni2
                    then scanstring r3 (join_surrogates uni uni2 :: acc)
                    else scanstring r2 (uni :: acc)
                end
              else scanstring r2 (uni :: acc)
          | _ => scanstring r2 (uni :: acc)
          end
        else scanstring r2 (uni :: acc)
    end.
Proof. reflexivity. Qed.

Lemma scanstring_plain c r acc :
  c <> 34 -> c <> 92 -> 31 < c -> scanstring (c :: r) acc = scanstring r (c :: acc).
Proof.
  intros H1 H2 H3. cbn [scanstring].
  destruct (N.eqb_spec c 34); [contradiction|].
  destruct (N.eqb_spec c 92); [contradiction|].
  destruct (N.leb_spec c 31); [lia|]. reflexivity.
Qed.

Lemma scanstring_short e x r acc :
  e <> 117 -> backslash e = Some x ->
  scanstring (92 :: e :: r) acc = scanstring r (x :: acc).
Proof.
  intros H1 H2. cbn [scanstring]. change (92 =? 34) with false. change (92 =? 92) with true.
  cbn [negb]. destruct (N.eqb_spec e 117); [contradiction|]. rewrite H2. reflexivity.
Qed.

(** An escape that is not a high surrogate. *)
Lemma scanstring_uXXXX c r acc :
  c < 65536 -> is_high_surrogate c = false ->
  scanstring (uXXXX c ++ r) acc = scanstring r (c :: acc).
Proof.
  intros Hc Hs. unfold uXXXX, hex4. cbn [app]. rewrite scanstring_u, hexval4_hex4, Hs by exact Hc.
  reflexivity.
Qed.

(** A character above the basic plane: its two escapes are read as one. *)
Lemma scanstring_pair c r acc :
  65536 <= c < 1114112 ->
  scanstring (escape_char c ++ r) acc = scanstring r (c :: acc).
Proof.
  intros Hc.
  destruct (surrogates_of c Hc) as (B1 & B2 & H1 & H2 & J).
  unfold escape_char.
  repeat match goal with
         | |- context [N.eqb c ?k] => destruct (N.eqb_spec c k); [lia|]
         end.
  replace ((32 <=? c) && (c <=? 126)) with false
    by (symmetry; apply andb_false_iff; right; apply N.leb_gt; lia).
  destruct (N.ltb_spec c 65536); [lia|].
  cbv zeta. unfold uXXXX at 1, hex4 at 1. cbn [app].
  rewrite scanstring_u, hexval4_hex4, H1 by exact B1.
  unfold uXXXX, hex4. cbn [app].
  change ((92 =? 92) && (117 =? 117)) with true. cbv iota.
  rewrite hexval4_hex4, H2 by exact B2. rewrite J. reflexivity.
Qed.

(** The four shapes of [escape_char c]. *)
Lemma escape_char_cases c :
  (exists x, escape_char c = [92; x] /\ x <> 117 /\ backslash x = Some c) \/
  (escape_char c = [c] /\ c <> 34 /\ c <> 92 /\ 31 < c <= 126) \/
  (escape_char c = uXXXX c /\ c < 65536) \/
  (65536 <= c /\
   escape_char c =
     uXXXX (N.lor 55296 (N.land (N.shiftr (c - 65536) 10) 1023))
     ++ uXXXX (N.lor 56320 (N.land (c - 65536) 1023))).
Proof.
  unfold escape_char.
  destruct (N.eqb_spec c 34) as [->|H34]; [left; exists 34; repeat split; discriminate|].
  destruct (N.eqb_spec c 92) as [->|H92]; [left; exists 92; repeat split; discriminate|].
  destruct (N.eqb_spec c 10) as [->|H10]; [left; exists 110; repeat split; discriminate|].
  destruct (N.eqb_spec c 13) as [->|H13]; [left; exists 114; repeat split; discriminate|].
  destruct (N.eqb_spec c 9) as [->|H9]; [left; exists 116; repeat split; discriminate|].
  destruct (N.eqb_spec c 8) as [->|H8]; [left; exists 98; repeat split; discriminate|].
  destruct (N.eqb_spec c 12) as [->|H12]; [left; exists 102; repeat split; discriminate|].
  destruct ((32 <=? c) && (c <=? 126)) eqn:E.
  - right; left. apply andb_true_iff in E as [E1 E2]. apply N.leb_le in E1, E2.
    repeat split; try assumption; lia.
  - destruct (N.ltb_spec c 65536).
    + right; right; left. split; [reflexivity | assumption].
    + right; right; right. split; [assumption | reflexivity].
Qed.

Lemma high_not_low c : is_high_surrogate c = true -> is_low_surrogate c = false.
Proof.
  unfold is_high_surrogate, is_low_surrogate. intros H.
  apply andb_true_iff in H as [_ H]. apply N.leb_le in H.
  apply andb_false_iff. left. apply N.leb_gt. lia.
Qed.

(** After a high surrogate escape, a text that does not go on with the
    escape of a low surrogate is read on its own. *)
Lemma scanstring_no_join uni acc tail :
  is_high_surrogate uni = true ->
  (forall k1 k2 k3 k4 r3,
      tail = 92 :: 117 :: k1 :: k2 :: k3 :: k4 :: r3 ->
      exists uni2, hexval4 k1 k2 k3 k4 = Some uni2 /\ is_low_surrogate uni2 = false) ->
  forall h1 h2 h3 h4,
    hexval4 h1 h2 h3 h4 = Some uni ->
    scanstring (92 :: 117 :: h1 :: h2 :: h3 :: h4 :: tail) acc = scanstring tail (uni :: acc).
Proof.
  intros Hh Ht h1 h2 h3 h4 Hx. rewrite scanstring_u, Hx, Hh.
  destruct tail as [|b [|e' [|k1 [|k2 [|k3 [|k4 r3]]]]]]; try reflexivity.
  destruct (N.eqb_spec b 92) as [->|]; [|reflexivity].
  destruct (N.eqb_spec e' 117) as [->|]; [|reflexivity].
  cbn [andb]. destruct (Ht _ _ _ _ _ eq_refl) as (uni2 & -> & ->). reflexivity.
Qed.

(** What follows a character in an encoded text never is the escape of a
    low surrogate, unless the next character is one. *)
Lemma escaped_tail_no_low s rest k1 k2 k3 k4 r3 :
  match s with
  | c2 :: _ => c2 < 1114112 /\ is_low_surrogate c2 = false
  | [] => True
  end ->
  flat_map escape_char s ++ 34 :: rest = 92 :: 117 :: k1 :: k2 :: k3 :: k4 :: r3 ->
  exists uni2, hexval4 k1 k2 k3 k4 = Some uni2 /\ is_low_surrogate uni2 = false.
Proof.
  destruct s as [|c2 s]; [discriminate|].
  intros [Hlt Hlow]. cbn [flat_map]. rewrite <- app_assoc.
  destruct (escape_char_cases c2) as [(x & -> & Hx & _)|[(-> & _ & H92 & _)|[(-> & Hc)|(Hc & ->)]]].
  - cbn [app]. intros E. injection E as E1 E2. congruence.
  - cbn [app]. intros E. injection E as E1 E2. congruence.
  - unfold uXXXX, hex4. cbn [app]. intros E. injection E as <- <- <- <- _.
    exists c2. split; [apply hexval4_hex4; exact Hc | exact Hlow].
  - destruct (surrogates_of c2 (conj Hc Hlt)) as (B1 & _ & H1 & _).
    unfold uXXXX at 1, hex4 at 1. cbn [app]. intros E. injection E as <- <- <- <- _.
    eexists. split; [apply hexval4_hex4; exact B1 | apply high_not_low; exact H1].
Qed.

Lemma text_ok_head c s :
  text_ok (c :: s) ->
  is_high_surrogate c = true ->
  match s with
  | c2 :: _ => c2 < 1114112 /\ is_low_surrogate c2 = false
  | [] => True
  end.
Proof.
  intros (_ & H & Hs) Hh. specialize (H Hh). destruct s as [|c2 s]; [exact I|].
  destruct Hs as (Hc2 & _). split; assumption.
Qed.

(** An encoded text, up to its closing quote, reads back as the text. *)
Lemma scanstring_escape s :
  text_ok s ->
  forall acc rest,
    scanstring (flat_map escape_char s ++ 34 :: rest) acc = Scanned (rev acc ++ s) rest.
Proof.
  induction s as [|c s IH]; intros Hs acc rest.
  - cbn [flat_map app scanstring]. change (34 =? 34) with true. cbv iota.
    rewrite app_nil_r. reflexivity.
  - assert (text_ok s) as Hs' by (destruct Hs as (_ & _ & Hs'); exact Hs').
    assert (c < 1114112) as Hc by (destruct Hs as (Hc & _); exact Hc).
    specialize (IH Hs'). cbn [flat_map]. rewrite <- app_assoc.
    replace (rev acc ++ c :: s) with (rev (c :: acc) ++ s)
      by (cbn [rev]; rewrite <- app_assoc; reflexivity).
    rewrite <- IH.
    destruct (escape_char_cases c) as [(x & -> & Hx & Hb)|[(-> & H34 & H92 & H31)|[(-> & Hlt)|(Hge & E)]]].
    + cbn [app]. apply scanstring_short; assumption.
    + cbn [app]. apply scanstring_plain; [assumption | assumption | lia].
    + destruct (is_high_surrogate c) eqn:Hh.
      * unfold uXXXX, hex4. cbn [app].
        apply scanstring_no_join; [exact Hh | | apply hexval4_hex4; exact Hlt].
        intros k1 k2 k3 k4 r3. apply escaped_tail_no_low.
        apply (text_ok_head c s Hs Hh).
      * apply scanstring_uXXXX; assumption.
    + apply scanstring_pair. split; assumption.
Qed.

(** ['"' + escaped + '"'] reads back. *)
Lemma scanstring_basestring s rest :
  text_ok s ->
  exists t, encode_basestring_ascii s = 34 :: t /\ scanstring (t ++ rest) [] = Scanned s rest.
Proof.
  intros Hs. exists (flat_map escape_char s ++ [34]). split; [reflexivity|].
  rewrite <- app_assoc. cbn [app]. apply (scanstring_escape s Hs [] rest).
Qed.

(** *** Integers *)

Lemma digits_from_app f : forall n acc, digits_from f n acc = digits_from f n [] ++ acc.
Proof.
  induction f as [|f IH]; intros n acc; cbn [digits_from]; [reflexivity|].
  destruct (n <? 10); [reflexivity|].
  rewrite (IH (n / 10) (_ :: acc)), (IH (n / 10) [_]). rewrite <- app_assoc. reflexivity.
Qed.

Lemma is_digit_char d : d < 10 -> is_digit (48 + d) = true.
Proof.
  intros H. unfold is_digit. apply andb_true_iff. split; apply N.leb_le; lia.
Qed.

Lemma scan_digits_app ds : 
  Forall (fun c => is_digit c = true) ds ->
  forall rest acc,
    scan_digits (ds ++ rest) acc =
      scan_digits rest (fold_left (fun a c => a * 10 + (c - 48)) ds acc).
Proof.
  induction 1 as [|c ds Hc Hds IH]; intros rest acc; cbn [app fold_left scan_digits].
  - reflexivity.
  - rewrite Hc. apply IH.
Qed.

(** The digits of [n], given fuel for its size: all digits, their value
    is [n], and the first is no zero unless [n] is zero. *)
Lemma digits_from_spec f :
  forall n, n < 2 ^ N.of_nat f ->
    Forall (fun c => is_digit c = true) (digits_from f n []) /\
    fold_left (fun a c => a * 10 + (c - 48)) (digits_from f n []) 0 = n /\
    (0 < n -> exists c r, digits_from f n [] = c :: r /\ c <> 48 /\ is_digit c = true).
Proof.
  induction f as [|f IH]; intros n Hn.
  - cbn in Hn. assert (n = 0) as -> by lia. repeat split; [constructor | lia].
  - cbn [digits_from]. destruct (N.ltb_spec n 10) as [Hlt|Hge].
    + rewrite N.mod_small by exact Hlt. repeat split.
      * repeat constructor. apply is_digit_char. exact Hlt.
      * cbn [fold_left]. lia.
      * intros Hpos. exists (48 + n), []. repeat split; [lia | apply is_digit_char; exact Hlt].
    + rewrite digits_from_app.
      assert (n / 10 < 2 ^ N.of_nat f) as Hq.
      { rewrite Nat2N.inj_succ, N.pow_succ_r' in Hn. clear -Hn Hge. nlia. }
      destruct (IH (n / 10) Hq) as (Hd & Hv & Hh).
      assert (n mod 10 < 10) as Hm by (apply N.mod_lt; lia).
      repeat split.
      * apply Forall_app. split; [exact Hd|]. repeat constructor.
        apply is_digit_char. exact Hm.
      * rewrite fold_left_app, Hv. cbn [fold_left]. clear -Hm. nlia.
      * intros _. destruct Hh as (c & r & E & Hc & Hdc); [clear -Hge; nlia|].
        rewrite E. exists c, (r ++ [48 + n mod 10]). repeat split; assumption.
Qed.

Lemma decimal_fuel n : n < 2 ^ N.of_nat (S (N.to_nat (N.log2 n))).
Proof.
  rewrite Nat2N.inj_succ, N2Nat.id.
  destruct (N.eq_dec n 0) as [->|H]; [reflexivity|].
  apply N.log2_spec. lia.
Qed.

Lemma scan_digits_stop rest acc :
  match rest with
  | c :: _ => is_digit c = false
  | [] => True
  end -> scan_digits rest acc = (acc, rest).
Proof. destruct rest as [|c r]; cbn [scan_digits]; [reflexivity|]. intros ->. reflexivity. Qed.

(** The decimal digits of [n] read back as [n]. *)
Lemma match_integer_decimal n rest :
  ends_number rest -> match_integer (decimal n ++ rest) = Some (n, rest).
Proof.
  intros [_ Hr]. unfold decimal.
  destruct (digits_from_spec _ n (decimal_fuel n)) as (Hd & Hv & Hh).
  destruct (N.eq_dec n 0) as [->|Hn].
  - reflexivity.
  - destruct Hh as (c & r & E & Hc & Hdc); [lia|].
    rewrite E in *. cbn [app match_integer].
    destruct (N.eqb_spec c 48); [contradiction|]. rewrite Hdc. f_equal.
    apply Forall_inv_tail in Hd. rewrite scan_digits_app by exact Hd.
    cbn [fold_left] in Hv. rewrite N.mul_0_l, N.add_0_l in Hv.
    rewrite Hv. apply scan_digits_stop. exact Hr.
Qed.

Lemma decimal_head n :
  exists c r, decimal n = c :: r /\ is_digit c = true.
Proof.
  unfold decimal.
  destruct (digits_from_spec _ n (decimal_fuel n)) as (Hd & Hv & Hh).
  destruct (N.eq_dec n 0) as [->|Hn].
  - exists 48, []. split; reflexivity.
  - destruct Hh as (c & r & E & Hc & Hdc); [lia|]. exists c, r. auto.
Qed.

(** [repr] of an integer reads back as the integer. *)
Lemma match_number_int_repr z rest :
  ends_number rest -> match_number (int_repr z ++ rest) = Scanned z rest.
Proof.
  intros Hr. unfold int_repr. destruct z as [|p|p].
  - cbn [Z.to_N]. change (decimal 0) with [48]. cbn [app match_number match_integer].
    change (48 =? 45) with false. change (48 =? 48) with true. cbv iota.
    destruct Hr as [-> _]. reflexivity.
  - cbn [Z.to_N]. destruct (decimal_head (N.pos p)) as (c & r & E & Hc).
    pose proof (match_integer_decimal (N.pos p) rest Hr) as M.
    rewrite E in *. cbn [app] in *. cbn [match_number].
    destruct (N.eqb_spec c 45) as [->|_]; [discriminate Hc|].
    rewrite M. destruct Hr as [-> _]. reflexivity.
  - cbn [app match_number]. change (45 =? 45) with true. cbv iota.
    rewrite (match_integer_decimal (N.pos p) rest Hr). destruct Hr as [-> _]. reflexivity.
Qed.

Lemma int_repr_head z :
  exists c r, int_repr z = c :: r /\ (c = 45 \/ is_digit c = true).
Proof.
  unfold int_repr. destruct z as [|p|p].
  - destruct (decimal_head (Z.to_N 0)) as (c & r & E & H). exists c, r. auto.
  - destruct (decimal_head (Z.to_N (Z.pos p))) as (c & r & E & H). exists c, r. auto.
  - eexists _, _. split; [reflexivity | left; reflexivity].
Qed.


(** *** Values *)

Lemma value_start_not_ws c : value_start c -> is_ws c = false /\ c <> 93 /\ c <> 125.
Proof.
  unfold value_start, is_ws. intros H.
  repeat split; try lia.
  repeat (apply orb_false_iff; split); apply N.eqb_neq; lia.
Qed.

Lemma skip_ws_start c r : value_start c -> skip_ws (c :: r) = c :: r.
Proof.
  intros H. cbn [skip_ws]. destruct (value_start_not_ws c H) as (-> & _). reflexivity.
Qed.

Lemma skip_ws_delimiter c r : c = 44 \/ c = 93 \/ c = 125 \/ c = 58 -> skip_ws (c :: r) = c :: r.
Proof. intros [->|[->|[->| ->]]]; reflexivity. Qed.

Lemma delimited_ends_number rest : delimited rest -> ends_number rest.
Proof.
  destruct rest as [|c r]; [split; [reflexivity | exact I]|].
  intros [->|[->| ->]]; split; try reflexivity; destruct r; reflexivity.
Qed.

Lemma dumps_list l :
  dumps (VList l) =
    obind (join dumps (u ", ") l) (fun body => Ok (91 :: body ++ [93])).
Proof. reflexivity. Qed.

Lemma dumps_dict items :
  dumps (VDict items) =
    obind (join item_text (u ", ") items) (fun body => Ok (123 :: body ++ [125])).
Proof. reflexivity. Qed.

(** An encoded value starts with a character that starts a value. *)
Lemma dumps_head v t :
  dumps v = Ok t -> exists c t', t = c :: t' /\ value_start c.
Proof.
  unfold value_start. destruct v as [|[|]|z|s|l|l|items].
  - intros E. injection E as <-. exists 110, [117; 108; 108]. split; [reflexivity | lia].
  - intros E. injection E as <-. exists 116, [114; 117; 101]. split; [reflexivity | lia].
  - intros E. injection E as <-. exists 102, [97; 108; 115; 101]. split; [reflexivity | lia].
  - intros E. injection E as <-. destruct (int_repr_head z) as (c & r & -> & [->|H]).
    + eexists _, _. split; [reflexivity | lia].
    + eexists _, _. split; [reflexivity|]. unfold is_digit in H.
      apply andb_true_iff in H as [H1 H2]. apply N.leb_le in H1, H2. lia.
  - intros E. injection E as <-. eexists _, _. split; [reflexivity | lia].
  - rewrite dumps_list. destruct (join dumps (u ", ") l); try discriminate.
    intros E. injection E as <-. eexists _, _. split; [reflexivity | lia].
  - change (dumps (VTuple l)) with (dumps (VList l)). rewrite dumps_list.
    destruct (join dumps (u ", ") l); try discriminate.
    intros E. injection E as <-. eexists _, _. split; [reflexivity | lia].
  - rewrite dumps_dict. destruct (join item_text (u ", ") items); try discriminate.
    intros E. injection E as <-. eexists _, _. split; [reflexivity | lia].
Qed.

Lemma scan_once_string f r :
  scan_once (S f) (34 :: r) = sbind (scanstring r []) (fun t r' => Scanned (VStr t) r').
Proof. reflexivity. Qed.

Lemma scan_once_array f r :
  scan_once (S f) (91 :: r) =
    match skip_ws r with
    | c' :: r' => if c' =? 93 then Scanned (VList []) r' else array_loop f (c' :: r') []
    | [] => Bad
    end.
Proof. reflexivity. Qed.

Lemma scan_once_object f r :
  scan_once (S f) (123 :: r) =
    match skip_ws r with
    | c' :: r' =>
        if c' =? 125 then Scanned (VDict []) r'
        else if c' =? 34 then object_loop f r' []
        else Bad
    | [] => Bad
    end.
Proof. reflexivity. Qed.

Lemma array_loop_step f s acc :
  array_loop (S f) s acc =
    sbind (scan_once f s) (fun v r =>
      match skip_ws r with
      | c :: r' =>
          if c =? 93 then Scanned (VList (rev (v :: acc))) r'
          else if c =? 44 then array_loop f (skip_ws r') (v :: acc)
          else Bad
      | [] => Bad
      end).
Proof. reflexivity. Qed.

Lemma object_loop_step f s acc :
  object_loop (S f) s acc =
    sbind (scanstring s []) (fun key r =>
      match skip_ws r with
      | c :: r1 =>
          if c =? 58 then
            sbind (scan_once f (skip_ws r1)) (fun v r2 =>
              match skip_ws r2 with
              | c' :: r3 =>
                  if c' =? 125
                  then Scanned (VDict (dict_of_pairs (rev ((key, v) :: acc)))) r3
                  else if c' =? 44 then
                    match skip_ws r3 with
                    | q :: r4 =>
                        if q =? 34 then object_loop f r4 ((key, v) :: acc) else Bad
                    | [] => Bad
                    end
                  else Bad
              | [] => Bad
              end)
          else Bad
      | [] => Bad
      end).
Proof. reflexivity. Qed.

(** A number is scanned as a number. *)
Lemma scan_once_number f c r z rest :
  c = 45 \/ is_digit c = true ->
  match_number (c :: r) = Scanned z rest ->
  scan_once (S f) (c :: r) = Scanned (VInt z) rest.
Proof.
  intros Hc Hm.
  assert (c <> 34 /\ c <> 123 /\ c <> 91 /\ c <> 110 /\ c <> 116 /\ c <> 102) as H.
  { destruct Hc as [->|Hc]; [repeat split; discriminate|].
    unfold is_digit in Hc. apply andb_true_iff in Hc as [H1 H2].
    apply N.leb_le in H1, H2. repeat split; lia. }
  destruct H as (H1 & H2 & H3 & H4 & H5 & H6).
  cbn [scan_once].
  destruct (N.eqb_spec c 34); [contradiction|].
  destruct (N.eqb_spec c 123); [contradiction|].
  destruct (N.eqb_spec c 91); [contradiction|].
  change (u "null") with [110; 117; 108; 108].
  change (u "true") with [116; 114; 117; 101].
  change (u "false") with [102; 97; 108; 115; 101].
  cbn [starts_with].
  destruct (N.eqb_spec 110 c); [congruence|].
  destruct (N.eqb_spec 116 c); [congruence|].
  destruct (N.eqb_spec 102 c); [congruence|].
  rewrite Hm. reflexivity.
Qed.


Lemma join_cons {A} (f : A -> outcome pystr) sep x r :
  join f sep (x :: r) =
    obind (f x) (fun a =>
      match r with
      | [] => Ok a
      | _ :: _ => obind (join f sep r) (fun b => Ok (a ++ sep ++ b))
      end).
Proof. reflexivity. Qed.

(** The loop of [JSONArray] reads the elements of a list back. *)
Lemma array_loop_reads l :
  l <> [] ->
  Forall reads_back l ->
  forall fuel acc rest,
    (list_sum (map size l) < fuel)%nat ->
    exists body,
      join dumps (u ", ") l = Ok body /\
      (exists c body', body = c :: body' /\ value_start c) /\
      array_loop fuel (body ++ 93 :: rest) acc = Scanned (VList (rev acc ++ l)) rest.
Proof.
  induction l as [|x l IH]; [congruence|]. intros _ Hall fuel acc rest Hfuel.
  inversion Hall as [|? ? Hx Hl]; subst.
  destruct fuel as [|f]; [lia|]. cbn [map list_sum fold_right] in Hfuel.
  destruct l as [|y l'].
  - destruct (Hx f (93 :: rest)) as (t & Ht & Hs);
      [cbn [map list_sum fold_right] in Hfuel; lia | right; left; reflexivity |].
    exists t. rewrite join_cons, Ht. cbn [obind]. split; [reflexivity|].
    split; [apply (dumps_head x t Ht)|].
    rewrite array_loop_step, Hs. cbn [sbind skip_ws is_ws N.eqb Pos.eqb orb].
    reflexivity.
  - destruct (IH ltac:(discriminate) Hl f (x :: acc) rest) as (body & Hb & (c & body' & -> & Hc) & Hloop).
    { assert (1 <= size x)%nat by (destruct x; cbn; lia). unfold list_sum. lia. }
    destruct (Hx f (44 :: 32 :: (c :: body') ++ 93 :: rest)) as (t & Ht & Hs);
      [unfold list_sum in *; lia | left; reflexivity |].
    exists (t ++ u ", " ++ c :: body'). rewrite join_cons, Ht. cbn [obind].
    rewrite Hb. cbn [obind]. split; [reflexivity|].
    split.
    { destruct (dumps_head x t Ht) as (c0 & t0 & -> & Hc0). exists c0, (t0 ++ u ", " ++ c :: body').
      split; [reflexivity | exact Hc0]. }
    rewrite <- !app_assoc. change (u ", " ++ (c :: body') ++ 93 :: rest)
      with (44 :: 32 :: (c :: body') ++ 93 :: rest).
    rewrite array_loop_step, Hs. cbn [sbind].
    rewrite skip_ws_delimiter by (left; reflexivity).
    change (44 =? 93) with false. change (44 =? 44) with true. cbv iota.
    change (skip_ws (32 :: (c :: body') ++ 93 :: rest)) with (skip_ws ((c :: body') ++ 93 :: rest)).
    cbn [app]. rewrite skip_ws_start by exact Hc.
    cbn [app] in Hloop. rewrite Hloop. cbn [rev]. rewrite <- app_assoc. reflexivity.
Qed.

Lemma item_text_str k x xt :
  dumps x = Ok xt ->
  item_text (VStr k, x) = Ok (34 :: flat_map escape_char k ++ 34 :: 58 :: 32 :: xt).
Proof.
  intros H. unfold item_text, key_text. cbn [obind]. rewrite H. cbn [obind].
  unfold encode_basestring_ascii. cbn [app]. rewrite <- app_assoc. reflexivity.
Qed.

(** The loop of [JSONObject] reads the items of a dict back, as pairs. *)
Lemma object_loop_reads items :
  items <> [] ->
  Forall (fun kv => exists k, fst kv = VStr k /\ text_ok k /\ reads_back (snd kv)) items ->
  forall fuel acc rest,
    (list_sum (map (fun kv : pyval * pyval => size (snd kv)) items) < fuel)%nat ->
    exists body',
      join item_text (u ", ") items = Ok (34 :: body') /\
      object_loop fuel (body' ++ 125 :: rest) acc =
        Scanned (VDict (dict_of_pairs (rev acc ++ map to_pair items))) rest.
Proof.
  induction items as [|[k0 x] items IH]; [congruence|]. intros _ Hall fuel acc rest Hfuel.
  inversion Hall as [|? ? Hx Hl]; subst.
  destruct Hx as (k & Hk & Hkt & Hx). cbn [fst snd] in Hk, Hx. subst k0.
  destruct fuel as [|f]; [lia|]. cbn [map list_sum fold_right snd] in Hfuel.
  assert (1 <= size x)%nat as Hsz by (destruct x; cbn; lia).
  destruct items as [|kv items'].
  - destruct (Hx f (125 :: rest)) as (xt & Ht & Hs);
      [cbn [map list_sum fold_right] in Hfuel; lia | right; right; reflexivity |].
    destruct (dumps_head x xt Ht) as (c & xt' & -> & Hc).
    eexists. rewrite join_cons, (item_text_str k x _ Ht). cbn [obind].
    split; [reflexivity|].
    rewrite <- app_assoc. cbn [app].
    rewrite object_loop_step, scanstring_escape by exact Hkt. cbn [sbind rev app].
    rewrite skip_ws_delimiter by (right; right; right; reflexivity).
    change (58 =? 58) with true. cbv iota.
    change (skip_ws (32 :: c :: xt' ++ 125 :: rest)) with (skip_ws (c :: xt' ++ 125 :: rest)).
    rewrite skip_ws_start by exact Hc.
    cbn [app] in Hs. rewrite Hs. cbn [sbind].
    rewrite skip_ws_delimiter by (right; right; left; reflexivity).
    change (125 =? 125) with true. cbv iota. reflexivity.
  - destruct (IH ltac:(discriminate) Hl f ((k, x) :: acc) rest) as (body & Hb & Hloop).
    { unfold list_sum. lia. }
    destruct (Hx f (44 :: 32 :: 34 :: body ++ 125 :: rest)) as (xt & Ht & Hs);
      [unfold list_sum in *; lia | left; reflexivity |].
    destruct (dumps_head x xt Ht) as (c & xt' & -> & Hc).
    eexists. rewrite join_cons, (item_text_str k x _ Ht). cbn [obind].
    rewrite Hb. cbn [obind app].
    split; [reflexivity|].
    rewrite <- ?app_assoc. cbn [app]. rewrite <- ?app_assoc.
    change (u ", " ++ 34 :: body ++ 125 :: rest) with (44 :: 32 :: 34 :: body ++ 125 :: rest).
    rewrite object_loop_step, scanstring_escape by exact Hkt. cbn [sbind rev app].
    rewrite skip_ws_delimiter by (right; right; right; reflexivity).
    change (58 =? 58) with true. cbv iota.
    match goal with
    | |- context [skip_ws (32 :: ?s)] => change (skip_ws (32 :: s)) with (skip_ws s)
    end.
    rewrite skip_ws_start by exact Hc.
    cbn [app] in Hs. rewrite Hs. cbn [sbind].
    rewrite skip_ws_delimiter by (left; reflexivity).
    change (44 =? 125) with false. change (44 =? 44) with true. cbv iota.
    change (skip_ws (32 :: 34 :: body ++ 125 :: rest)) with (34 :: body ++ 125 :: rest).
    change (34 =? 34) with true. cbv iota.
    rewrite Hloop. cbn [rev map]. rewrite <- app_assoc. reflexivity.
Qed.

(** Pairs under different keys make the dict of these items, in order. *)
Lemma dict_of_pairs_distinct pairs :
  NoDup (map fst pairs) ->
  dict_of_pairs pairs = map (fun p : pystr * pyval => (VStr (fst p), snd p)) pairs.
Proof.
  unfold dict_of_pairs.
  assert (forall d : list (pyval * pyval),
             (forall p, In p pairs -> forall kv, In kv d -> fst kv <> VStr (fst p)) ->
             NoDup (map fst pairs) ->
             fold_left (fun d kv => dict_set (VStr (fst kv)) (snd kv) d) pairs d =
             d ++ map (fun p : pystr * pyval => (VStr (fst p), snd p)) pairs) as G.
  { induction pairs as [|[k x] pairs IH]; intros d Hd Hn; cbn [fold_left map fst snd].
    - rewrite app_nil_r. reflexivity.
    - assert (dict_set (VStr k) x d = d ++ [(VStr k, x)]) as ->.
      { assert (forall kv, In kv d -> fst kv <> VStr k) as Hk
            by (intros kv; apply (Hd (k, x)); left; reflexivity).
        clear -Hk. induction d as [|[k' x'] d IHd]; [reflexivity|].
        cbn [dict_set app].
        destruct (py_eq (VStr k) k') eqn:E.
        - apply py_eq_str in E. exfalso. apply (Hk (k', x')); [left; reflexivity | exact E].
        - rewrite IHd; [reflexivity|]. intros kv Hin. apply Hk. right. exact Hin. }
      inversion Hn as [|? ? Hnot Hn']; subst.
      rewrite IH; [rewrite <- app_assoc; reflexivity | | exact Hn'].
      intros p Hp kv Hin. apply in_app_or in Hin as [Hin|[<-|[]]].
      + apply (Hd p); [right; exact Hp | exact Hin].
      + cbn [fst]. intros E. injection E as E. apply Hnot. rewrite E.
        apply in_map. exact Hp. }
  intros Hn. rewrite (G [] ltac:(intros ? ? ? []) Hn). reflexivity.
Qed.

Lemma native_list l : native (VList l) <-> Forall native l.
Proof.
  induction l as [|x l IH]; cbn [native]; split; intros H.
  - constructor.
  - exact I.
  - destruct H as [Hx Hl]. constructor; [exact Hx | apply IH; exact Hl].
  - inversion H; subst. split; [assumption | apply IH; assumption].
Qed.

Lemma native_dict items :
  native (VDict items) <->
  Forall (fun kv => exists k, fst kv = VStr k /\ text_ok k /\ native (snd kv)) items /\
  NoDup (map fst items).
Proof.
  cbn [native]. apply and_iff_compat_r.
  induction items as [|[k x] items IH]; split; intros H.
  - constructor.
  - exact I.
  - destruct H as (Hk & Hx & Hl). constructor; [|apply IH; exact Hl].
    destruct k; try contradiction. eexists. cbn [fst snd]. eauto.
  - inversion H as [|? ? (k' & Ek & Hk & Hx) Hl]; subst. cbn [fst snd] in *. subst k.
    repeat split; [assumption | assumption | apply IH; assumption].
Qed.

Lemma keys_are_text items :
  Forall (fun kv : pyval * pyval => exists k, fst kv = VStr k) items ->
  map (fun p : pystr * pyval => (VStr (fst p), snd p)) (map to_pair items) = items /\
  map VStr (map fst (map to_pair items)) = map fst items.
Proof.
  induction 1 as [|[k x] items (k' & Hk) Hl [IH1 IH2]]; [split; reflexivity|].
  cbn [fst] in Hk. subst k. cbn [map to_pair fst snd]. rewrite IH1, IH2. split; reflexivity.
Qed.

(** The core of the round trip: the encoding of a native value, whatever
    delimiter follows it, scans back as the value. *)
Theorem native_reads_back v : native v -> reads_back v.
Proof.
  induction v as [| b | z | s | l IH | l IH | items IH] using pyval_rect';
    intros Hn fuel rest Hfuel Hrest.
  - destruct fuel as [|f]; [cbn in Hfuel; lia|]. eexists. split; reflexivity.
  - destruct fuel as [|f]; [cbn in Hfuel; lia|]. destruct b; eexists; split; reflexivity.
  - destruct fuel as [|f]; [cbn in Hfuel; lia|]. eexists. split; [reflexivity|].
    pose proof (match_number_int_repr z rest (delimited_ends_number rest Hrest)) as Hm.
    destruct (int_repr_head z) as (c & r & E & Hc). rewrite E in *. cbn [app] in *.
    apply scan_once_number; assumption.
  - destruct fuel as [|f]; [cbn in Hfuel; lia|]. eexists. split; [reflexivity|].
    unfold encode_basestring_ascii. cbn [app]. rewrite scan_once_string.
    rewrite <- app_assoc. cbn [app]. rewrite scanstring_escape by exact Hn. reflexivity.
  - apply native_list in Hn. rewrite dumps_list.
    destruct fuel as [|f]; [cbn in Hfuel; lia|]. cbn [size] in Hfuel.
    destruct l as [|x l].
    + eexists. split; reflexivity.
    + assert (Forall reads_back (x :: l)) as Hall.
      { rewrite Forall_forall in *. intros y Hy. apply IH; [exact Hy | apply Hn; exact Hy]. }
      destruct (array_loop_reads (x :: l) ltac:(discriminate) Hall f [] rest)
        as (body & Hb & (c & body' & -> & Hc) & Hloop); [lia|].
      rewrite Hb. cbn [obind]. eexists. split; [reflexivity|].
      cbn [app]. rewrite <- app_assoc. cbn [app]. rewrite scan_once_array.
      rewrite skip_ws_start by exact Hc.
      destruct (value_start_not_ws c Hc) as (_ & H93 & _).
      destruct (N.eqb_spec c 93); [contradiction|]. exact Hloop.
  - contradiction.
  - apply native_dict in Hn as [Hn Hnd]. rewrite dumps_dict.
    destruct fuel as [|f]; [cbn in Hfuel; lia|]. cbn [size] in Hfuel.
    destruct items as [|kv items].
    + eexists. split; reflexivity.
    + assert (Forall (fun kv => exists k, fst kv = VStr k /\ text_ok k /\ reads_back (snd kv))
                     (kv :: items)) as Hall.
      { rewrite Forall_forall in *. intros y Hy. destruct (Hn y Hy) as (k & Hk & Hkt & Hx).
        exists k. repeat split; [exact Hk | exact Hkt |]. apply (proj2 (IH y Hy)). exact Hx. }
      destruct (object_loop_reads (kv :: items) ltac:(discriminate) Hall f [] rest)
        as (body & Hb & Hloop); [lia|].
      rewrite Hb. cbn [obind]. eexists. split; [reflexivity|].
      cbn [app]. rewrite <- app_assoc. cbn [app]. rewrite scan_once_object.
      change (skip_ws (34 :: body ++ 125 :: rest)) with (34 :: body ++ 125 :: rest).
      change (34 =? 125) with false. change (34 =? 34) with true. cbv iota.
      rewrite Hloop. cbn [rev app].
      assert (Forall (fun kv : pyval * pyval => exists k, fst kv = VStr k) (kv :: items)) as Hk.
      { rewrite Forall_forall in *. intros y Hy. destruct (Hn y Hy) as (k & Hk & _). eauto. }
      destruct (keys_are_text _ Hk) as [K1 K2].
      rewrite dict_of_pairs_distinct, K1; [reflexivity|].
      apply (NoDup_map_inv VStr). rewrite K2. exact Hnd.
Qed.

(** *** The size and the alphabet of an encoding *)

Lemma join_length {A} (f : A -> outcome pystr) (g : A -> nat) sep l :
  Forall (fun x => forall t, f x = Ok t -> (g x <= List.length t)%nat) l ->
  forall body, join f sep l = Ok body -> (list_sum (map g l) <= List.length body)%nat.
Proof.
  induction 1 as [|x l Hx Hl IH]; intros body.
  - intros E. injection E as <-. cbn. lia.
  - rewrite join_cons. destruct (f x) as [a| | |] eqn:Ea; try discriminate.
    specialize (Hx a eq_refl). cbn [obind map list_sum fold_right].
    destruct l as [|y l'].
    + intros E. injection E as <-. cbn. lia.
    + destruct (join f sep (y :: l')) as [b| | |] eqn:Eb; try discriminate.
      specialize (IH b eq_refl). intros E. injection E as <-.
      rewrite !length_app. unfold list_sum in IH. lia.
Qed.

(** An encoding is at least as long as the scanner needs fuel, less two. *)
Lemma dumps_length v : forall t, dumps v = Ok t -> (size v <= List.length t)%nat.
Proof.
  induction v as [| b | z | s | l IH | l IH | items IH] using pyval_rect'; intros t.
  - intros E. injection E as <-. cbn. lia.
  - intros E. destruct b; injection E as <-; cbn; lia.
  - intros E. injection E as <-. destruct (int_repr_head z) as (c & r & -> & _). cbn. lia.
  - intros E. injection E as <-. cbn. lia.
  - rewrite dumps_list. destruct (join dumps (u ", ") l) as [body| | |] eqn:E; try discriminate.
    intros E'. injection E' as <-. pose proof (join_length dumps size (u ", ") l IH body E).
    cbn [size List.length]. rewrite length_app. cbn [List.length]. lia.
  - change (dumps (VTuple l)) with (dumps (VList l)). rewrite dumps_list.
    destruct (join dumps (u ", ") l) as [body| | |] eqn:E; try discriminate.
    intros E'. injection E' as <-. pose proof (join_length dumps size (u ", ") l IH body E).
    cbn [size List.length]. rewrite length_app. cbn [List.length]. lia.
  - rewrite dumps_dict.
    destruct (join item_text (u ", ") items) as [body| | |] eqn:E; try discriminate.
    intros E'. injection E' as <-.
    assert (Forall (fun kv => forall t, item_text kv = Ok t ->
                                        (size (snd kv) <= List.length t)%nat) items) as H.
    { rewrite Forall_forall in *. intros [k x] Hin t. unfold item_text.
      destruct (key_text k) as [kt| | |]; try discriminate. cbn [obind].
      destruct (dumps x) as [xt| | |] eqn:Ex; try discriminate. cbn [obind].
      intros E'. injection E' as <-. pose proof (proj2 (IH _ Hin) xt Ex) as Hs.
      cbn [snd List.length] in *. rewrite !length_app. cbn [List.length]. lia. }
    pose proof (join_length item_text (fun kv => size (snd kv)) (u ", ") items H body E).
    cbn [size List.length]. rewrite length_app. cbn [List.length]. lia.
Qed.

Lemma is_ascii_app a b : is_ascii a -> is_ascii b -> is_ascii (a ++ b).
Proof. intros Ha Hb. apply Forall_app. split; assumption. Qed.

Lemma join_ascii {A} (f : A -> outcome pystr) sep l :
  is_ascii sep ->
  Forall (fun x => forall t, f x = Ok t -> is_ascii t) l ->
  forall body, join f sep l = Ok body -> is_ascii body.
Proof.
  intros Hsep. induction 1 as [|x l Hx Hl IH]; intros body.
  - intros E. injection E as <-. constructor.
  - rewrite join_cons. destruct (f x) as [a| | |] eqn:Ea; try discriminate.
    specialize (Hx a eq_refl). cbn [obind].
    destruct l as [|y l'].
    + intros E. injection E as <-. exact Hx.
    + destruct (join f sep (y :: l')) as [b| | |] eqn:Eb; try discriminate.
      specialize (IH b eq_refl). intros E. injection E as <-.
      repeat apply is_ascii_app; assumption.
Qed.

Lemma hexdigit_ascii d : d < 16 -> hexdigit d < 128.
Proof. intros H. unfold hexdigit. destruct (d <? 10); lia. Qed.

Lemma uXXXX_ascii n : is_ascii (uXXXX n).
Proof.
  unfold uXXXX, hex4. repeat constructor; try lia;
    apply hexdigit_ascii; apply N.mod_lt; lia.
Qed.

Lemma backslash_ascii x c : backslash x = Some c -> x < 128.
Proof.
  unfold backslash.
  repeat match goal with
         | |- context [N.eqb x ?k] => destruct (N.eqb_spec x k); [lia|]
         end.
  discriminate.
Qed.

Lemma escape_char_ascii c : is_ascii (escape_char c).
Proof.
  destruct (escape_char_cases c) as [(x & -> & _ & Hb)|[(-> & _ & _ & H)|[(-> & _)|(_ & ->)]]].
  - constructor; [lia|]. constructor; [apply (backslash_ascii x c Hb) | constructor].
  - constructor; [lia | constructor].
  - apply uXXXX_ascii.
  - apply is_ascii_app; apply uXXXX_ascii.
Qed.

Lemma encode_basestring_ascii_ascii s : is_ascii (encode_basestring_ascii s).
Proof.
  unfold encode_basestring_ascii. constructor; [lia|]. apply is_ascii_app.
  - induction s as [|c s IH]; [constructor|]. cbn [flat_map].
    apply is_ascii_app; [apply escape_char_ascii | exact IH].
  - repeat constructor.
Qed.

Lemma digit_ascii c : is_digit c = true -> c < 128.
Proof.
  unfold is_digit. intros H. apply andb_true_iff in H as [_ H]. apply N.leb_le in H. lia.
Qed.

Lemma decimal_ascii n : is_ascii (decimal n).
Proof.
  unfold decimal. destruct (digits_from_spec _ n (decimal_fuel n)) as (Hd & _ & _).
  unfold is_ascii. rewrite Forall_forall in *. intros c Hc. apply digit_ascii. apply Hd. exact Hc.
Qed.

Lemma int_repr_ascii z : is_ascii (int_repr z).
Proof.
  unfold int_repr. destruct z; try apply decimal_ascii.
  constructor; [lia | apply decimal_ascii].
Qed.

(** Whatever [dumps] writes is ASCII, as [ensure_ascii] promises. *)
Lemma dumps_ascii v : forall t, dumps v = Ok t -> is_ascii t.
Proof.
  assert (is_ascii (u ", ")) as Hsep by (repeat constructor).
  induction v as [| b | z | s | l IH | l IH | items IH] using pyval_rect'; intros t.
  - intros E. injection E as <-. repeat constructor.
  - intros E. destruct b; injection E as <-; repeat constructor.
  - intros E. injection E as <-. apply int_repr_ascii.
  - intros E. injection E as <-. apply encode_basestring_ascii_ascii.
  - rewrite dumps_list. destruct (join dumps (u ", ") l) as [body| | |] eqn:E; try discriminate.
    intros E'. injection E' as <-. constructor; [lia|]. apply is_ascii_app.
    + apply (join_ascii dumps (u ", ") l Hsep IH body E).
    + repeat constructor.
  - change (dumps (VTuple l)) with (dumps (VList l)). rewrite dumps_list.
    destruct (join dumps (u ", ") l) as [body| | |] eqn:E; try discriminate.
    intros E'. injection E' as <-. constructor; [lia|]. apply is_ascii_app.
    + apply (join_ascii dumps (u ", ") l Hsep IH body E).
    + repeat constructor.
  - rewrite dumps_dict.
    destruct (join item_text (u ", ") items) as [body| | |] eqn:E; try discriminate.
    intros E'. injection E' as <-. constructor; [lia|]. apply is_ascii_app.
    + apply (join_ascii item_text (u ", ") items Hsep); [|exact E].
      rewrite Forall_forall in *. intros [k x] Hin t. unfold item_text.
      destruct (key_text k) as [kt| | |]; try discriminate. cbn [obind].
      destruct (dumps x) as [xt| | |] eqn:Ex; try discriminate. cbn [obind].
      intros E'. injection E' as <-.
      change (is_ascii (encode_basestring_ascii kt ++ u ": " ++ xt)).
      apply is_ascii_app; [apply encode_basestring_ascii_ascii|].
      apply is_ascii_app; [repeat constructor|].
      apply (proj2 (IH _ Hin) xt Ex).
    + repeat constructor.
Qed.

(** ASCII text is its own UTF-8. *)
Lemma utf8_encode_ascii t : is_ascii t -> Utf8.encode t = Ok t.
Proof.
  induction 1 as [|c t Hc Ht IH]; [reflexivity|].
  cbn [Utf8.encode]. rewrite IH. unfold Utf8.encode_char.
  destruct (N.ltb_spec c 128); [reflexivity | lia].
Qed.

Lemma utf8_decode_ascii t : is_ascii t -> Utf8.decode t = Ok t.
Proof.
  induction 1 as [|c t Hc Ht IH]; [reflexivity|].
  cbn [Utf8.decode]. rewrite IH.
  destruct (N.ltb_spec c 128); [reflexivity | lia].
Qed.
(** ** The fuel of the decoder is enough *)

Lemma skip_ws_length s : (List.length (skip_ws s) <= List.length s)%nat.
Proof.
  induction s as [|c s IH]; cbn [skip_ws]; [lia|].
  destruct (is_ws c); cbn [List.length]; lia.
Qed.

Lemma starts_with_length p : forall s r,
  starts_with p s = Some r -> (List.length r + List.length p = List.length s)%nat.
Proof.
  induction p as [|a p IH]; intros s r; cbn [starts_with].
  - intros E. injection E as <-. cbn. lia.
  - destruct s as [|b s]; [discriminate|]. destruct (a =? b); [|discriminate].
    intros E. apply IH in E. cbn [List.length]. lia.
Qed.

(** [scanstring] answers, and uses up at least the closing quote. *)
Lemma scanstring_answers n : forall s acc,
  (List.length s <= n)%nat ->
  scanstring s acc = Bad \/
  exists t r, scanstring s acc = Scanned t r /\ (List.length r < List.length s)%nat.
Proof.
  induction n as [|n IH]; intros s acc Hn.
  - destruct s; [left; reflexivity | cbn in Hn; lia].
  - destruct s as [|c r]; [left; reflexivity|]. cbn [List.length] in Hn.
    assert (forall s' acc', (List.length s' <= List.length r)%nat ->
               scanstring s' acc' = Bad \/
               exists t r', scanstring s' acc' = Scanned t r' /\
                            (List.length r' < List.length (c :: r))%nat) as Hrec.
    { intros s' acc' Hs'. destruct (IH s' acc' ltac:(lia)) as [E|(t & r' & E & Hl)];
        [left; exact E | right; exists t, r'; split; [exact E | cbn [List.length]; lia]]. }
    cbn [scanstring].
    destruct (c =? 34); [right; eexists _, _; split; [reflexivity | cbn; lia]|].
    destruct (c =? 92).
    + destruct r as [|e r1]; [left; reflexivity|].
      destruct (e =? 117).
      * destruct r1 as [|h1 [|h2 [|h3 [|h4 r2]]]]; try (left; reflexivity).
        destruct (hexval4 h1 h2 h3 h4) as [uni|]; [|left; reflexivity].
        assert (scanstring r2 (uni :: acc) = Bad \/
                exists t r', scanstring r2 (uni :: acc) = Scanned t r' /\
                             (List.length r' < List.length (c :: e :: h1 :: h2 :: h3 :: h4 :: r2))%nat)
          as Hr2 by (apply Hrec; cbn [List.length]; lia).
        destruct (is_high_surrogate uni); [|exact Hr2].
        destruct r2 as [|b [|e' [|k1 [|k2 [|k3 [|k4 r3]]]]]]; try exact Hr2.
        destruct ((b =? 92) && (e' =? 117)); [|exact Hr2].
        destruct (hexval4 k1 k2 k3 k4) as [uni2|]; [|left; reflexivity].
        destruct (is_low_surrogate uni2); [|exact Hr2].
        apply Hrec. cbn [List.length]. lia.
      * destruct (backslash e); [|left; reflexivity]. apply Hrec. cbn [List.length]. lia.
    + destruct (c <=? 31); [left; reflexivity|]. apply Hrec. lia.
Qed.

Lemma scan_digits_length s : forall acc,
  (List.length (snd (scan_digits s acc)) <= List.length s)%nat.
Proof.
  induction s as [|c s IH]; intros acc; cbn [scan_digits]; [cbn; lia|].
  destruct (is_digit c); [specialize (IH (acc * 10 + (c - 48))); cbn [List.length]; lia|].
  cbn. lia.
Qed.

Lemma match_integer_length s n r :
  match_integer s = Some (n, r) -> (List.length r < List.length s)%nat.
Proof.
  destruct s as [|c s]; cbn [match_integer]; [discriminate|].
  destruct (c =? 48).
  - intros E. injection E as _ <-. cbn. lia.
  - destruct (is_digit c); [|discriminate].
    pose proof (scan_digits_length s (c - 48)) as H.
    destruct (scan_digits s (c - 48)) as [n' r']. intros E. injection E as _ <-.
    cbn [snd List.length] in *. lia.
Qed.

Lemma match_number_answers s :
  match_number s <> NoFuel /\
  forall z r, match_number s = Scanned z r -> (List.length r < List.length s)%nat.
Proof.
  destruct s as [|c s]; cbn [match_number]; [split; [discriminate | discriminate]|].
  destruct (c =? 45).
  - destruct (match_integer s) as [[n r']|] eqn:E; [|split; discriminate].
    apply match_integer_length in E.
    destruct (float_follows r'); split; try discriminate.
    intros z r H. injection H as _ <-. cbn [List.length]. lia.
  - destruct (match_integer (c :: s)) as [[n r']|] eqn:E; [|split; discriminate].
    apply match_integer_length in E.
    destruct (float_follows r'); split; try discriminate.
    intros z r H. injection H as _ <-. exact E.
Qed.

(** With two units of fuel per character the scanner never runs out, and
    what it leaves is shorter than what it was given. *)
Lemma scan_fuel fuel :
  (forall s, (2 * List.length s < fuel)%nat ->
     scan_once fuel s <> NoFuel /\
     forall v r, scan_once fuel s = Scanned v r -> (List.length r < List.length s)%nat) /\
  (forall s acc, (2 * List.length s + 1 < fuel)%nat ->
     array_loop fuel s acc <> NoFuel /\
     forall v r, array_loop fuel s acc = Scanned v r -> (List.length r < List.length s)%nat) /\
  (forall s acc, (2 * List.length s + 1 < fuel)%nat ->
     object_loop fuel s acc <> NoFuel /\
     forall v r, object_loop fuel s acc = Scanned v r -> (List.length r < List.length s)%nat).
Proof.
  induction fuel as [|f (IHs & IHa & IHo)]; [repeat split; intros; lia|].
  split; [|split].
  - intros s Hf. destruct s as [|c r]; [split; discriminate|].
    cbn [scan_once].
    destruct (c =? 34).
    { destruct (scanstring_answers (List.length r) r [] (le_n _)) as [E|(t & r' & E & Hl)];
        rewrite E; cbn [sbind]; split; try discriminate.
      intros v r0 H. injection H as _ <-. cbn [List.length]. lia. }
    destruct (c =? 123).
    { pose proof (skip_ws_length r) as Hw.
      destruct (skip_ws r) as [|c' r']; [split; discriminate|].
      destruct (c' =? 125).
      { split; [discriminate|]. intros v r0 H. injection H as _ <-.
        cbn [List.length] in *. lia. }
      destruct (c' =? 34); [|split; discriminate].
      destruct (IHo r' [] ltac:(cbn [List.length] in *; lia)) as [Hn Hr].
      split; [exact Hn|]. intros v r0 H. apply Hr in H. cbn [List.length] in *. lia. }
    destruct (c =? 91).
    { pose proof (skip_ws_length r) as Hw.
      destruct (skip_ws r) as [|c' r']; [split; discriminate|].
      destruct (c' =? 93).
      { split; [discriminate|]. intros v r0 H. injection H as _ <-.
        cbn [List.length] in *. lia. }
      assert (2 * List.length (c' :: r') + 1 < f)%nat as Hx. { cbn [List.length] in *; lia. }
      destruct (IHa (c' :: r') [] Hx) as [Hn Hr].
      split; [exact Hn|]. intros v r0 H. apply Hr in H. cbn [List.length] in *. lia. }
    destruct (starts_with (u "null") (c :: r)) as [r'|] eqn:E1.
    { apply starts_with_length in E1. simpl in E1. split; [discriminate|].
      intros v r0 H. injection H as _ <-. cbn [List.length] in *. lia. }
    destruct (starts_with (u "true") (c :: r)) as [r'|] eqn:E2.
    { apply starts_with_length in E2. simpl in E2. split; [discriminate|].
      intros v r0 H. injection H as _ <-. cbn [List.length] in *. lia. }
    destruct (starts_with (u "false") (c :: r)) as [r'|] eqn:E3.
    { apply starts_with_length in E3. simpl in E3. split; [discriminate|].
      intros v r0 H. injection H as _ <-. cbn [List.length] in *. lia. }
    destruct (match_number_answers (c :: r)) as [Hn Hr].
    destruct (match_number (c :: r)) as [z r'| | |] eqn:E4.
    + split; [discriminate|]. intros v r0 H. injection H as _ <-. apply (Hr z r' eq_refl).
    + destruct (starts_with (u "NaN") (c :: r)), (starts_with (u "Infinity") (c :: r)),
        (starts_with (u "-Infinity") (c :: r)); split; discriminate.
    + split; discriminate.
    + contradiction.
  - intros s acc Hf. cbn [array_loop].
    destruct (IHs s ltac:(lia)) as [Hn Hr].
    destruct (scan_once f s) as [v r| | |]; cbn [sbind]; try (split; discriminate);
      [|contradiction].
    specialize (Hr v r eq_refl).
    pose proof (skip_ws_length r) as Hw.
    destruct (skip_ws r) as [|c r']; [split; discriminate|].
    destruct (c =? 93).
    { split; [discriminate|]. intros v0 r0 H. injection H as _ <-.
      cbn [List.length] in *. lia. }
    destruct (c =? 44); [|split; discriminate].
    pose proof (skip_ws_length r') as Hw'.
    destruct (IHa (skip_ws r') (v :: acc) ltac:(cbn [List.length] in *; lia)) as [Hn' Hr'].
    split; [exact Hn'|]. intros v0 r0 H. apply Hr' in H. cbn [List.length] in *. lia.
  - intros s acc Hf. cbn [object_loop].
    destruct (scanstring_answers (List.length s) s [] (le_n _)) as [E|(key & r & E & Hl)];
      rewrite E; cbn [sbind]; [split; discriminate|].
    pose proof (skip_ws_length r) as Hw.
    destruct (skip_ws r) as [|c r1]; [split; discriminate|].
    destruct (c =? 58); [|split; discriminate].
    pose proof (skip_ws_length r1) as Hw1.
    destruct (IHs (skip_ws r1) ltac:(cbn [List.length] in *; lia)) as [Hn Hr].
    destruct (scan_once f (skip_ws r1)) as [v r2| | |]; cbn [sbind]; try (split; discriminate);
      [|contradiction].
    specialize (Hr v r2 eq_refl).
    pose proof (skip_ws_length r2) as Hw2.
    destruct (skip_ws r2) as [|c' r3]; [split; discriminate|].
    destruct (c' =? 125).
    { split; [discriminate|]. intros v0 r0 H. injection H as _ <-.
      cbn [List.length] in *. lia. }
    destruct (c' =? 44); [|split; discriminate].
    pose proof (skip_ws_length r3) as Hw3.
    destruct (skip_ws r3) as [|q r4]; [split; discriminate|].
    destruct (q =? 34); [|split; discriminate].
    destruct (IHo r4 ((key, v) :: acc) ltac:(cbn [List.length] in *; lia)) as [Hn' Hr'].
    split; [exact Hn'|]. intros v0 r0 H. apply Hr' in H. cbn [List.length] in *. lia.
Qed.

(** [loads] answers: a value, a [ValueError], or [Unmodelled] because the
    text holds a float where a value is expected. *)
Lemma loads_answers s :
  loads s = Unmodelled ->
  scan_once (S (2 * List.length s)) (skip_ws s) = IsFloat.
Proof.
  unfold loads. pose proof (skip_ws_length s) as Hw.
  destruct (proj1 (scan_fuel (S (2 * List.length s))) (skip_ws s) ltac:(lia)) as [Hn _].
  destruct (scan_once (S (2 * List.length s)) (skip_ws s)) as [v r| | |];
    try contradiction; try reflexivity.
  - destruct s as [|c s']; [destruct (skip_ws r); discriminate|].
    destruct c as [|p]; [destruct (skip_ws r); discriminate|].
    repeat (destruct p as [p|p|]; try (destruct (skip_ws r); discriminate)).
  - destruct s as [|c s']; [discriminate|].
    destruct c as [|p]; [discriminate|].
    repeat (destruct p as [p|p|]; try discriminate).
Qed.

End JsonFacts.
Import Json JsonFacts.

(** ** [pack] and [unpack] *)

(** [json.loads] undoes [json.dumps] on native values. *)
Lemma loads_dumps v t : native v -> dumps v = Ok t -> loads t = Ok v.
Proof.
  intros Hn Ht.
  destruct (native_reads_back v Hn (S (2 * List.length t)) []) as (t' & Ht' & Hs).
  { pose proof (dumps_length v t Ht). lia. }
  { exact I. }
  rewrite Ht in Ht'. injection Ht' as <-. rewrite app_nil_r in Hs.
  destruct (dumps_head v t Ht) as (c & r & -> & Hc).
  unfold loads.
  assert (c <> 65279%N) as Hbom by (unfold value_start in Hc; lia).
  rewrite skip_ws_start by exact Hc. rewrite Hs. cbn [skip_ws].
  destruct c as [|p]; [reflexivity|].
  repeat (destruct p as [p|p|]; try reflexivity). contradiction.
Qed.

Lemma pack_ascii v t : dumps v = Ok t -> pack v = Ok t.
Proof.
  intros Ht. unfold pack. rewrite Ht. cbn [obind]. unfold str_encode, config.ENCODING.
  cbn [String.eqb Ascii.eqb Bool.eqb]. apply utf8_encode_ascii. apply (dumps_ascii v t Ht).
Qed.

Lemma unpack_ascii t : is_ascii t -> unpack t = loads t.
Proof.
  intros Ht. unfold unpack, bytes_decode, config.ENCODING.
  cbn [String.eqb Ascii.eqb Bool.eqb]. rewrite (utf8_decode_ascii t Ht). reflexivity.
Qed.

(** A native value is packed, and what is unpacked from its bytes is the
    value. *)
Lemma unpack_pack v :
  native v -> exists message, pack v = Ok message /\ unpack message = Ok v.
Proof.
  intros Hn. destruct (native_reads_back v Hn (size v) [] (le_n _) I) as (t & Ht & _).
  exists t. split; [apply pack_ascii; exact Ht|].
  rewrite unpack_ascii by (apply (dumps_ascii v t Ht)). apply loads_dumps; assumption.
Qed.




(** ASCII text is text that comes back. *)
Lemma is_ascii_text_ok s : is_ascii s -> text_ok s.
Proof.
  induction 1 as [|c s Hc Hs IH]; [exact I|]. cbn [text_ok]. repeat split.
  - lia.
  - unfold is_high_surrogate. intros H. apply andb_true_iff in H as [H _].
    apply N.leb_le in H. lia.
  - exact IH.
Qed.



(** So do a tuple, which comes back as a list, and a high surrogate before
    a low one, which come back as one character. *)
Lemma tuple_comes_back_as_list :
  obind (pack a_tuple) unpack = Ok (VList [VInt 1; VInt 2]) /\
  py_eq (VList [VInt 1; VInt 2]) a_tuple = false.
Proof. split; vm_compute; reflexivity. Qed.

Lemma surrogates_come_back_joined :
  obind (pack lone_surrogates) unpack = Ok (VStr [128512%N]) /\
  py_eq (VStr [128512%N]) lone_surrogates = false.
Proof. split; vm_compute; reflexivity. Qed.


(** ** [advertise] *)

(** [partition(":")] splits at the first colon. *)
Lemma partition_colon_spec s :
  match partition_colon s with
  | Some (a, b) => s = a ++ 58%N :: b /\ ~ In 58%N a
  | None => ~ In 58%N s
  end.
Proof.
  induction s as [|c s IH]; cbn [partition_colon]; [intros []|].
  destruct (N.eqb_spec c 58) as [->|Hc].
  - split; [reflexivity | intros []].
  - destruct (partition_colon s) as [[a b]|].
    + destruct IH as [-> Hn]. split; [reflexivity|]. intros [E|Hin]; [congruence | auto].
    + intros [E|Hin]; [congruence | auto].
Qed.

Lemma text_ok_prefix a b : text_ok (a ++ b) -> text_ok a.
Proof.
  induction a as [|x a IH]; [intros _; exact I|]. cbn [app text_ok].
  intros (Hx & Hh & Ht). repeat split; [exact Hx | | apply IH; exact Ht].
  intros H. specialize (Hh H). destruct a; [exact I | exact Hh].
Qed.

Lemma text_ok_suffix a b : text_ok (a ++ b) -> text_ok b.
Proof.
  induction a as [|x a IH]; [intros H; exact H|]. cbn [app text_ok].
  intros (_ & _ & Ht). apply IH. exact Ht.
Qed.

Lemma ascii_not_low c : (c < 128)%N -> is_low_surrogate c = false.
Proof.
  intros H. unfold is_low_surrogate. apply andb_false_iff. left. apply N.leb_gt. lia.
Qed.

Lemma text_ok_app_ascii a b : text_ok a -> is_ascii b -> text_ok (a ++ b).
Proof.
  intros Ha Hb. induction a as [|x a IH].
  - apply is_ascii_text_ok. exact Hb.
  - cbn [app text_ok] in *. destruct Ha as (Hx & Hh & Ht).
    repeat split; [exact Hx | | apply IH; exact Ht].
    intros H. specialize (Hh H). destruct a as [|y a]; [|exact Hh].
    cbn [app]. destruct Hb as [|c b Hc _]; [exact I | apply ascii_not_low; exact Hc].
Qed.

(** The two parts of an address that comes back from the wire come back
    too. *)
Lemma split_address_text_ok s :
  text_ok s ->
  native (fst (split_address s)) /\ text_ok (snd (split_address s)).
Proof.
  intros Hs. unfold split_address. pose proof (partition_colon_spec s) as H.
  destruct (partition_colon s) as [[a b]|]; cbn [fst snd native].
  - destruct H as [-> _]. split.
    + apply (text_ok_prefix a _ Hs).
    + apply text_ok_suffix in Hs. destruct Hs as (_ & _ & Hs). exact Hs.
  - split; [exact I | exact Hs].
Qed.

Lemma do_advertise_text name port ip b :
  do_advertise (VStr name) (VStr port) ip b =
    (Ok (VStr (name ++ u "!!")),
     mkBeacon (fst (setdefault_add (VStr name) (VStr port) (_services_to_advertise b)))
              (_services_found b) (rpc b) (socket b),
     [Log DEBUG "Advertise %s on %s" [LVal (VStr name); LVal (VStr port)]]).
Proof.
  unfold do_advertise. unfold_M.
  rewrite setdefault_add_hashable by reflexivity. reflexivity.
Qed.

(** The request of [advertise] is answered by [do_advertise] with the three
    arguments as they were sent. *)
Lemma rpc_advertise w fuel name port ip p b :
  text_ok name -> text_ok port -> native ip ->
  serving p = Some b ->
  exists l,
    _rpc w fuel (u "advertise") [VStr name; VStr port; ip] p =
      (Ok (VStr (name ++ u "!!")),
       set_serving
         (sent (wire "'" ++ flat_map escape_char (name ++ u "!!") ++ wire "'")
            (mkBeacon (fst (setdefault_add (VStr name) (VStr port)
                                           (_services_to_advertise b)))
                      (_services_found b) (rpc b) (socket b)))
         p,
       l).
Proof.
  intros Hname Hport Hip Hserv.
  set (frame := VList [VStr (u "advertise"); VStr name; VStr port; ip]).
  assert (native frame) as Hn.
  { unfold frame. cbn [native]. split; [apply is_ascii_text_ok; repeat constructor|].
    repeat split; assumption. }
  destruct (unpack_pack frame Hn) as (request & Hp & Hu).
  assert (text_ok (name ++ u "!!")) as Hres
      by (apply text_ok_app_ascii; [exact Hname | repeat constructor]).
  destruct (unpack_pack (VStr (name ++ u "!!")) Hres) as (reply & Hrp & Hru).
  assert (reply = wire "'" ++ flat_map escape_char (name ++ u "!!") ++ wire "'") as Ereply.
  { rewrite (pack_ascii (VStr (name ++ u "!!")) _ eq_refl) in Hrp. injection Hrp as <-.
    reflexivity. }
  pose proof (answered w fuel false request (u "advertise") [VStr name; VStr port; ip] b
                "do_advertise"%string call_do_advertise Hu) as Ha.
  rewrite getattr_do in Ha. specialize (Ha eq_refl).
  specialize (Ha _ _ _ reply (do_advertise_text name port ip b) Hrp).
  unfold _rpc. fold frame. rewrite Hp, Hserv, Ha.
  cbn [sent rpc]. rewrite nth_error_app2 by apply le_n. rewrite Nat.sub_diag. cbn [nth_error].
  rewrite Hru, <- Ereply. eexists. reflexivity.
Qed.


(** ** [advertise_names] *)

Lemma join_ok {A} (f : A -> outcome pystr) sep l :
  Forall (fun x => exists t, f x = Ok t) l -> exists body, join f sep l = Ok body.
Proof.
  induction 1 as [|x l (a & Ha) Hl (b & IH)]; [exists []; reflexivity|].
  rewrite join_cons, Ha. cbn [obind]. destruct l as [|y l']; [eauto|].
  rewrite IH. cbn [obind]. eauto.
Qed.

(** Whatever can be a key or a member of a set can be encoded. *)
Lemma dumps_hashable v : hashable v = true -> exists t, dumps v = Ok t.
Proof.
  induction v as [| b | z | s | l IH | l IH | items IH] using pyval_rect';
    intros H; try discriminate H.
  - eexists; reflexivity.
  - destruct b; eexists; reflexivity.
  - eexists; reflexivity.
  - eexists; reflexivity.
  - change (dumps (VTuple l)) with (dumps (VList l)). rewrite dumps_list.
    cbn [hashable] in H. rewrite forallb_forall in H.
    destruct (join_ok dumps (u ", ") l) as (body & ->); [|cbn [obind]; eauto].
    rewrite Forall_forall in *. intros x Hx. apply IH; [exact Hx | apply H; exact Hx].
Qed.

Lemma pack_pair_ok name port :
  hashable name = true -> hashable port = true ->
  exists m, pack (VList [name; port]) = Ok m.
Proof.
  intros Hn Hp. destruct (dumps_hashable name Hn) as (a & Ha).
  destruct (dumps_hashable port Hp) as (b & Hb).
  eexists. apply pack_ascii. rewrite dumps_list, !join_cons, Ha, Hb. reflexivity.
Qed.

Lemma broadcast_nil b : broadcast [] b = b.
Proof. destruct b. unfold broadcast. cbn. rewrite app_nil_r. reflexivity. Qed.

Lemma broadcast_app f1 f2 b : broadcast f2 (broadcast f1 b) = broadcast (f1 ++ f2) b.
Proof. unfold broadcast. cbn. rewrite app_assoc. reflexivity. Qed.

(** The inner loop: one datagram for every port of the bucket. *)
Lemma advertise_ports name ports :
  hashable name = true -> all_hashable ports ->
  forall b,
  exists frames l,
    each (fun service_port =>
            logger DEBUG "Advertising %s on %s" [LVal name; LVal service_port] ;;
            message <- lift (pack (VList [name; service_port])) ;;
            socket_sendto message ("255.255.255.255"%string, beacon_port))
         ports b = (Ok tt, broadcast frames b, l) /\
    Forall2 advertises (map (fun port => (name, port)) ports) frames.
Proof.
  intros Hn. induction 1 as [|port ports Hp Hps IH]; intros b.
  - exists [], []. rewrite broadcast_nil. split; [reflexivity | constructor].
  - destruct (pack_pair_ok name port Hn Hp) as (m & Hm).
    destruct (IH (broadcast [(m, ("255.255.255.255"%string, beacon_port))] b))
      as (frames & l & He & Hf).
    exists ((m, ("255.255.255.255"%string, beacon_port)) :: frames). eexists.
    cbn [each]. unfold_M. rewrite Hm.
    change (mkBeacon (_services_to_advertise b) (_services_found b) (rpc b)
                     (socket b ++ [(m, ("255.255.255.255"%string, beacon_port))]))
      with (broadcast [(m, ("255.255.255.255"%string, beacon_port))] b).
    rewrite He, broadcast_app. split; [reflexivity|].
    cbn [map]. constructor; [split; [exact Hm | reflexivity] | exact Hf].
Qed.

(** The outer loop: the datagrams of every bucket, in order. *)
Lemma advertise_items d :
  all_hashable (dict_keys d) ->
  Forall (fun kv : pyval * pyset => bucket_ok (snd kv)) d ->
  forall b,
  exists frames l,
    each (fun item : pyval * pyset =>
            let (service_name, service_ports) := item in
            each (fun service_port =>
                    logger DEBUG "Advertising %s on %s"
                           [LVal service_name; LVal service_port] ;;
                    message <- lift (pack (VList [service_name; service_port])) ;;
                    socket_sendto message ("255.255.255.255"%string, beacon_port))
                 service_ports)
         d b = (Ok tt, broadcast frames b, l) /\
    Forall2 advertises (pairs_of d) frames.
Proof.
  induction d as [|[name ports] d IH]; intros Hk Hb b.
  - exists [], []. rewrite broadcast_nil. split; [reflexivity | constructor].
  - inversion Hk as [|? ? Hn Hk']; subst. inversion Hb as [|? ? (_ & _ & Hp) Hb']; subst.
    cbn [snd] in Hp.
    destruct (advertise_ports name ports Hn Hp b) as (f1 & l1 & E1 & F1).
    destruct (IH Hk' Hb' (broadcast f1 b)) as (f2 & l2 & E2 & F2).
    exists (f1 ++ f2), (l1 ++ l2). cbn [each]. unfold bind at 1. rewrite E1, E2.
    rewrite broadcast_app. split; [reflexivity|].
    unfold pairs_of. cbn [flat_map fst snd]. apply Forall2_app; assumption.
Qed.

(** [advertise_names] sends one datagram for every advertised pair, each
    the packed pair, and changes nothing else. *)
Lemma advertise_names_sends b :
  table_ok (_services_to_advertise b) ->
  exists frames l,
    advertise_names b = (Ok tt, broadcast frames b, l) /\
    Forall2 advertises (pairs_of (_services_to_advertise b)) frames.
Proof.
  intros (_ & Hk & Hb).
  destruct (advertise_items (_services_to_advertise b) Hk Hb b) as (frames & l & E & F).
  exists frames, l. split; [|exact F].
  unfold advertise_names. unfold bind at 1. unfold get_advertised. cbv beta iota.
  rewrite E. reflexivity.
Qed.


Lemma serving_set_serving b p : serving (set_serving b p) = Some b.
Proof. unfold serving, set_serving. destruct (_beacon p); reflexivity. Qed.

Lemma set_mem_str t s : set_mem (VStr t) s = true -> In (VStr t) s.
Proof.
  unfold set_mem. intros H. apply existsb_exists in H as (y & Hin & E).
  apply py_eq_str in E. subst y. exact Hin.
Qed.

Lemma dict_set_In_str {V} t (v : V) d : In (VStr t, v) (dict_set (VStr t) v d).
Proof.
  induction d as [|[k' v'] d IH]; cbn [dict_set]; [left; reflexivity|].
  destruct (py_eq (VStr t) k') eqn:E.
  - apply py_eq_str in E. subst k'. left. reflexivity.
  - right. exact IH.
Qed.

Lemma pairs_of_In d k s x : In (k, s) d -> In x s -> In (k, x) (pairs_of d).
Proof.
  intros Hd Hs. unfold pairs_of. apply in_flat_map. exists (k, s). split; [exact Hd|].
  cbn [fst snd]. apply in_map. exact Hs.
Qed.

Lemma Forall2_In_left {A B} (R : A -> B -> Prop) l1 l2 x :
  Forall2 R l1 l2 -> In x l1 -> exists y, In y l2 /\ R x y.
Proof.
  induction 1 as [|a b l1 l2 Hab Hl IH]; [intros []|].
  intros [<-|Hin].
  - exists b. split; [left; reflexivity | exact Hab].
  - destruct (IH Hin) as (y & Hy & Hr). exists y. split; [right; exact Hy | exact Hr].
Qed.

(** C9, as the code has it: [advertise] takes [str] of the address (the
    text itself, the decimal digits of an integer), keeps what follows the
    first colon (all of it when there is none) and sends it as text; when
    this text holds no high surrogate directly before a low one, the beacon
    stores it, as text, in the bucket of the name, and [advertise_names]
    broadcasts a frame that decodes to the name and this text. *)
Theorem advertise_stores_port_as_text w fuel ports_free name address p b :
  text_ok name ->
  text_ok (str w address) ->
  serving (fst (start_beacon ports_free p)) = Some b ->
  let port := snd (split_address (str w address)) in
  match address with
  | VStr s => str w address = s
  | VInt z => str w address = Json.int_repr z
  | VNone => str w address = u "None"
  | VBool true => str w address = u "True"
  | VBool false => str w address = u "False"
  | _ => str w address = repr w address
  end /\
  ((exists ip, str w address = ip ++ 58%N :: port /\ ~ In 58%N ip) \/
   (~ In 58%N (str w address) /\ port = str w address)) /\
  exists p' l b',
    advertise w fuel ports_free (VStr name) address p
      = (Ok (VStr (name ++ u "!!")), p', l) /\
    serving p' = Some b' /\
    _services_to_advertise b' =
      fst (setdefault_add (VStr name) (VStr port) (_services_to_advertise b)) /\
    (exists ports,
        dict_find (VStr name) (_services_to_advertise b') = Some ports /\
        In (VStr port) ports) /\
    (table_ok (_services_to_advertise b) ->
     exists frames l' datagram,
       advertise_names b' = (Ok tt, broadcast frames b', l') /\
       In (datagram, ("255.255.255.255"%string, beacon_port)) frames /\
       unpack datagram = Ok (VList [VStr name; VStr port])).
Proof.
  intros Hname Haddr Hserv port. split.
  { destruct address as [|[|]|z|s|l0|l0|items]; reflexivity. }
  split.
  { unfold port, split_address. pose proof (partition_colon_spec (str w address)) as H.
    destruct (partition_colon (str w address)) as [[a c]|]; cbn [snd].
    - left. exists a. exact H.
    - right. split; [exact H | reflexivity]. }
  destruct (split_address_text_ok (str w address) Haddr) as [Hip Hport].
  unfold advertise.
  destruct (start_beacon ports_free p) as [p1 l1] eqn:Es. cbn [fst] in Hserv.
  destruct (split_address (str w address)) as [ip port'] eqn:Ea.
  cbn [fst snd] in Hip, Hport. subst port. cbn [snd].
  destruct (rpc_advertise w fuel name port' ip p1 b Hname Hport Hip Hserv) as (l2 & ->).
  set (d' := fst (setdefault_add (VStr name) (VStr port') (_services_to_advertise b))).
  set (b1 := mkBeacon d' (_services_found b) (rpc b) (socket b)).
  set (b' := sent _ b1).
  eexists _, _, b'. split; [reflexivity|].
  split; [cbn [serving _beacon loopback]; apply serving_set_serving|].
  split; [reflexivity|].
  assert (exists ports, In (VStr name, ports) d' /\
                        dict_find (VStr name) d' = Some ports /\ In (VStr port') ports)
    as (ports & Hin & Hfind & Hmem).
  { unfold d'. rewrite setdefault_add_hashable by reflexivity. cbn [fst].
    eexists. split; [apply dict_set_In_str|]. split; [apply dict_find_set_same, streq_refl|].
    cbv zeta.
    destruct (set_mem (VStr port') _) eqn:M; [apply set_mem_str; exact M | left; reflexivity]. }
  split; [exists ports; split; assumption|].
  intros Hok.
  assert (table_ok (_services_to_advertise b')) as Hok'.
  { cbn [b' sent b1 _services_to_advertise]. unfold d'.
    apply setdefault_add_table_ok; [exact Hok | reflexivity]. }
  destruct (advertise_names_sends b' Hok') as (frames & l' & E & F).
  destruct (Forall2_In_left _ _ _ (VStr name, VStr port') F) as ([m dest] & Hm & Hp & Hd).
  { apply (pairs_of_In _ _ ports); assumption. }
  cbn [fst snd] in Hp, Hd. subst dest.
  exists frames, l', m. split; [exact E|]. split; [exact Hm|].
  assert (native (VList [VStr name; VStr port'])) as Hn
      by (cbn [native]; repeat split; assumption).
  destruct (unpack_pack _ Hn) as (m' & Hp' & Hu). rewrite Hp in Hp'. injection Hp' as <-.
  exact Hu.
Qed.

(** The integer 9005 as the address on a fresh process: [str] makes it the
    text ["9005"], which has no colon, so the bucket of ["svc"] holds the
    text ["9005"] and the broadcast carries it as text. *)
Lemma advertise_stores_port_as_text_witness :
  text_ok (u "svc") /\
  text_ok (str quiet_world address_9005) /\
  serving (fst (start_beacon true no_process)) = Some Beacon__init__ /\
  str quiet_world address_9005 = u "9005" /\
  exists p' l b',
    advertise quiet_world 0 true svc address_9005 no_process
      = (Ok (VStr (u "svc" ++ u "!!")), p', l) /\
    serving p' = Some b' /\
    _services_to_advertise b' = [(svc, [port_9005])] /\
    exists frames l' datagram,
      advertise_names b' = (Ok tt, broadcast frames b', l') /\
      In (datagram, ("255.255.255.255"%string, beacon_port)) frames /\
      unpack datagram = Ok (VList [svc; port_9005]).
Proof.
  assert (text_ok (u "svc")) as H1 by (apply is_ascii_text_ok; repeat constructor).
  assert (text_ok (str quiet_world address_9005)) as H2
      by (apply is_ascii_text_ok; vm_compute; repeat constructor).
  split; [exact H1|]. split; [exact H2|]. split; [reflexivity|].
  destruct (advertise_stores_port_as_text quiet_world 0 true (u "svc") address_9005
              no_process Beacon__init__ H1 H2 eq_refl)
    as (Hstr & _ & p' & l & b' & Ha & Hs & Hd & _ & Hsend).
  split; [rewrite Hstr; vm_compute; reflexivity|].
  exists p', l, b'. split; [exact Ha|]. split; [exact Hs|].
  split; [rewrite Hd; vm_compute; reflexivity|].
  exact (Hsend table_ok_empty).
Defined.

(** C9 as written fails: the address [h:] followed by a high and a low
    surrogate.  The text after the first colon is the two surrogates; the
    request carries them as two escapes, which the beacon reads as the one
    character U+1F600, and that is what it stores. *)
Lemma surrogate_pair_port_is_stored_joined :
  snd (split_address (str quiet_world address_surrogates)) = [55357%N; 56832%N] /\
  exists p' l,
    advertise quiet_world 0 true svc address_surrogates no_process
      = (Ok (VStr (u "svc!!")), p', l) /\
    serving p' = Some (mkBeacon [(svc, [port_U1F600])] [] [wire "'svc!!'"] []) /\
    port_U1F600 <> port_surrogates.
Proof.
  split; [reflexivity|]. eexists _, _.
  split; [vm_compute; reflexivity|]. split; [vm_compute; reflexivity|]. discriminate.
Qed.

(** ** The [discover] verb *)

Lemma state_at_found w k b :
  (forall j b0, _services_found (other_threads w j b0) = _services_found b0) ->
  _services_found (state_at w k b) = _services_found b.
Proof.
  intros Hw. induction k as [|k IH]; [reflexivity|].
  cbn [state_at]. rewrite Hw. exact IH.
Qed.

(** C1, as the code has it: on a frame [[discover, name, wait]] the beacon
    is inside [do_discover], without a reply, while the passes find no
    endpoint under the name and the clock has not passed the deadline.  At
    the first pass that finds the bucket filled it replies the member at the
    index that [random.choice] draws, every endpoint of the bucket standing
    at exactly one of the indices the draw ranges over; the reply of a pair
    (ip, port) decodes to the two-element list [[ip, port]].  At the first
    pass that finds no endpoint with the deadline passed it logs the warning
    and replies [null].  When nobody but the beacon's own thread writes the
    discovered set, the set at every pass is the set at the call. *)
Theorem discover_verb_blocks_until w wait message verb name z b k :
  unpack message = Ok (VList [VStr verb; name; VInt z]) ->
  lower verb = u "discover" ->
  hashable name = true ->
  (forall j, j < k -> still_waiting w name z b j) ->
  let out fuel := check_for_commands w fuel wait (Message message) b in
  let logs :=
    [Log DEBUG "Received command %s" [LBytes message];
     Log DEBUG "Calling %s with %s" [LMethod "do_discover"; LVal (VList [name; VInt z])];
     Log DEBUG "Discover %s waiting for %s secs" [LVal name; LVal (VInt z)]] in
  out k = (Unfinished, state_at w k b, logs) /\
  (forall x s fuel,
      dict_find name (_services_found (state_at w k b)) = Some (x :: s) ->
      distinct (x :: s) ->
      all_hashable (x :: s) ->
      randbelow w (List.length (x :: s)) < List.length (x :: s) ->
      (forall e, In e (x :: s) ->
                 exists i, i < List.length (x :: s) /\
                           nth_error (x :: s) i = Some e /\
                           forall j, nth_error (x :: s) j = Some e -> j = i) /\
      exists e frame,
        nth_error (x :: s) (randbelow w (List.length (x :: s))) = Some e /\
        pack e = Ok frame /\
        out (S k + fuel) = (Ok tt, sent frame (state_at w k b), logs) /\
        (forall ip port,
            e = VTuple [VStr ip; VStr port] -> text_ok ip -> text_ok port ->
            unpack frame = Ok (VList [VStr ip; VStr port]))) /\
  (forall fuel,
      bucket_at w k name b = [] ->
      (deadline w z < time_time w (S k))%Q ->
      out (S k + fuel) =
        (Ok tt, sent (wire "null") (state_at w k b),
         logs ++ [Log WARNING "%s not discovered after %s secs" [LVal name; LVal (VInt z)]])) /\
  ((forall j b0, _services_found (other_threads w j b0) = _services_found b0) ->
   _services_found (state_at w k b) = _services_found b).
Proof.
  intros Hu Hverb Hn Hw out logs.
  assert (forall fuel,
             out fuel = served "do_discover" (do_discover w fuel name (VInt z)) message
                               [name; VInt z] b) as Hout.
  { intros fuel. unfold out.
    apply (check_for_commands_served w fuel wait message verb [name; VInt z] b
             "do_discover" (call_do_discover w fuel) Hu).
    rewrite getattr_do, Hverb. reflexivity. }
  destruct (do_discover_blocks_until w name z b k Hn Hw) as (Hblocked & Hfound & Hlate).
  split; [|split; [|split]].
  - rewrite Hout. unfold served. rewrite Hblocked. reflexivity.
  - intros x s fuel Hf Hd Hh Hr. split.
    + intros e Hin. destruct (one_draw_per_endpoint (x :: s) e Hd Hh Hin) as (i & Hi & Hu1).
      exists i. split; [|split; assumption].
      apply nth_error_Some. rewrite Hi. discriminate.
    + destruct (Hfound x s fuel Hf Hr) as (e & He & Hdo & _).
      assert (hashable e = true) as Hhe.
      { unfold all_hashable in Hh. rewrite Forall_forall in Hh. apply Hh.
        eapply nth_error_In. exact He. }
      destruct (dumps_hashable e Hhe) as (t & Ht).
      exists e, t. split; [exact He|]. split; [apply pack_ascii; exact Ht|].
      split.
      * rewrite Hout. unfold served. rewrite Hdo. cbn [obind].
        rewrite (pack_ascii e t Ht). reflexivity.
      * intros ip port -> Hip Hport.
        assert (native (VList [VStr ip; VStr port])) as Hnat
            by (cbn [native]; repeat split; assumption).
        destruct (unpack_pack _ Hnat) as (m & Hp & Hum).
        assert (pack (VList [VStr ip; VStr port]) = Ok t) as Hp'
            by (apply pack_ascii; exact Ht).
        rewrite Hp in Hp'. injection Hp' as <-. exact Hum.
  - intros fuel Hb Ht. rewrite Hout. unfold served. rewrite (Hlate fuel Hb Ht). reflexivity.
  - apply state_at_found.
Qed.

(** Nothing discovered and a wait of five seconds, the clock one second
    further at each reading: after five passes the beacon has not replied,
    at the sixth it replies [null].  With ["svc"] discovered the first pass
    replies the pair as a list. *)
Lemma discover_verb_blocks_until_witness :
  unpack request_discover_5 = Ok (VList [VStr (u "discover"); svc; VInt 5]) /\
  lower (u "discover") = u "discover" /\
  hashable svc = true /\
  (forall j, j < 5 -> still_waiting quiet_world svc 5 Beacon__init__ j) /\
  fst (fst (check_for_commands quiet_world 5 false (Message request_discover_5)
                               Beacon__init__)) = Unfinished /\
  rpc (snd (fst (check_for_commands quiet_world 5 false (Message request_discover_5)
                                    Beacon__init__))) = [] /\
  fst (fst (check_for_commands quiet_world 6 false (Message request_discover_5)
                               Beacon__init__)) = Ok tt /\
  rpc (snd (fst (check_for_commands quiet_world 6 false (Message request_discover_5)
                                    Beacon__init__))) = [wire "null"] /\
  rpc (snd (fst (check_for_commands quiet_world 1 false (Message request_discover_5)
                                    discovered_svc))) = [wire "['127.0.0.1', '9005']"].
Proof.
  assert (unpack request_discover_5 = Ok (VList [VStr (u "discover"); svc; VInt 5])) as H
      by (vm_compute; reflexivity).
  assert (forall j, j < 5 -> still_waiting quiet_world svc 5 Beacon__init__ j) as Hw.
  { intros j Hj. split.
    - unfold bucket_at. rewrite state_at_found by reflexivity. reflexivity.
    - do 5 (destruct j as [|j]; [vm_compute; discriminate|]). lia. }
  assert (forall j, j < 0 -> still_waiting quiet_world svc 5 discovered_svc j) as Hw0
      by (intros j Hj; lia).
  split; [exact H|]. split; [reflexivity|]. split; [reflexivity|]. split; [exact Hw|].
  destruct (discover_verb_blocks_until quiet_world false request_discover_5 (u "discover")
              svc 5 Beacon__init__ 5 H eq_refl eq_refl Hw)
    as (Hblocked & _ & Hlate & _).
  pose proof (Hlate 0 eq_refl eq_refl) as Hnull. cbn [Nat.add] in Hnull.
  rewrite Hblocked, Hnull.
  split; [reflexivity|]. split; [reflexivity|]. split; [reflexivity|]. split; [reflexivity|].
  destruct (discover_verb_blocks_until quiet_world false request_discover_5 (u "discover")
              svc 5 discovered_svc 0 H eq_refl eq_refl Hw0)
    as (_ & Hfound & _).
  destruct (Hfound localhost_9005 [] 0 eq_refl) as (_ & e & frame & He & Hp & Hout & Hu).
  - repeat constructor.
  - repeat constructor.
  - repeat constructor.
  - injection He as <-. cbn [Nat.add] in Hout. rewrite Hout. cbn [fst snd sent rpc].
    vm_compute in Hp. injection Hp as <-. reflexivity.
Defined.

(* ===================================================================== *)
(** * Further properties *)
(* ===================================================================== *)

(** ** Tables: what a lookup finds after a change *)

Lemma py_eq_other k k' k1 :
  hashable k = true -> hashable k' = true ->
  py_eq k' k = false -> py_eq k k1 = true -> py_eq k' k1 = false.
Proof.
  intros Hk Hk' Hne E. destruct (py_eq k' k1) eqn:E'; [|reflexivity].
  assert (py_eq k' k = true) as C; [|congruence].
  apply py_eq_trans with k1; [exact Hk' | exact E'|].
  apply py_eq_sym; assumption.
Qed.

Lemma dict_find_set_other {V} k k' (v : V) d :
  hashable k = true -> hashable k' = true -> py_eq k' k = false ->
  dict_find k' (dict_set k v d) = dict_find k' d.
Proof.
  intros Hk Hk' Hne. induction d as [|[k1 v1] d IH]; cbn [dict_set dict_find].
  - rewrite Hne. reflexivity.
  - destruct (py_eq k k1) eqn:E; cbn [dict_find].
    + rewrite (py_eq_other k k' k1 Hk Hk' Hne E). reflexivity.
    + rewrite IH. reflexivity.
Qed.

Lemma dict_find_del_other {V} k k' (d : pydict V) :
  hashable k = true -> hashable k' = true -> py_eq k' k = false ->
  dict_find k' (dict_del k d) = dict_find k' d.
Proof.
  intros Hk Hk' Hne. induction d as [|[k1 v1] d IH]; cbn [dict_del dict_find]; [reflexivity|].
  destruct (py_eq k k1) eqn:E; cbn [dict_find].
  - rewrite (py_eq_other k k' k1 Hk Hk' Hne E). reflexivity.
  - rewrite IH. reflexivity.
Qed.

Lemma dict_set_same_value {V} k (v : V) d : dict_find k d = Some v -> dict_set k v d = d.
Proof.
  induction d as [|[k1 v1] d IH]; cbn [dict_set dict_find]; [discriminate|].
  destruct (py_eq k k1).
  - intros E. injection E as ->. reflexivity.
  - intros E. rewrite IH by exact E. reflexivity.
Qed.

Lemma dict_del_set_new {V} k (v : V) d :
  py_eq k k = true -> dict_find k d = None -> dict_del k (dict_set k v d) = d.
Proof.
  intros Hk. induction d as [|[k1 v1] d IH]; cbn [dict_set dict_find dict_del].
  - rewrite Hk. reflexivity.
  - destruct (py_eq k k1) eqn:E; [discriminate|]. intros H. cbn [dict_del]. rewrite E, IH by exact H.
    reflexivity.
Qed.

Lemma filter_keeps_all port s :
  set_mem port s = false -> filter (fun y => negb (py_eq port y)) s = s.
Proof.
  intros H. apply set_mem_false in H. induction H as [|y s Hy Hs IH]; [reflexivity|].
  cbn [filter]. rewrite Hy, IH. reflexivity.
Qed.

(** Membership of another port is not touched by removing one. *)
Lemma set_mem_filter_other port port' s :
  hashable port = true -> hashable port' = true -> py_eq port' port = false ->
  set_mem port' (filter (fun y => negb (py_eq port y)) s) = set_mem port' s.
Proof.
  intros Hp Hp' Hne. unfold set_mem. induction s as [|y s IH]; [reflexivity|].
  cbn [filter existsb]. destruct (py_eq port y) eqn:E; cbn [negb existsb].
  - rewrite IH, (py_eq_other port port' y Hp Hp' Hne E). reflexivity.
  - rewrite IH. reflexivity.
Qed.

Lemma set_mem_filter_self port s :
  set_mem port (filter (fun y => negb (py_eq port y)) s) = false.
Proof.
  unfold set_mem. induction s as [|y s IH]; [reflexivity|].
  cbn [filter]. destruct (py_eq port y) eqn:E; cbn [negb existsb]; [exact IH|].
  rewrite E, IH. reflexivity.
Qed.

(** Adding to a bucket what it holds already changes nothing. *)
Lemma setdefault_add_twice k x d :
  hashable k = true -> hashable x = true ->
  fst (setdefault_add k x (fst (setdefault_add k x d))) = fst (setdefault_add k x d).
Proof.
  intros Hk Hx. rewrite (setdefault_add_hashable k x d) by assumption. cbn [fst]. cbv zeta.
  set (s0 := match dict_find k d with Some s0 => s0 | None => [] end).
  set (s := if set_mem x s0 then s0 else x :: s0).
  assert (set_mem x s = true) as Hs.
  { unfold s. destruct (set_mem x s0) eqn:M; [exact M|].
    unfold set_mem. cbn [existsb]. rewrite py_eq_refl by exact Hx. reflexivity. }
  rewrite setdefault_add_hashable by assumption. cbn [fst].
  rewrite dict_find_set_same by (apply py_eq_refl; exact Hk). cbv zeta. rewrite Hs.
  apply dict_set_set. apply py_eq_refl. exact Hk.
Qed.

(** What [setdefault(k, set()).add(x)] leaves in the bucket of [k]. *)
Lemma setdefault_add_mem k x d :
  hashable k = true -> hashable x = true ->
  set_mem x (bucket k (fst (setdefault_add k x d))) = true.
Proof.
  intros Hk Hx. rewrite setdefault_add_hashable by assumption. cbn [fst].
  unfold bucket at 1. rewrite dict_find_set_same by (apply py_eq_refl; exact Hk).
  cbv zeta. fold (bucket k d).
  destruct (set_mem x (bucket k d)) eqn:M; [exact M|].
  unfold set_mem. cbn [existsb]. rewrite py_eq_refl by exact Hx. reflexivity.
Qed.

(** One datagram that decodes to a pair, step by step. *)
Lemma check_for_adverts_step payload ip sport name port b :
  unpack (firstn beacon_message_size payload) = Ok (VList [name; port]) ->
  hashable name = true ->
  hashable port = true ->
  check_for_adverts (Datagram payload (ip, sport)) b =
    (Ok tt,
     mkBeacon (_services_to_advertise b)
              (fst (setdefault_add name (VTuple [VStr ip; port]) (_services_found b)))
              (rpc b) (socket b),
     [Log DEBUG "Advert received from %s for %s on %s"
          [LVal (VStr ip); LVal name; LVal port]]).
Proof.
  intros Hu Hn Hp.
  assert (hashable (VTuple [VStr ip; port]) = true) as He by (cbn; rewrite Hp; reflexivity).
  unfold check_for_adverts. unfold_M. rewrite Hu. cbn [unpack2 fst snd].
  rewrite setdefault_add_hashable by assumption. reflexivity.
Qed.

(** X1: after [do_advertise(name, port)], however the call ends, the port
    is in the bucket of the name; whether another port is in that bucket,
    and what the bucket of another name holds, is what it was. *)
Theorem do_advertise_lookup name port ip b :
  hashable name = true ->
  hashable port = true ->
  let d := _services_to_advertise b in
  let d' := _services_to_advertise (snd (fst (do_advertise name port ip b))) in
  set_mem port (bucket name d') = true /\
  (forall port', py_eq port' port = false ->
                 set_mem port' (bucket name d') = set_mem port' (bucket name d)) /\
  (forall name', hashable name' = true -> py_eq name' name = false ->
                 bucket name' d' = bucket name' d).
Proof.
  intros Hn Hp d d'. unfold d'. rewrite do_advertise_table.
  rewrite setdefault_add_hashable by assumption. cbn [fst]. fold d. unfold bucket.
  rewrite dict_find_set_same by (apply py_eq_refl; exact Hn).
  fold (bucket name d). repeat split.
  - destruct (set_mem port (bucket name d)) eqn:M; [exact M|].
    unfold set_mem. cbn [existsb]. rewrite py_eq_refl by exact Hp. reflexivity.
  - intros port' Hne. destruct (set_mem port (bucket name d)); [reflexivity|].
    unfold set_mem. cbn [existsb]. rewrite Hne. reflexivity.
  - intros name' Hn' Hne. rewrite dict_find_set_other by assumption. reflexivity.
Qed.

Lemma do_advertise_lookup_witness :
  hashable svc = true /\ hashable port_9006 = true /\
  set_mem port_9006
    (bucket svc (_services_to_advertise
                   (snd (fst (do_advertise svc port_9006 VNone advertising_svc))))) = true.
Proof.
  split; [reflexivity|]. split; [reflexivity|].
  exact (proj1 (do_advertise_lookup svc port_9006 VNone advertising_svc eq_refl eq_refl)).
Defined.

(** The table after a [do_unadvertise] that finds the pair. *)
Lemma do_unadvertise_table name port ip b :
  hashable name = true -> hashable port = true ->
  set_mem port (bucket name (_services_to_advertise b)) = true ->
  do_unadvertise name port ip b =
    (Ok VNone,
     mkBeacon (match filter (fun y => negb (py_eq port y))
                            (bucket name (_services_to_advertise b)) with
               | [] => dict_del name (_services_to_advertise b)
               | y :: s => dict_set name (y :: s) (_services_to_advertise b)
               end)
              (_services_found b) (rpc b) (socket b),
     [Log DEBUG "Unadvertise %s on %s" [LVal name; LVal port]]).
Proof.
  intros Hn Hp Hm. unfold bucket in *.
  destruct (dict_find name (_services_to_advertise b)) as [[|x s]|] eqn:E;
    try discriminate Hm.
  destruct (do_unadvertise_present name port ip b x s Hn Hp E Hm) as [H _].
  rewrite H. destruct (filter _ (x :: s)); reflexivity.
Qed.

(** X2: [do_unadvertise(name, port)] of an advertised pair returns [None]
    and takes the port, and nothing else, out of the table: the port is no
    longer in the bucket of the name, whether another port is in it is what
    it was, and so is the bucket of another name. *)
Theorem do_unadvertise_lookup name port ip b :
  table_ok (_services_to_advertise b) ->
  hashable name = true ->
  hashable port = true ->
  set_mem port (bucket name (_services_to_advertise b)) = true ->
  let d := _services_to_advertise b in
  let d' := _services_to_advertise (snd (fst (do_unadvertise name port ip b))) in
  fst (fst (do_unadvertise name port ip b)) = Ok VNone /\
  set_mem port (bucket name d') = false /\
  (forall port', hashable port' = true -> py_eq port' port = false ->
                 set_mem port' (bucket name d') = set_mem port' (bucket name d)) /\
  (forall name', hashable name' = true -> py_eq name' name = false ->
                 bucket name' d' = bucket name' d).
Proof.
  intros Hok Hn Hp Hm d d'. unfold d'.
  rewrite (do_unadvertise_table name port ip b Hn Hp Hm). cbn [fst snd _services_to_advertise].
  fold d. split; [reflexivity|].
  assert (bucket name
            (match filter (fun y => negb (py_eq port y)) (bucket name d) with
             | [] => dict_del name d
             | y :: s => dict_set name (y :: s) d
             end) = filter (fun y => negb (py_eq port y)) (bucket name d)) as Hb.
  { destruct (filter (fun y => negb (py_eq port y)) (bucket name d)) as [|y s] eqn:F.
    - unfold bucket at 1. destruct Hok as (Hk & Hh & _). rewrite dict_find_del by assumption.
      reflexivity.
    - unfold bucket at 1. rewrite dict_find_set_same by (apply py_eq_refl; exact Hn).
      reflexivity. }
  rewrite Hb. repeat split.
  - apply set_mem_filter_self.
  - intros port' Hp' Hne. apply set_mem_filter_other; assumption.
  - intros name' Hn' Hne. unfold bucket at 1 3.
    destruct (filter (fun y => negb (py_eq port y)) (bucket name d)).
    + rewrite dict_find_del_other by assumption. reflexivity.
    + rewrite dict_find_set_other by assumption. reflexivity.
Qed.

Lemma do_unadvertise_lookup_witness :
  table_ok (_services_to_advertise advertising_svc) /\
  hashable svc = true /\ hashable port_9005 = true /\
  set_mem port_9005 (bucket svc (_services_to_advertise advertising_svc)) = true /\
  fst (fst (do_unadvertise svc port_9005 VNone advertising_svc)) = Ok VNone /\
  set_mem port_9005
    (bucket svc (_services_to_advertise
                   (snd (fst (do_unadvertise svc port_9005 VNone advertising_svc))))) = false.
Proof.
  assert (table_ok (_services_to_advertise advertising_svc)) as H.
  { repeat split; try (repeat constructor); discriminate. }
  split; [exact H|]. split; [reflexivity|]. split; [reflexivity|]. split; [reflexivity|].
  pose proof (do_unadvertise_lookup svc port_9005 VNone advertising_svc H
                eq_refl eq_refl eq_refl) as T.
  split; [exact (proj1 T) | exact (proj1 (proj2 T))].
Defined.

(** The table after a port is added to a bucket that did not hold it and
    removed again.  The name must not stand for an empty bucket: that one
    would be deleted at the end. *)
Lemma table_round_trip name port (d : pydict pyset) :
  dict_find name d <> Some [] ->
  hashable name = true ->
  hashable port = true ->
  set_mem port (bucket name d) = false ->
  let d1 := fst (setdefault_add name port d) in
  set_mem port (bucket name d1) = true /\
  match filter (fun y => negb (py_eq port y)) (bucket name d1) with
  | [] => dict_del name d1
  | y :: s => dict_set name (y :: s) d1
  end = d.
Proof.
  intros Hne Hn Hp Hm d1.
  assert (d1 = dict_set name (port :: bucket name d) d) as Hd1.
  { unfold d1. rewrite setdefault_add_hashable by assumption.
    cbn [fst]. fold (bucket name d). rewrite Hm. reflexivity. }
  assert (bucket name d1 = port :: bucket name d) as Hb1.
  { rewrite Hd1. unfold bucket at 1.
    rewrite dict_find_set_same by (apply py_eq_refl; exact Hn). reflexivity. }
  split.
  { rewrite Hb1. unfold set_mem. cbn [existsb]. rewrite py_eq_refl by exact Hp. reflexivity. }
  rewrite Hb1. cbn [filter]. rewrite py_eq_refl by exact Hp. cbn [negb].
  rewrite filter_keeps_all by exact Hm. rewrite Hd1.
  unfold bucket. destruct (dict_find name d) as [[|y s]|] eqn:E;
    [exfalso; apply Hne; reflexivity| |].
  - rewrite dict_set_set by (apply py_eq_refl; exact Hn).
    apply dict_set_same_value. exact E.
  - apply dict_del_set_new; [apply py_eq_refl; exact Hn | exact E].
Qed.

(** X3: advertising a pair that is not advertised and unadvertising it
    again gives the advertisement set back as it was, unless the name stood
    for an empty bucket before (as an advertise with an unhashable port
    leaves one): the pair must be hashable and the name must not map to the
    empty set. *)
Theorem advertise_then_unadvertise name port ip ip' b :
  dict_find name (_services_to_advertise b) <> Some [] ->
  hashable name = true ->
  hashable port = true ->
  set_mem port (bucket name (_services_to_advertise b)) = false ->
  let b1 := snd (fst (do_advertise name port ip b)) in
  fst (fst (do_unadvertise name port ip' b1)) = Ok VNone /\
  _services_to_advertise (snd (fst (do_unadvertise name port ip' b1)))
    = _services_to_advertise b.
Proof.
  intros Hne Hn Hp Hm b1.
  destruct (table_round_trip name port _ Hne Hn Hp Hm) as [Hm1 Hd].
  rewrite <- do_advertise_table with (ip := ip) in Hm1, Hd. fold b1 in Hm1, Hd.
  rewrite (do_unadvertise_table name port ip' b1 Hn Hp Hm1).
  cbn [fst snd _services_to_advertise]. split; [reflexivity | exact Hd].
Qed.

Lemma advertise_then_unadvertise_witness :
  dict_find svc (_services_to_advertise advertising_svc) <> Some [] /\
  hashable svc = true /\ hashable port_9006 = true /\
  set_mem port_9006 (bucket svc (_services_to_advertise advertising_svc)) = false /\
  _services_to_advertise
    (snd (fst (do_unadvertise svc port_9006 VNone
                 (snd (fst (do_advertise svc port_9006 VNone advertising_svc))))))
    = _services_to_advertise advertising_svc.
Proof.
  assert (dict_find svc (_services_to_advertise advertising_svc) <> Some []) as H
      by discriminate.
  split; [exact H|]. split; [reflexivity|]. split; [reflexivity|]. split; [reflexivity|].
  exact (proj2 (advertise_then_unadvertise svc port_9006 VNone VNone advertising_svc H
                  eq_refl eq_refl eq_refl)).
Defined.

(** X4: advertising a pair a second time changes nothing: the table after
    two calls is the table after one. *)
Theorem do_advertise_twice name port ip ip' b :
  hashable name = true ->
  hashable port = true ->
  let b1 := snd (fst (do_advertise name port ip b)) in
  _services_to_advertise (snd (fst (do_advertise name port ip' b1)))
    = _services_to_advertise b1.
Proof.
  intros Hn Hp b1. unfold b1. rewrite !do_advertise_table.
  apply setdefault_add_twice; assumption.
Qed.

Lemma do_advertise_twice_witness :
  hashable svc = true /\ hashable port_9006 = true /\
  _services_to_advertise
    (snd (fst (do_advertise svc port_9006 VNone
                 (snd (fst (do_advertise svc port_9006 VNone advertising_svc))))))
    = _services_to_advertise (snd (fst (do_advertise svc port_9006 VNone advertising_svc))).
Proof.
  split; [reflexivity|]. split; [reflexivity|].
  exact (do_advertise_twice svc port_9006 VNone VNone advertising_svc eq_refl eq_refl).
Defined.

(** ** Addresses *)

(** X5: [split_address] cuts at the first colon: the text is the ip, a
    colon and the port, and the ip holds no colon; a text with no colon is
    all port, and the ip is [None]. *)
Theorem split_address_parts address :
  match split_address address with
  | (VStr ip, port) => address = ip ++ 58%N :: port /\ ~ In 58%N ip
  | (VNone, port) => port = address /\ ~ In 58%N address
  | _ => False
  end.
Proof.
  unfold split_address. pose proof (partition_colon_spec address) as H.
  destruct (partition_colon address) as [[ip port]|]; [exact H | split; [reflexivity | exact H]].
Qed.

(** ** What the beacon hears *)

(** X6: a datagram whose first 256 bytes decode to a pair [[name, port]]
    is stored as the pair of the sender's address and that port in the
    bucket of the name; nothing else in the instance changes, and hearing
    the same datagram from the same sender again changes nothing at all. *)
Theorem check_for_adverts_stores payload ip sport name port b :
  unpack (firstn beacon_message_size payload) = Ok (VList [name; port]) ->
  hashable name = true ->
  hashable port = true ->
  let endpoint := VTuple [VStr ip; port] in
  let out := check_for_adverts (Datagram payload (ip, sport)) b in
  let b' := snd (fst out) in
  fst (fst out) = Ok tt /\
  set_mem endpoint (bucket name (_services_found b')) = true /\
  _services_to_advertise b' = _services_to_advertise b /\
  rpc b' = rpc b /\ socket b' = socket b /\
  snd (fst (check_for_adverts (Datagram payload (ip, sport)) b')) = b'.
Proof.
  intros Hu Hn Hp endpoint out b'.
  assert (hashable endpoint = true) as He by (cbn; rewrite Hp; reflexivity).
  pose proof (fun b0 => check_for_adverts_step payload ip sport name port b0 Hu Hn Hp) as Hstep.
  fold endpoint in Hstep.
  unfold b', out. rewrite (Hstep b). cbn [fst snd _services_to_advertise rpc socket].
  repeat split.
  - cbn [_services_found]. apply setdefault_add_mem; assumption.
  - rewrite Hstep. cbn [fst snd _services_to_advertise _services_found rpc socket].
    rewrite setdefault_add_twice by assumption. reflexivity.
Qed.

Lemma check_for_adverts_stores_witness :
  unpack (firstn beacon_message_size advert_svc) = Ok (VList [svc; port_9005]) /\
  hashable svc = true /\ hashable port_9005 = true /\
  fst (fst (check_for_adverts (Datagram advert_svc from_peer) Beacon__init__)) = Ok tt /\
  set_mem peer_svc
    (bucket svc (_services_found
                   (snd (fst (check_for_adverts (Datagram advert_svc from_peer)
                                                Beacon__init__))))) = true.
Proof.
  assert (unpack (firstn beacon_message_size advert_svc) = Ok (VList [svc; port_9005])) as H
      by (vm_compute; reflexivity).
  split; [exact H|]. split; [reflexivity|]. split; [reflexivity|].
  pose proof (check_for_adverts_stores advert_svc (u "192.168.1.5") 9999%Z svc port_9005
                Beacon__init__ H eq_refl eq_refl) as T.
  split; [exact (proj1 T) | exact (proj1 (proj2 T))].
Defined.

(** ** The wire format, further *)

Lemma join_ext {A} (f g : A -> outcome pystr) sep l :
  Forall (fun x => f x = g x) l -> join f sep l = join g sep l.
Proof.
  induction 1 as [|x l Hx Hl IH]; [reflexivity|].
  rewrite !join_cons, Hx, IH. reflexivity.
Qed.

Lemma join_map {A B} (h : A -> B) (f : B -> outcome pystr) sep l :
  join f sep (map h l) = join (fun x => f (h x)) sep l.
Proof.
  induction l as [|x l IH]; [reflexivity|].
  cbn [map]. rewrite !join_cons, IH. destruct l; reflexivity.
Qed.

(** The encoder does not tell a tuple from a list. *)
Lemma dumps_listify v : dumps (listify v) = dumps v.
Proof.
  induction v as [| b | z | s | l IH | l IH | items IH] using pyval_rect';
    try reflexivity.
  - cbn [listify]. rewrite !dumps_list, join_map. f_equal. apply join_ext. exact IH.
  - cbn [listify]. change (dumps (VTuple l)) with (dumps (VList l)).
    rewrite !dumps_list, join_map. f_equal. apply join_ext. exact IH.
  - cbn [listify]. rewrite !dumps_dict, join_map. f_equal. apply join_ext.
    rewrite Forall_forall in *. intros [k x] Hin.
    pose proof (proj2 (IH _ Hin)) as Hx. cbn [snd] in Hx.
    cbv beta iota. unfold item_text. rewrite Hx. reflexivity.
Qed.

(** X7: a value in which tuples stand where JSON has lists comes back from
    the wire with every tuple turned into the list of its members, and
    otherwise as it went. *)
Theorem unpack_pack_listify v :
  native (listify v) -> obind (pack v) unpack = Ok (listify v).
Proof.
  intros Hn. destruct (unpack_pack (listify v) Hn) as (m & Hp & Hu).
  unfold pack in *. rewrite dumps_listify in Hp. rewrite Hp. exact Hu.
Qed.

Lemma unpack_pack_listify_witness :
  native (listify localhost_9005) /\
  obind (pack localhost_9005) unpack = Ok (VList [VStr (u "127.0.0.1"); port_9005]).
Proof.
  assert (native (listify localhost_9005)) as H.
  { cbn. repeat split; try exact I; try reflexivity;
      try (intros H; vm_compute in H; discriminate H). }
  split; [exact H|]. exact (unpack_pack_listify localhost_9005 H).
Defined.

(** X8: whatever [pack] returns is ASCII: no byte of a frame is above
    127, whatever characters the value holds. *)
Theorem pack_is_ascii v message : pack v = Ok message -> is_ascii message.
Proof.
  unfold pack. destruct (dumps v) as [t| | |] eqn:E; try discriminate. cbn [obind].
  pose proof (dumps_ascii v t E) as Ha.
  unfold str_encode, config.ENCODING. cbn [String.eqb Ascii.eqb Bool.eqb].
  rewrite (utf8_encode_ascii t Ha). intros H. injection H as <-. exact Ha.
Qed.

Lemma pack_is_ascii_witness :
  pack lone_surrogates = Ok (wire "'\ud83d\ude00'") /\
  is_ascii (wire "'\ud83d\ude00'").
Proof.
  assert (pack lone_surrogates = Ok (wire "'\ud83d\ude00'")) as H by (vm_compute; reflexivity).
  split; [exact H|]. exact (pack_is_ascii lone_surrogates _ H).
Defined.

(** ** From one beacon to another *)

(** X9: [advertise_names] sends a datagram for an advertised pair of
    texts, and a beacon that receives it whole (it fits in 256 bytes) has
    the pair of the sender's address and the port under the name
    afterwards. *)
Theorem broadcast_is_heard name port sender :
  text_ok name ->
  text_ok port ->
  table_ok (_services_to_advertise sender) ->
  In (VStr name, VStr port) (pairs_of (_services_to_advertise sender)) ->
  exists frames l datagram,
    advertise_names sender = (Ok tt, broadcast frames sender, l) /\
    In (datagram, ("255.255.255.255"%string, beacon_port)) frames /\
    (List.length datagram <= beacon_message_size ->
     forall ip sport receiver,
       set_mem (VTuple [VStr ip; VStr port])
         (bucket (VStr name)
            (_services_found
               (snd (fst (check_for_adverts (Datagram datagram (ip, sport)) receiver)))))
       = true).
Proof.
  intros Hname Hport Hok Hin.
  destruct (advertise_names_sends sender Hok) as (frames & l & E & F).
  destruct (Forall2_In_left _ _ _ (VStr name, VStr port) F Hin) as ([m dest] & Hm & Hp & Hd).
  cbn [fst snd] in Hp, Hd. subst dest.
  exists frames, l, m. split; [exact E|]. split; [exact Hm|].
  intros Hlen ip sport receiver.
  assert (native (VList [VStr name; VStr port])) as Hn
      by (cbn [native]; repeat split; assumption).
  destruct (unpack_pack _ Hn) as (m' & Hp' & Hu). rewrite Hp in Hp'. injection Hp' as <-.
  assert (unpack (firstn beacon_message_size m) = Ok (VList [VStr name; VStr port])) as Hu'
      by (rewrite firstn_all2 by exact Hlen; exact Hu).
  rewrite (check_for_adverts_step m ip sport (VStr name) (VStr port) receiver Hu' eq_refl eq_refl).
  cbn [fst snd _services_found]. apply setdefault_add_mem; reflexivity.
Qed.

Lemma broadcast_is_heard_witness :
  text_ok (u "svc") /\ text_ok (u "9005") /\
  table_ok (_services_to_advertise advertising_svc) /\
  In (svc, port_9005) (pairs_of (_services_to_advertise advertising_svc)) /\
  exists frames l datagram,
    advertise_names advertising_svc = (Ok tt, broadcast frames advertising_svc, l) /\
    In (datagram, ("255.255.255.255"%string, beacon_port)) frames /\
    (List.length datagram <= beacon_message_size ->
     forall ip sport receiver,
       set_mem (VTuple [VStr ip; port_9005])
         (bucket svc
            (_services_found
               (snd (fst (check_for_adverts (Datagram datagram (ip, sport)) receiver)))))
       = true).
Proof.
  assert (text_ok (u "svc")) as H1 by (apply is_ascii_text_ok; repeat constructor).
  assert (text_ok (u "9005")) as H2 by (apply is_ascii_text_ok; repeat constructor).
  assert (table_ok (_services_to_advertise advertising_svc)) as H3.
  { repeat split; try (repeat constructor); discriminate. }
  assert (In (svc, port_9005) (pairs_of (_services_to_advertise advertising_svc))) as H4
      by (left; reflexivity).
  split; [exact H1|]. split; [exact H2|]. split; [exact H3|]. split; [exact H4|].
  exact (broadcast_is_heard (u "svc") (u "9005") advertising_svc H1 H2 H3 H4).
Defined.

(** X10: a beacon that knew nothing under a name and hears an advert for
    it answers the next [do_discover] for the name at the first pass,
    whatever the wait, with the pair of the sender's address and the
    advertised port. *)
Theorem heard_then_discovered w fuel payload ip sport name port z b :
  unpack (firstn beacon_message_size payload) = Ok (VList [name; port]) ->
  hashable name = true ->
  hashable port = true ->
  bucket name (_services_found b) = [] ->
  randbelow w 1 = 0 ->
  let b' := snd (fst (check_for_adverts (Datagram payload (ip, sport)) b)) in
  do_discover w (S fuel) name (VInt z) b' =
    (Ok (VTuple [VStr ip; port]), b',
     [Log DEBUG "Discover %s waiting for %s secs" [LVal name; LVal (VInt z)]]).
Proof.
  intros Hu Hn Hp Hb Hr b'.
  assert (_services_found b' =
          dict_set name [VTuple [VStr ip; port]] (_services_found b)) as Hf.
  { unfold b', check_for_adverts. unfold_M. rewrite Hu. cbn [unpack2 fst snd].
    rewrite setdefault_add_hashable by (try assumption; cbn; rewrite Hp; reflexivity).
    cbn [fst snd _services_found]. fold (bucket name (_services_found b)). rewrite Hb.
    reflexivity. }
  rewrite do_discover_unfold, discover_loop_step by exact Hn.
  rewrite Hf, dict_find_set_same by (apply py_eq_refl; exact Hn).
  unfold random_choice. cbn [List.length]. rewrite Hr. reflexivity.
Qed.

Lemma heard_then_discovered_witness :
  unpack (firstn beacon_message_size advert_svc) = Ok (VList [svc; port_9005]) /\
  hashable svc = true /\ hashable port_9005 = true /\
  bucket svc (_services_found Beacon__init__) = [] /\
  randbelow quiet_world 1 = 0 /\
  fst (fst (do_discover quiet_world 1 svc (VInt (-1))
              (snd (fst (check_for_adverts (Datagram advert_svc from_peer) Beacon__init__)))))
    = Ok peer_svc.
Proof.
  assert (unpack (firstn beacon_message_size advert_svc) = Ok (VList [svc; port_9005])) as H
      by (vm_compute; reflexivity).
  split; [exact H|]. split; [reflexivity|]. split; [reflexivity|]. split; [reflexivity|].
  split; [reflexivity|].
  exact (f_equal (fun r => fst (fst r))
           (heard_then_discovered quiet_world 0 advert_svc (u "192.168.1.5") 9999%Z svc
              port_9005 (-1) Beacon__init__ H eq_refl eq_refl eq_refl eq_refl)).
Defined.

(** ** The module's functions through the control channel *)

(** A request that the serving beacon answers: the caller gets the result
    as JSON gives it back, tuples as lists, and the beacon is the handler's
    state with the reply sent. *)
Lemma rpc_answers w fuel action args p b fname handler result b1 l1 :
  native (VList (VStr action :: args)) ->
  serving p = Some b ->
  getattr (u "do_" ++ lower action) (do_methods w fuel) = Some (fname, handler) ->
  handler args b = (Ok result, b1, l1) ->
  rpc b1 = rpc b ->
  native (listify result) ->
  exists reply l,
    pack result = Ok reply /\
    _rpc w fuel action args p = (Ok (listify result), set_serving (sent reply b1) p, l).
Proof.
  intros Hn Hserv Hg Hh Hrpc Hres.
  destruct (unpack_pack _ Hn) as (request & Hp & Hu).
  destruct (unpack_pack _ Hres) as (reply & Hrp & Hru).
  assert (pack result = Ok reply) as Hrp'.
  { unfold pack in *. rewrite <- dumps_listify. exact Hrp. }
  pose proof (answered w fuel false request action args b fname handler Hu Hg
                _ _ _ reply Hh Hrp') as Ha.
  exists reply. eexists. split; [exact Hrp'|].
  unfold _rpc. rewrite Hp, Hserv, Ha.
  cbn [sent rpc]. rewrite Hrpc, nth_error_app2 by apply le_n.
  rewrite Nat.sub_diag. cbn [nth_error]. rewrite Hru. reflexivity.
Qed.

(** A request at which the handler raises: the beacon sends no reply, and
    the caller is left in [recv]. *)
Lemma rpc_unanswered w fuel action args p b fname handler e b1 l1 :
  native (VList (VStr action :: args)) ->
  serving p = Some b ->
  getattr (u "do_" ++ lower action) (do_methods w fuel) = Some (fname, handler) ->
  handler args b = (Raise e, b1, l1) ->
  exists l, _rpc w fuel action args p = (Unfinished, set_serving b1 p, l).
Proof.
  intros Hn Hserv Hg Hh.
  destruct (unpack_pack _ Hn) as (request & Hp & Hu).
  unfold _rpc. rewrite Hp, Hserv.
  rewrite (check_for_commands_frame w fuel false _ _ _ b Hu), Hg.
  unfold_M. rewrite Hh. eexists. reflexivity.
Qed.

(** X11: [discover] of a name under which the serving beacon holds
    endpoints returns at once, whatever the wait, and what it returns is the
    drawn endpoint as the two-element list [[ip, port]], the tuple of the
    beacon having gone through JSON; the beacon is as it was but for the
    reply on its control channel. *)
Theorem discover_returns_list w fuel ports_free name z p b x s ip port :
  text_ok name -> text_ok ip -> text_ok port ->
  serving (fst (start_beacon ports_free p)) = Some b ->
  dict_find (VStr name) (_services_found b) = Some (x :: s) ->
  nth_error (x :: s) (randbelow w (List.length (x :: s))) = Some (VTuple [VStr ip; VStr port]) ->
  exists reply p' l,
    pack (VTuple [VStr ip; VStr port]) = Ok reply /\
    discover w (S fuel) ports_free (VStr name) (VInt z) p
      = (Ok (VList [VStr ip; VStr port]), p', l) /\
    serving p' = Some (sent reply b).
Proof.
  intros Hname Hip Hport Hserv Hf Hdraw.
  unfold discover. destruct (start_beacon ports_free p) as [p1 l1]. cbn [fst] in Hserv.
  assert (native (VList [VStr (u "discover"); VStr name; VInt z])) as Hn.
  { cbn [native]. split; [apply is_ascii_text_ok; repeat constructor|]. auto. }
  assert (call_do_discover w (S fuel) [VStr name; VInt z] b
          = (Ok (VTuple [VStr ip; VStr port]), b,
             [Log DEBUG "Discover %s waiting for %s secs" [LVal (VStr name); LVal (VInt z)]]))
    as Hh.
  { cbn [call_do_discover]. rewrite do_discover_unfold, discover_loop_step by reflexivity.
    rewrite Hf. unfold random_choice. rewrite Hdraw. reflexivity. }
  destruct (rpc_answers w (S fuel) (u "discover") [VStr name; VInt z] p1 b
              "do_discover"%string (call_do_discover w (S fuel)) _ _ _
              Hn Hserv (getattr_do w (S fuel) _) Hh eq_refl)
    as (reply & l & Hp & E).
  { cbn [listify map native]. auto. }
  rewrite E. exists reply. eexists _, _. split; [exact Hp|]. split; [reflexivity|].
  apply serving_set_serving.
Qed.

Lemma discover_returns_list_witness :
  text_ok (u "svc") /\ text_ok (u "127.0.0.1") /\ text_ok (u "9005") /\
  exists reply p' l,
    pack localhost_9005 = Ok reply /\
    discover quiet_world 1 true svc (VInt 5) (mkProcess (Started discovered_svc) None [])
      = (Ok (VList [VStr (u "127.0.0.1"); port_9005]), p', l) /\
    serving p' = Some (sent reply discovered_svc).
Proof.
  assert (text_ok (u "svc")) as H1 by (apply is_ascii_text_ok; repeat constructor).
  assert (text_ok (u "127.0.0.1")) as H2 by (apply is_ascii_text_ok; repeat constructor).
  assert (text_ok (u "9005")) as H3 by (apply is_ascii_text_ok; repeat constructor).
  split; [exact H1|]. split; [exact H2|]. split; [exact H3|].
  exact (discover_returns_list quiet_world 0 true (u "svc") 5
           (mkProcess (Started discovered_svc) None []) discovered_svc
           localhost_9005 [] (u "127.0.0.1") (u "9005") H1 H2 H3 eq_refl eq_refl eq_refl).
Defined.

(** X12: [discover] with a negative wait of a name under which the serving
    beacon holds nothing returns [None], the beacon having replied [null];
    the clock is assumed not to run backwards. *)
Theorem discover_unknown_name w fuel ports_free name z p b :
  text_ok name ->
  serving (fst (start_beacon ports_free p)) = Some b ->
  bucket (VStr name) (_services_found b) = [] ->
  (z < 0)%Z ->
  (time_time w 0 <= time_time w 1)%Q ->
  exists p' l,
    discover w (S fuel) ports_free (VStr name) (VInt z) p = (Ok VNone, p', l) /\
    serving p' = Some (sent (wire "null") b).
Proof.
  intros Hname Hserv Hb Hz Hclock.
  unfold discover. destruct (start_beacon ports_free p) as [p1 l1]. cbn [fst] in Hserv.
  assert (native (VList [VStr (u "discover"); VStr name; VInt z])) as Hn.
  { cbn [native]. split; [apply is_ascii_text_ok; repeat constructor|]. auto. }
  assert (call_do_discover w (S fuel) [VStr name; VInt z] b
          = (Ok VNone, b,
             [Log DEBUG "Discover %s waiting for %s secs" [LVal (VStr name); LVal (VInt z)];
              Log WARNING "%s not discovered after %s secs"
                  [LVal (VStr name); LVal (VInt z)]]))
    as Hh.
  { cbn [call_do_discover]. rewrite do_discover_unfold, discover_loop_step by reflexivity.
    assert (negb (Qle_bool (time_time w 1) (deadline w z)) = true) as Hd.
    { destruct (Qle_bool (time_time w 1) (deadline w z)) eqn:E; [|reflexivity].
      apply Qle_bool_iff in E. unfold deadline in E. exfalso.
      assert (inject_Z z < 0)%Q as Hq by (rewrite (Zlt_Qlt z 0) in Hz; exact Hz).
      lra. }
    rewrite Hd. unfold bucket in Hb.
    destruct (dict_find (VStr name) (_services_found b)) as [[|y t]|];
      [reflexivity | discriminate Hb | reflexivity]. }
  destruct (rpc_answers w (S fuel) (u "discover") [VStr name; VInt z] p1 b
              "do_discover"%string (call_do_discover w (S fuel)) _ _ _
              Hn Hserv (getattr_do w (S fuel) _) Hh eq_refl I)
    as (reply & l & Hp & E).
  rewrite E. injection Hp as <-. eexists _, _. split; [reflexivity|].
  apply serving_set_serving.
Qed.

Lemma discover_unknown_name_witness :
  text_ok (u "svc") /\ (-1 < 0)%Z /\
  (time_time quiet_world 0 <= time_time quiet_world 1)%Q /\
  exists p' l,
    discover quiet_world 1 true svc (VInt (-1)) no_process = (Ok VNone, p', l) /\
    serving p' = Some (sent (wire "null") Beacon__init__).
Proof.
  assert (text_ok (u "svc")) as H1 by (apply is_ascii_text_ok; repeat constructor).
  assert (time_time quiet_world 0 <= time_time quiet_world 1)%Q as Hc
      by (vm_compute; discriminate).
  split; [exact H1|]. split; [reflexivity|]. split; [exact Hc|].
  exact (discover_unknown_name quiet_world 0 true (u "svc") (-1) no_process Beacon__init__
           H1 eq_refl eq_refl eq_refl Hc).
Defined.

Lemma start_beacon_started ports_free p : _beacon (fst (start_beacon ports_free p)) <> PyNone.
Proof.
  unfold start_beacon. destruct (_beacon p) eqn:E; cbn [fst]; try (rewrite E; discriminate).
  destruct (Beacon_new ports_free); discriminate.
Qed.

Lemma start_beacon_again ports_free p : _beacon p <> PyNone -> start_beacon ports_free p = (p, []).
Proof. unfold start_beacon. destruct (_beacon p); [contradiction | reflexivity | reflexivity]. Qed.

Lemma set_serving_started b p : _beacon p <> PyNone -> _beacon (set_serving b p) <> PyNone.
Proof. unfold set_serving. destruct (_beacon p); [contradiction | discriminate | discriminate]. Qed.

Lemma atexit_set_serving b p : atexit (set_serving b p) = atexit p.
Proof. unfold set_serving. destruct (_beacon p); reflexivity. Qed.

Lemma atexit_start_beacon ports_free p : atexit (fst (start_beacon ports_free p)) = atexit p.
Proof.
  unfold start_beacon. destruct (_beacon p); try reflexivity.
  destruct (Beacon_new ports_free); reflexivity.
Qed.

(** What [advertise] leaves: the result, the beacon, and the exit hook with
    its three arguments. *)
Lemma advertise_process w fuel ports_free name address p b :
  text_ok name ->
  text_ok (str w address) ->
  serving (fst (start_beacon ports_free p)) = Some b ->
  let ip := fst (split_address (str w address)) in
  let port := snd (split_address (str w address)) in
  exists p' l reply,
    advertise w fuel ports_free (VStr name) address p
      = (Ok (VStr (name ++ u "!!")), p', l) /\
    _beacon p' <> PyNone /\
    serving p' =
      Some (sent reply
              (mkBeacon (fst (setdefault_add (VStr name) (VStr port)
                                             (_services_to_advertise b)))
                        (_services_found b) (rpc b) (socket b))) /\
    atexit p' = atexit p ++ [Hook "unadvertise" [VStr name; VStr port; ip]].
Proof.
  intros Hname Haddr Hserv ip port.
  destruct (split_address_text_ok (str w address) Haddr) as [Hip Hport].
  pose proof (start_beacon_started ports_free p) as Hst.
  pose proof (atexit_start_beacon ports_free p) as Hat.
  unfold advertise. subst ip port.
  destruct (start_beacon ports_free p) as [p1 l1]. cbn [fst] in Hserv, Hst, Hat.
  destruct (split_address (str w address)) as [ip port]. cbn [fst snd] in *.
  destruct (rpc_advertise w fuel name port ip p1 b Hname Hport Hip Hserv) as (l2 & ->).
  eexists _, _, _. split; [reflexivity|]. cbn [_beacon atexit].
  split; [apply set_serving_started; exact Hst|].
  split; [cbn [serving _beacon loopback]; apply serving_set_serving|].
  rewrite atexit_set_serving, Hat. reflexivity.
Qed.

Lemma keeps_bind {A B} (m : M A) (k : A -> M B) :
  keeps_advertised m -> (forall a, keeps_advertised (k a)) -> keeps_advertised (bind m k).
Proof.
  intros Hm Hk b. unfold bind. specialize (Hm b).
  destruct (m b) as [[o b1] l1]. cbn [fst snd] in Hm.
  destruct o; cbn [fst snd]; try exact Hm.
  specialize (Hk a b1). destruct (k a b1) as [[o2 b2] l2]. cbn [fst snd] in *.
  rewrite Hk. exact Hm.
Qed.

Lemma keeps_each {A} (body : A -> M unit) l :
  (forall x, keeps_advertised (body x)) -> keeps_advertised (each body l).
Proof.
  intros Hbody. induction l as [|x l IH]; [intros b; reflexivity|].
  cbn [each]. apply keeps_bind; [apply Hbody | intros _; exact IH].
Qed.

Lemma advertise_names_keeps_advertised : keeps_advertised advertise_names.
Proof.
  unfold advertise_names. intros b. unfold bind at 1. unfold get_advertised. cbv beta iota.
  match goal with |- context [each ?f ?l b] => pose proof (keeps_each f l) as H end.
  match type of H with ?P -> _ => assert P as HP end.
  { intros [n ports]. apply keeps_each. intros port b2.
    unfold_M. destruct (pack (VList [n; port])); reflexivity. }
  specialize (H HP b).
  destruct (each _ (_services_to_advertise b) b) as [[o b1] l1]. cbn [fst snd] in *.
  destruct o; exact H.
Qed.

Lemma check_for_adverts_keeps_advertised p : keeps_advertised (check_for_adverts p).
Proof.
  intros b. unfold check_for_adverts. destruct p as [|payload [ip sport]]; [reflexivity|].
  unfold_M. destruct (unpack (firstn beacon_message_size payload)) as [v| | |]; try reflexivity.
  cbn [fst snd]. destruct (unpack2 v) as [[service_name service_port]| | |]; try reflexivity.
  cbn [fst snd].
  destruct (setdefault_add service_name (VTuple [VStr ip; service_port]) (_services_found b))
    as [d' r]. destruct r; reflexivity.
Qed.

(** Turns in which no command waits leave the advertisement set alone. *)
Lemma run_loop_keeps_advertised w fuel cycles :
  Forall (fun c => command c = EAGAIN) cycles ->
  forall t0, keeps_advertised (run_loop w fuel cycles t0).
Proof.
  induction 1 as [|c cycles Hc _ IH]; intros t0; [intros b; reflexivity|].
  cbn [run_loop]. apply keeps_bind; [|intros t0'; apply IH].
  unfold run_cycle. rewrite Hc. cbn [check_for_commands].
  apply keeps_bind; [intros b; reflexivity|]. intros _.
  apply keeps_bind.
  - destruct (negb (Qle_bool (now c) (t0 + interval_secs))).
    + apply keeps_bind; [exact advertise_names_keeps_advertised | intros _ b; reflexivity].
    + intros b; reflexivity.
  - intros t0'. apply keeps_bind; [apply check_for_adverts_keeps_advertised|].
    intros _ b; reflexivity.
Qed.

(** X13: [advertise(name, address)] of a pair that is not advertised,
    whose name does not stand for an empty bucket, followed by
    [unadvertise(name, address)]: whatever the beacon broadcasts and hears
    in the turns it makes between the two requests, as long as these end
    normally, [unadvertise] returns [None] and the serving beacon has the
    advertisement set it had before the two calls. *)
Theorem advertise_unadvertise_round_trip w fuel ports_free ports_free' name address p b :
  text_ok name ->
  text_ok (str w address) ->
  serving (fst (start_beacon ports_free p)) = Some b ->
  dict_find (VStr name) (_services_to_advertise b) <> Some [] ->
  set_mem (VStr (snd (split_address (str w address))))
          (bucket (VStr name) (_services_to_advertise b)) = false ->
  exists p1 l1 b1,
    advertise w fuel ports_free (VStr name) address p = (Ok (VStr (name ++ u "!!")), p1, l1) /\
    serving p1 = Some b1 /\
    forall between t0 b1' l,
      Forall (fun c => command c = EAGAIN) between ->
      run_loop w fuel between t0 b1 = (Ok tt, b1', l) ->
      exists p2 l2 b2,
        unadvertise w fuel ports_free' (VStr name) address (set_serving b1' p1)
          = (Ok VNone, p2, l2) /\
        serving p2 = Some b2 /\
        _services_to_advertise b2 = _services_to_advertise b.
Proof.
  intros Hname Haddr Hserv Hne Hm.
  destruct (advertise_process w fuel ports_free name address p b Hname Haddr Hserv)
    as (p1 & l1 & reply & Ha & Hst & Hs1 & _).
  destruct (split_address_text_ok (str w address) Haddr) as [Hip Hport].
  exists p1, l1. eexists. split; [exact Ha|]. split; [exact Hs1|].
  intros between t0 b1' l Hq Hrun.
  match type of Hrun with
  | run_loop _ _ _ _ ?b0 = _ =>
      pose proof (run_loop_keeps_advertised w fuel between Hq t0 b0) as Hk
  end.
  rewrite Hrun in Hk. cbn [fst snd sent _services_to_advertise] in Hk.
  unfold unadvertise.
  rewrite (start_beacon_again ports_free' _ (set_serving_started b1' p1 Hst)).
  destruct (split_address (str w address)) as [ip port]. cbn [fst snd] in *.
  destruct (table_round_trip (VStr name) (VStr port) _ Hne eq_refl eq_refl Hm) as [Hm1 Hd].
  rewrite <- Hk in Hm1, Hd.
  assert (native (VList [VStr (u "unadvertise"); VStr name; VStr port; ip])) as Hn.
  { cbn [native]. split; [apply is_ascii_text_ok; repeat constructor|]. auto. }
  pose proof (do_unadvertise_table (VStr name) (VStr port) ip b1' eq_refl eq_refl Hm1) as Hh.
  destruct (rpc_answers w fuel (u "unadvertise") [VStr name; VStr port; ip]
              (set_serving b1' p1) b1'
              "do_unadvertise"%string call_do_unadvertise _ _ _
              Hn (serving_set_serving b1' p1) (getattr_do w fuel _) Hh eq_refl I)
    as (reply2 & l2 & Hp & E).
  rewrite E. eexists _, _, _. split; [reflexivity|].
  split; [apply serving_set_serving|].
  cbn [sent _services_to_advertise]. exact Hd.
Qed.

Lemma advertise_unadvertise_round_trip_witness :
  text_ok (u "svc") /\
  text_ok (str quiet_world address_text) /\
  serving (fst (start_beacon true no_process)) = Some Beacon__init__ /\
  dict_find svc (_services_to_advertise Beacon__init__) <> Some [] /\
  exists p1 l1 b1,
    advertise quiet_world 0 true svc address_text no_process
      = (Ok (VStr (u "svc" ++ u "!!")), p1, l1) /\
    serving p1 = Some b1 /\
    forall between t0 b1' l,
      Forall (fun c => command c = EAGAIN) between ->
      run_loop quiet_world 0 between t0 b1 = (Ok tt, b1', l) ->
      exists p2 l2 b2,
        unadvertise quiet_world 0 true svc address_text (set_serving b1' p1)
          = (Ok VNone, p2, l2) /\
        serving p2 = Some b2 /\
        _services_to_advertise b2 = [].
Proof.
  assert (text_ok (u "svc")) as H1 by (apply is_ascii_text_ok; repeat constructor).
  assert (text_ok (str quiet_world address_text)) as H2
      by (apply is_ascii_text_ok; repeat constructor).
  assert (dict_find svc (_services_to_advertise Beacon__init__) <> Some []) as H3
      by discriminate.
  split; [exact H1|]. split; [exact H2|]. split; [reflexivity|]. split; [exact H3|].
  exact (advertise_unadvertise_round_trip quiet_world 0 true true (u "svc") address_text
           no_process Beacon__init__ H1 H2 eq_refl H3 eq_refl).
Defined.


(** X14: [unadvertise] of a name that is advertised, but not on the port
    of the address, gets no answer: the beacon raises before it replies, and
    the caller is left in [recv] with the beacon as it was. *)
Theorem unadvertise_missing_port_hangs w fuel ports_free name address p b x s :
  text_ok name ->
  text_ok (str w address) ->
  serving (fst (start_beacon ports_free p)) = Some b ->
  dict_find (VStr name) (_services_to_advertise b) = Some (x :: s) ->
  set_mem (VStr (snd (split_address (str w address)))) (x :: s) = false ->
  exists p' l,
    unadvertise w fuel ports_free (VStr name) address p = (Unfinished, p', l) /\
    serving p' = Some b.
Proof.
  intros Hname Haddr Hserv Hf Hm.
  destruct (split_address_text_ok (str w address) Haddr) as [Hip Hport].
  unfold unadvertise. destruct (start_beacon ports_free p) as [p1 l1]. cbn [fst] in Hserv.
  destruct (split_address (str w address)) as [ip port]. cbn [fst snd] in *.
  assert (native (VList [VStr (u "unadvertise"); VStr name; VStr port; ip])) as Hn.
  { cbn [native]. split; [apply is_ascii_text_ok; repeat constructor|]. auto. }
  pose proof (do_unadvertise_missing_port (VStr name) (VStr port) ip b x s
                eq_refl eq_refl Hf Hm) as Hh.
  destruct (rpc_unanswered w fuel (u "unadvertise") [VStr name; VStr port; ip] p1 b
              "do_unadvertise"%string call_do_unadvertise _ _ _
              Hn Hserv (getattr_do w fuel _) Hh) as (l & E).
  rewrite E. eexists _, _. split; [reflexivity | apply serving_set_serving].
Qed.

Lemma unadvertise_missing_port_hangs_witness :
  text_ok (u "svc") /\
  text_ok (str quiet_world (VInt 9006)) /\
  exists p' l,
    unadvertise quiet_world 0 true svc (VInt 9006) (mkProcess (Started advertising_svc) None [])
      = (Unfinished, p', l) /\
    serving p' = Some advertising_svc.
Proof.
  assert (text_ok (u "svc")) as H1 by (apply is_ascii_text_ok; repeat constructor).
  assert (text_ok (str quiet_world (VInt 9006))) as H2
      by (apply is_ascii_text_ok; vm_compute; repeat constructor).
  split; [exact H1|]. split; [exact H2|].
  exact (unadvertise_missing_port_hangs quiet_world 0 true (u "svc") (VInt 9006)
           (mkProcess (Started advertising_svc) None []) advertising_svc port_9005 []
           H1 H2 eq_refl eq_refl eq_refl).
Defined.

(** ** Exit hooks *)

(** X15: the hook that [advertise] registers calls [unadvertise] with
    three arguments, the name, the port and the ip, where it takes two: at
    exit the hook raises [TypeError] before it does anything, and the
    process, the advertisement in its beacon included, is what [advertise]
    left. *)
Theorem exit_hook_unadvertises_nothing w fuel fuel' ports_free ports_free' name address p b :
  text_ok name ->
  text_ok (str w address) ->
  serving (fst (start_beacon ports_free p)) = Some b ->
  atexit p = [] ->
  exists p' l b',
    advertise w fuel ports_free (VStr name) address p = (Ok (VStr (name ++ u "!!")), p', l) /\
    run_exit_hooks w fuel' ports_free' p' = (p', [Raise TypeError]) /\
    serving p' = Some b' /\
    set_mem (VStr (snd (split_address (str w address))))
            (bucket (VStr name) (_services_to_advertise b')) = true.
Proof.
  intros Hname Haddr Hserv Hat.
  destruct (advertise_process w fuel ports_free name address p b Hname Haddr Hserv)
    as (p' & l & reply & Ha & _ & Hs & Hh).
  exists p', l. eexists. split; [exact Ha|].
  split; [|split; [exact Hs|]].
  - unfold run_exit_hooks. rewrite Hh, Hat. reflexivity.
  - cbn [sent _services_to_advertise]. apply setdefault_add_mem; reflexivity.
Qed.

Lemma exit_hook_unadvertises_nothing_witness :
  text_ok (u "svc") /\
  text_ok (str quiet_world address_text) /\
  exists p' l b',
    advertise quiet_world 0 true svc address_text no_process
      = (Ok (VStr (u "svc" ++ u "!!")), p', l) /\
    run_exit_hooks quiet_world 0 true p' = (p', [Raise TypeError]) /\
    serving p' = Some b' /\
    set_mem port_9005 (bucket svc (_services_to_advertise b')) = true.
Proof.
  assert (text_ok (u "svc")) as H1 by (apply is_ascii_text_ok; repeat constructor).
  assert (text_ok (str quiet_world address_text)) as H2
      by (apply is_ascii_text_ok; repeat constructor).
  split; [exact H1|]. split; [exact H2|].
  exact (exit_hook_unadvertises_nothing quiet_world 0 0 true true (u "svc") address_text
           no_process Beacon__init__ H1 H2 eq_refl eq_refl).
Defined.

(** ** The thread's loop *)

(** Turns in which no command waits, the interval has not passed and no
    datagram is heard change nothing, not even the start of the interval. *)
Lemma run_loop_quiet w fuel t0 quiet rest b :
  Forall (fun c => command c = EAGAIN /\ heard c = Quiet /\
                   (now c <= t0 + interval_secs)%Q) quiet ->
  run_loop w fuel (quiet ++ rest) t0 b = run_loop w fuel rest t0 b.
Proof.
  induction quiet as [|c quiet IH]; intros H; [reflexivity|].
  inversion H as [|? ? (Hc & Hh & Hn) Hq]; subst.
  cbn [app run_loop]. unfold run_cycle. rewrite Hc, Hh.
  apply Qle_bool_iff in Hn. rewrite Hn. cbn [negb check_for_commands check_for_adverts].
  unfold_M. cbn [app]. rewrite (IH Hq).
  destruct (run_loop w fuel rest t0 b) as [[o b'] l]. reflexivity.
Qed.

(** X16: a thread that is stopped after turns in which no command waits,
    no datagram is heard and the interval has not passed since the start
    leaves the instance as it was: it only logs that discovery started and
    ended. *)
Theorem run_quiet w fuel started cycles b :
  Forall (fun c => command c = EAGAIN /\ heard c = Quiet /\
                   (now c <= started + interval_secs)%Q) cycles ->
  run w fuel started cycles b =
    (Ok tt, b, [Log INFO "Starting discovery" []; Log INFO "Ending discovery" []]).
Proof.
  intros H. unfold run.
  pose proof (run_loop_quiet w fuel started cycles [] b H) as E.
  rewrite app_nil_r in E. unfold_M. rewrite E. reflexivity.
Qed.

Lemma run_quiet_witness :
  Forall (fun c => command c = EAGAIN /\ heard c = Quiet /\
                   (now c <= 0 + interval_secs)%Q)
         [mkCycle EAGAIN 1 1 Quiet; mkCycle EAGAIN 2 2 Quiet] /\
  run quiet_world 0 0 [mkCycle EAGAIN 1 1 Quiet; mkCycle EAGAIN 2 2 Quiet] advertising_svc =
    (Ok tt, advertising_svc,
     [Log INFO "Starting discovery" []; Log INFO "Ending discovery" []]).
Proof.
  assert (Forall (fun c => command c = EAGAIN /\ heard c = Quiet /\
                           (now c <= 0 + interval_secs)%Q)
                 [mkCycle EAGAIN 1 1 Quiet; mkCycle EAGAIN 2 2 Quiet]) as H.
  { repeat constructor; vm_compute; discriminate. }
  split; [exact H|].
  exact (run_quiet quiet_world 0 0 _ advertising_svc H).
Defined.

(** X17: an exception in [check_for_commands] ends the thread: after quiet
    turns, the turn whose command raises is the last, whatever would have
    followed, and [run] leaves with the exception, in the state the step
    left, without logging that discovery ended. *)
Theorem run_ends_at_exception w fuel started quiet c rest b e b1 l1 :
  Forall (fun c => command c = EAGAIN /\ heard c = Quiet /\
                   (now c <= started + interval_secs)%Q) quiet ->
  check_for_commands w fuel false (command c) b = (Raise e, b1, l1) ->
  run w fuel started (quiet ++ c :: rest) b =
    (Raise e, b1, Log INFO "Starting discovery" [] :: l1).
Proof.
  intros H Hc. unfold run.
  pose proof (run_loop_quiet w fuel started quiet (c :: rest) b H) as E.
  unfold_M. rewrite E. cbn [run_loop]. unfold run_cycle. unfold_M. rewrite Hc. reflexivity.
Qed.

Lemma run_ends_at_exception_witness :
  Forall (fun c => command c = EAGAIN /\ heard c = Quiet /\
                   (now c <= 0 + interval_secs)%Q) [mkCycle EAGAIN 1 1 Quiet] /\
  run quiet_world 0 0
      ([mkCycle EAGAIN 1 1 Quiet]
         ++ mkCycle (Message request_subscribe) 2 2 Quiet :: [mkCycle EAGAIN 3 3 Quiet])
      advertising_svc =
    (Raise NotImplementedError, advertising_svc,
     [Log INFO "Starting discovery" [];
      Log DEBUG "Received command %s" [LBytes request_subscribe]]).
Proof.
  assert (Forall (fun c => command c = EAGAIN /\ heard c = Quiet /\
                           (now c <= 0 + interval_secs)%Q) [mkCycle EAGAIN 1 1 Quiet]) as H.
  { repeat constructor; vm_compute; discriminate. }
  split; [exact H|].
  apply (run_ends_at_exception quiet_world 0 0 _ _ _ advertising_svc _ _ _ H).
  vm_compute. reflexivity.
Defined.

(** X18: a turn in which no command waits and no datagram is heard
    broadcasts exactly when the clock is past the interval: then one
    datagram goes out for each advertised pair, in the order of the table,
    and the interval starts again at the time read after the broadcast;
    otherwise nothing is sent and the interval runs on. *)
Theorem run_cycle_broadcasts w fuel c t0 b :
  table_ok (_services_to_advertise b) ->
  command c = EAGAIN ->
  heard c = Quiet ->
  ((t0 + interval_secs < now c)%Q ->
   exists frames l,
     run_cycle w fuel c t0 b = (Ok (after_broadcast c), broadcast frames b, l) /\
     Forall2 advertises (pairs_of (_services_to_advertise b)) frames) /\
  ((now c <= t0 + interval_secs)%Q -> run_cycle w fuel c t0 b = (Ok t0, b, [])).
Proof.
  intros Hok Hc Hh. unfold run_cycle. rewrite Hc, Hh.
  cbn [check_for_commands check_for_adverts]. split.
  - intros Hlt.
    assert (Qle_bool (now c) (t0 + interval_secs) = false) as Hn.
    { destruct (Qle_bool (now c) (t0 + interval_secs)) eqn:E; [|reflexivity].
      apply Qle_bool_iff in E. exfalso. apply (Qlt_not_le _ _ Hlt E). }
    rewrite Hn. cbn [negb].
    destruct (advertise_names_sends b Hok) as (frames & l & E & F).
    exists frames. eexists. split; [|exact F].
    unfold_M. rewrite E. cbn [app]. rewrite !app_nil_r. reflexivity.
  - intros Hle. apply Qle_bool_iff in Hle. rewrite Hle. reflexivity.
Qed.

Lemma run_cycle_broadcasts_witness :
  table_ok (_services_to_advertise advertising_svc) /\
  (0 + interval_secs < 3)%Q /\
  exists frames l,
    run_cycle quiet_world 0 (mkCycle EAGAIN 3 4 Quiet) 0 advertising_svc
      = (Ok 4%Q, broadcast frames advertising_svc, l) /\
    Forall2 advertises (pairs_of (_services_to_advertise advertising_svc)) frames.
Proof.
  assert (table_ok (_services_to_advertise advertising_svc)) as H.
  { repeat split; try (repeat constructor); discriminate. }
  assert (0 + interval_secs < 3)%Q as Hlt by reflexivity.
  split; [exact H|]. split; [exact Hlt|].
  exact (proj1 (run_cycle_broadcasts quiet_world 0 (mkCycle EAGAIN 3 4 Quiet) 0
                  advertising_svc H eq_refl eq_refl) Hlt).
Defined.

(** X19: the order of the steps in a turn, as the comment in [run] has
    it: when the turn's command advertises a pair, the interval has passed
    and the datagram that the poll then finds is the beacon's own broadcast
    of the pair, the one turn leaves the pair advertised, broadcast and,
    under the address the datagram came from, discovered. *)
Theorem advertised_and_heard_in_one_turn w fuel c t0 b request verb name port datagram ip sport :
  table_ok (_services_to_advertise b) ->
  text_ok name ->
  text_ok port ->
  command c = Message request ->
  unpack request = Ok (VList [VStr verb; VStr name; VStr port]) ->
  lower verb = u "advertise" ->
  (t0 + interval_secs < now c)%Q ->
  pack (VList [VStr name; VStr port]) = Ok datagram ->
  List.length datagram <= beacon_message_size ->
  heard c = Datagram datagram (ip, sport) ->
  exists b' l reply frames,
    run_cycle w fuel c t0 b = (Ok (after_broadcast c), b', l) /\
    rpc b' = rpc b ++ [reply] /\
    socket b' = socket b ++ frames /\
    In (datagram, ("255.255.255.255"%string, beacon_port)) frames /\
    set_mem (VStr port) (bucket (VStr name) (_services_to_advertise b')) = true /\
    set_mem (VTuple [VStr ip; VStr port]) (bucket (VStr name) (_services_found b')) = true.
Proof.
  intros Hok Hname Hport Hc Hu Hverb Hlt Hp Hlen Hh.
  assert (text_ok (name ++ u "!!")) as Hres
      by (apply text_ok_app_ascii; [exact Hname | repeat constructor]).
  destruct (unpack_pack (VStr (name ++ u "!!")) Hres) as (reply & Hrp & _).
  set (d1 := fst (setdefault_add (VStr name) (VStr port) (_services_to_advertise b))).
  set (b1 := sent reply (mkBeacon d1 (_services_found b) (rpc b) (socket b))).
  assert (getattr (u "do_" ++ lower verb) (do_methods w fuel)
          = Some ("do_advertise"%string, call_do_advertise)) as Hg
      by (rewrite getattr_do, Hverb; reflexivity).
  pose proof (answered w fuel false request verb [VStr name; VStr port] b
                "do_advertise"%string call_do_advertise Hu Hg
                _ _ _ reply (do_advertise_text name port VNone b) Hrp) as Ha.
  fold d1 in Ha. fold b1 in Ha.
  assert (table_ok (_services_to_advertise b1)) as Hok1
      by (apply setdefault_add_table_ok; [exact Hok | reflexivity]).
  assert (set_mem (VStr port) (bucket (VStr name) (_services_to_advertise b1)) = true) as Hm1
      by (apply setdefault_add_mem; reflexivity).
  destruct (advertise_names_sends b1 Hok1) as (frames & l2 & E & F).
  assert (In (VStr name, VStr port) (pairs_of (_services_to_advertise b1))) as Hin.
  { unfold bucket in Hm1.
    destruct (dict_find (VStr name) (_services_to_advertise b1)) as [ports|] eqn:Ef;
      [|discriminate Hm1].
    apply (pairs_of_In _ _ ports); [|apply set_mem_str; exact Hm1].
    apply dict_find_In in Ef. destruct Ef as (k' & Hink & Hk).
    apply py_eq_str in Hk. subst k'. exact Hink. }
  destruct (Forall2_In_left _ _ _ _ F Hin) as ([m dest] & Hm & Hpm & Hd).
  cbn [fst snd] in Hpm, Hd. subst dest. rewrite Hp in Hpm. injection Hpm as <-.
  assert (native (VList [VStr name; VStr port])) as Hn
      by (cbn [native]; repeat split; assumption).
  destruct (unpack_pack _ Hn) as (m' & Hp' & Hud). rewrite Hp in Hp'. injection Hp' as <-.
  assert (unpack (firstn beacon_message_size datagram) = Ok (VList [VStr name; VStr port]))
    as Hud' by (rewrite firstn_all2 by exact Hlen; exact Hud).
  pose proof (check_for_adverts_step datagram ip sport (VStr name) (VStr port)
                (broadcast frames b1) Hud' eq_refl eq_refl) as Hs.
  assert (Qle_bool (now c) (t0 + interval_secs) = false) as Hq.
  { destruct (Qle_bool (now c) (t0 + interval_secs)) eqn:Eq; [|reflexivity].
    apply Qle_bool_iff in Eq. exfalso. apply (Qlt_not_le _ _ Hlt Eq). }
  unfold run_cycle. rewrite Hc, Hh, Hq. cbn [negb]. unfold_M. rewrite Ha, E, Hs.
  eexists _, _, reply, frames. split; [reflexivity|].
  cbn [rpc socket _services_to_advertise _services_found broadcast sent b1].
  split; [reflexivity|]. split; [reflexivity|]. split; [exact Hm|].
  split; [exact Hm1|]. apply setdefault_add_mem; reflexivity.
Qed.

Lemma advertised_and_heard_in_one_turn_witness :
  table_ok (_services_to_advertise Beacon__init__) /\
  text_ok (u "svc") /\ text_ok (u "9005") /\
  unpack request_ADVERTISE = Ok (VList [VStr (u "ADVERTISE"); svc; port_9005]) /\
  lower (u "ADVERTISE") = u "advertise" /\
  (0 + interval_secs < 3)%Q /\
  pack (VList [svc; port_9005]) = Ok advert_svc /\
  List.length advert_svc <= beacon_message_size /\
  exists b' l reply frames,
    run_cycle quiet_world 0 (mkCycle (Message request_ADVERTISE) 3 4
                                     (Datagram advert_svc from_peer)) 0 Beacon__init__
      = (Ok 4%Q, b', l) /\
    rpc b' = rpc Beacon__init__ ++ [reply] /\
    socket b' = socket Beacon__init__ ++ frames /\
    In (advert_svc, ("255.255.255.255"%string, beacon_port)) frames /\
    set_mem port_9005 (bucket svc (_services_to_advertise b')) = true /\
    set_mem peer_svc (bucket svc (_services_found b')) = true.
Proof.
  assert (text_ok (u "svc")) as H1 by (apply is_ascii_text_ok; repeat constructor).
  assert (text_ok (u "9005")) as H2 by (apply is_ascii_text_ok; repeat constructor).
  assert (unpack request_ADVERTISE = Ok (VList [VStr (u "ADVERTISE"); svc; port_9005])) as H3
      by (vm_compute; reflexivity).
  assert (0 + interval_secs < 3)%Q as H4 by reflexivity.
  assert (pack (VList [svc; port_9005]) = Ok advert_svc) as H5 by (vm_compute; reflexivity).
  assert (List.length advert_svc <= beacon_message_size) as H6 by (vm_compute; lia).
  split; [exact table_ok_empty|]. split; [exact H1|]. split; [exact H2|].
  split; [exact H3|]. split; [reflexivity|]. split; [exact H4|]. split; [exact H5|].
  split; [exact H6|].
  exact (advertised_and_heard_in_one_turn quiet_world 0
           (mkCycle (Message request_ADVERTISE) 3 4 (Datagram advert_svc from_peer))
           0 Beacon__init__ request_ADVERTISE (u "ADVERTISE") (u "svc") (u "9005") advert_svc
           (u "192.168.1.5") 9999%Z
           table_ok_empty H1 H2 eq_refl H3 eq_refl H4 H5 H6 eq_refl).
Defined.

(** ** Names that are not text *)

(** X20: [advertise] of a name that is an integer: the beacon stores the
    port under the name and then raises at [name + "!!"], so no reply comes,
    the caller is left in [recv], and no exit hook is registered, while the
    pair stays in the advertisement set. *)
Theorem advertise_integer_name w fuel ports_free n address p b :
  text_ok (str w address) ->
  serving (fst (start_beacon ports_free p)) = Some b ->
  exists p' l b',
    advertise w fuel ports_free (VInt n) address p = (Unfinished, p', l) /\
    atexit p' = atexit p /\
    serving p' = Some b' /\
    rpc b' = rpc b /\
    set_mem (VStr (snd (split_address (str w address))))
            (bucket (VInt n) (_services_to_advertise b')) = true.
Proof.
  intros Haddr Hserv.
  destruct (split_address_text_ok (str w address) Haddr) as [Hip Hport].
  pose proof (atexit_start_beacon ports_free p) as Hat.
  unfold advertise. destruct (start_beacon ports_free p) as [p1 l1]. cbn [fst] in Hserv, Hat.
  destruct (split_address (str w address)) as [ip port]. cbn [fst snd] in *.
  assert (native (VList [VStr (u "advertise"); VInt n; VStr port; ip])) as Hn.
  { cbn [native]. split; [apply is_ascii_text_ok; repeat constructor|]. auto. }
  assert (call_do_advertise [VInt n; VStr port; ip] b =
          (Raise TypeError,
           mkBeacon (fst (setdefault_add (VInt n) (VStr port) (_services_to_advertise b)))
                    (_services_found b) (rpc b) (socket b),
           [Log DEBUG "Advertise %s on %s" [LVal (VInt n); LVal (VStr port)]])) as Hh.
  { cbn [call_do_advertise]. unfold do_advertise. unfold_M.
    rewrite setdefault_add_hashable by reflexivity. reflexivity. }
  destruct (rpc_unanswered w fuel (u "advertise") [VInt n; VStr port; ip] p1 b
              "do_advertise"%string call_do_advertise _ _ _
              Hn Hserv (getattr_do w fuel _) Hh) as (l & E).
  rewrite E. eexists _, _, _. split; [reflexivity|].
  split; [rewrite atexit_set_serving; exact Hat|].
  split; [apply serving_set_serving|].
  cbn [rpc _services_to_advertise]. split; [reflexivity|].
  apply setdefault_add_mem; reflexivity.
Qed.

Lemma advertise_integer_name_witness :
  text_ok (str quiet_world address_text) /\
  exists p' l b',
    advertise quiet_world 0 true (VInt 7) address_text no_process = (Unfinished, p', l) /\
    atexit p' = [] /\
    serving p' = Some b' /\
    rpc b' = [] /\
    set_mem port_9005 (bucket (VInt 7) (_services_to_advertise b')) = true.
Proof.
  assert (text_ok (str quiet_world address_text)) as H
      by (apply is_ascii_text_ok; repeat constructor).
  split; [exact H|].
  exact (advertise_integer_name quiet_world 0 true 7 address_text no_process Beacon__init__
           H eq_refl).
Defined.

(** ** Replies on the control channel *)

Lemma do_advertise_rpc name port ip b : rpc (snd (fst (do_advertise name port ip b))) = rpc b.
Proof.
  unfold do_advertise. unfold_M.
  destruct (setdefault_add name port (_services_to_advertise b)) as [d' r]. cbn [fst snd].
  destruct r; try reflexivity; destruct (add_bangs name); reflexivity.
Qed.

Lemma do_unadvertise_rpc name port ip b :
  rpc (snd (fst (do_unadvertise name port ip b))) = rpc b.
Proof.
  unfold do_unadvertise. unfold_M.
  destruct (get_or_empty name (_services_to_advertise b)) as [[|x s]| | |]; try reflexivity.
  cbn [fst snd]. destruct (set_remove port (x :: s)) as [[|y t]| | |]; reflexivity.
Qed.

Lemma discover_loop_rpc w name wv t1 :
  (forall k b0, rpc (other_threads w k b0) = rpc b0) ->
  forall fuel pass b, rpc (snd (fst (discover_loop w fuel pass name wv t1 b))) = rpc b.
Proof.
  intros Hw. induction fuel as [|fuel IH]; intros pass b; [reflexivity|].
  cbn [discover_loop]. unfold_M. unfold dict_get.
  destruct (hashable name); [|reflexivity]. cbn [fst snd].
  destruct (dict_find name (_services_found b)) as [[|x s]|]; try reflexivity;
    (destruct (negb (Qle_bool (time_time w (S pass)) t1)); [reflexivity|];
     cbn [fst snd]; specialize (IH (S pass) (other_threads w pass b));
     destruct (discover_loop w fuel (S pass) name wv t1 (other_threads w pass b))
       as [[o b'] l]; cbn [fst snd] in *; rewrite <- (Hw pass b);
     destruct o; exact IH).
Qed.

Lemma do_discover_rpc w fuel name wv b :
  (forall k b0, rpc (other_threads w k b0) = rpc b0) ->
  rpc (snd (fst (do_discover w fuel name wv b))) = rpc b.
Proof.
  intros Hw. unfold do_discover. unfold_M.
  destruct (obind (as_number wv) (fun d => Ok (time_time w 0 + d)%Q)) as [t1| | |];
    try reflexivity.
  cbn [fst snd]. pose proof (discover_loop_rpc w name wv t1 Hw fuel 0 b) as H.
  destruct (discover_loop w fuel 0 name wv t1 b) as [[o b'] l]. cbn [fst snd] in *.
  destruct o as [[services|]| | |]; try exact H;
    destruct (random_choice w services); exact H.
Qed.

(** The three methods leave the control channel alone. *)
Lemma handler_rpc w fuel low fname handler params b :
  (forall k b0, rpc (other_threads w k b0) = rpc b0) ->
  getattr (u "do_" ++ low) (do_methods w fuel) = Some (fname, handler) ->
  rpc (snd (fst (handler params b))) = rpc b.
Proof.
  intros Hw. rewrite getattr_do.
  destruct (streq low (u "advertise"));
    [|destruct (streq low (u "unadvertise")); [|destruct (streq low (u "discover"))]];
    intros H; try discriminate H; injection H as _ <-.
  - destruct params as [|a [|c [|d [|? ?]]]]; try reflexivity; apply do_advertise_rpc.
  - destruct params as [|a [|c [|d [|? ?]]]]; try reflexivity; apply do_unadvertise_rpc.
  - destruct params as [|a [|c [|? ?]]]; try reflexivity. apply do_discover_rpc. exact Hw.
Qed.

(** X21: on the control channel [check_for_commands] sends one frame when
    it took a request and returns, and none otherwise: not when nothing
    waited, and not when it raises, whether in decoding, in the lookup, in
    the method or in packing the result.  The other holders of the lock are
    assumed to leave the control channel to the beacon's thread. *)
Theorem check_for_commands_replies_once w fuel wait got b :
  (forall k b0, rpc (other_threads w k b0) = rpc b0) ->
  let out := check_for_commands w fuel wait got b in
  match fst (fst out), got with
  | Ok _, Message _ => exists frame, rpc (snd (fst out)) = rpc b ++ [frame]
  | _, _ => rpc (snd (fst out)) = rpc b
  end.
Proof.
  intros Hw out. unfold out, check_for_commands. destruct got as [message| |]; try reflexivity.
  unfold_M. destruct (unpack message) as [segments| | |]; try reflexivity. cbn [fst snd].
  destruct (head_and_tail segments) as [[action params]| | |]; try reflexivity. cbn [fst snd].
  destruct (action_lower action) as [low| | |]; try reflexivity. cbn [fst snd].
  destruct (getattr (u "do_" ++ low) (do_methods w fuel)) as [[fname handler]|] eqn:Hg;
    [|reflexivity].
  pose proof (handler_rpc w fuel low fname handler params b Hw Hg) as Hr.
  destruct (handler params b) as [[o b1] l1]. cbn [fst snd] in *.
  destruct o as [result| | |]; try exact Hr.
  destruct (pack result) as [frame| | |]; cbn [fst snd rpc]; try exact Hr.
  exists frame. rewrite Hr. reflexivity.
Qed.

Lemma check_for_commands_replies_once_witness :
  (forall k b0, rpc (other_threads quiet_world k b0) = rpc b0) /\
  (exists frame,
      rpc (snd (fst (check_for_commands quiet_world 1 false (Message request_discover_5)
                                        discovered_svc)))
      = rpc discovered_svc ++ [frame]) /\
  rpc (snd (fst (check_for_commands quiet_world 1 false (Message request_subscribe)
                                    discovered_svc)))
  = rpc discovered_svc.
Proof.
  assert (forall k b0, rpc (other_threads quiet_world k b0) = rpc b0) as Hw
      by (intros k b0; reflexivity).
  split; [exact Hw|]. split.
  - exact (check_for_commands_replies_once quiet_world 1 false (Message request_discover_5)
             discovered_svc Hw).
  - exact (check_for_commands_replies_once quiet_world 1 false (Message request_subscribe)
             discovered_svc Hw).
Defined.

(** ** What the discovered set holds *)

(** X22: whatever datagrams a beacon hears from its start, and however
    [check_for_adverts] ends on each, every member of every bucket of the
    discovered set is a pair of an address and a port. *)
Theorem discovered_set_holds_endpoints (polls : list polled) :
  endpoints_only
    (_services_found
       (fold_left (fun b p => snd (fst (check_for_adverts p b))) polls Beacon__init__)).
Proof.
  assert (forall b, endpoints_only (_services_found b) ->
                    endpoints_only
                      (_services_found
                         (fold_left (fun b p => snd (fst (check_for_adverts p b))) polls b)))
    as H.
  { induction polls as [|p polls IH]; intros b Hb; [exact Hb|].
    cbn [fold_left]. apply IH. apply check_for_adverts_keeps_endpoints. exact Hb. }
  apply H. constructor.
Qed.

(** A wait loop that nobody feeds finds nothing. *)
Lemma discover_loop_alone w name wv t1 :
  hashable name = true ->
  (forall k b0, _services_found (other_threads w k b0) = _services_found b0) ->
  forall fuel pass b,
    bucket name (_services_found b) = [] ->
    fst (fst (discover_loop w fuel pass name wv t1 b)) = Ok None \/
    fst (fst (discover_loop w fuel pass name wv t1 b)) = Unfinished.
Proof.
  intros Hn Hw. induction fuel as [|fuel IH]; intros pass b Hb; [right; reflexivity|].
  rewrite discover_loop_step by exact Hn.
  assert (match dict_find name (_services_found b) with
          | Some (x :: s) => False
          | _ => True
          end) as Hd.
  { unfold bucket in Hb. destruct (dict_find name (_services_found b)) as [[|x s]|];
      [exact I | discriminate Hb | exact I]. }
  assert (bucket name (_services_found (other_threads w pass b)) = []) as Hb'
      by (rewrite Hw; exact Hb).
  destruct (dict_find name (_services_found b)) as [[|x s]|]; try contradiction;
    (destruct (negb (Qle_bool (time_time w (S pass)) t1)); [left; reflexivity|];
     exact (IH (S pass) _ Hb')).
Qed.

(** With the clock past the deadline at some pass, it ends by then. *)
Lemma discover_loop_alone_ends w name wv t1 :
  hashable name = true ->
  (forall k b0, _services_found (other_threads w k b0) = _services_found b0) ->
  forall k pass fuel b,
    bucket name (_services_found b) = [] ->
    (t1 < time_time w (S (pass + k)))%Q ->
    fst (fst (discover_loop w (S k + fuel) pass name wv t1 b)) = Ok None.
Proof.
  intros Hn Hw. induction k as [|k IH]; intros pass fuel b Hb Ht.
  - rewrite Nat.add_0_r in Ht. cbn [Nat.add]. rewrite discover_loop_step by exact Hn.
    assert (negb (Qle_bool (time_time w (S pass)) t1) = true) as Hd.
    { destruct (Qle_bool (time_time w (S pass)) t1) eqn:E; [|reflexivity].
      apply Qle_bool_iff in E. exfalso. apply (Qlt_not_le _ _ Ht E). }
    rewrite Hd. unfold bucket in Hb.
    destruct (dict_find name (_services_found b)) as [[|x s]|];
      [reflexivity | discriminate Hb | reflexivity].
  - change (S (S k) + fuel) with (S (S k + fuel)). rewrite discover_loop_step by exact Hn.
    assert (bucket name (_services_found (other_threads w pass b)) = []) as Hb'
        by (rewrite Hw; exact Hb).
    replace (pass + S k) with (S pass + k) in Ht by lia.
    pose proof (IH (S pass) fuel _ Hb' Ht) as H.
    unfold bucket in Hb.
    destruct (dict_find name (_services_found b)) as [[|x s]|]; try discriminate Hb;
      (destruct (negb (Qle_bool (time_time w (S pass)) t1)); [reflexivity | exact H]).
Qed.

(** X23: [do_discover] waits on a set that only [check_for_adverts] fills.
    When the others that hold the lock leave the discovered set alone, as
    they do while the beacon's own thread is the one inside [do_discover], a
    name with no endpoint gets none: until it returns the call has not
    returned anything but [None], however many passes it makes, and it
    returns [None] by the first pass that reads the clock past the
    deadline. *)
Theorem do_discover_alone_finds_nothing w name z b :
  hashable name = true ->
  (forall k b0, _services_found (other_threads w k b0) = _services_found b0) ->
  bucket name (_services_found b) = [] ->
  (forall fuel,
      fst (fst (do_discover w fuel name (VInt z) b)) = Ok VNone \/
      fst (fst (do_discover w fuel name (VInt z) b)) = Unfinished) /\
  (forall k fuel,
      (deadline w z < time_time w (S k))%Q ->
      fst (fst (do_discover w (S k + fuel) name (VInt z) b)) = Ok VNone).
Proof.
  intros Hn Hw Hb. split.
  - intros fuel. rewrite do_discover_unfold.
    destruct (discover_loop_alone w name (VInt z) (deadline w z) Hn Hw fuel 0 b Hb) as [H|H];
      destruct (discover_loop w fuel 0 name (VInt z) (deadline w z) b) as [[o b'] l];
      cbn [fst] in H; subst o; [left | right]; reflexivity.
  - intros k fuel Ht. rewrite do_discover_unfold.
    pose proof (discover_loop_alone_ends w name (VInt z) (deadline w z) Hn Hw k 0 fuel b Hb Ht)
      as H.
    destruct (discover_loop w (S k + fuel) 0 name (VInt z) (deadline w z) b) as [[o b'] l].
    cbn [fst] in H. subst o. reflexivity.
Qed.

Lemma do_discover_alone_finds_nothing_witness :
  hashable svc = true /\
  (forall k b0, _services_found (other_threads quiet_world k b0) = _services_found b0) /\
  bucket svc (_services_found advertising_svc) = [] /\
  (deadline quiet_world 5 < time_time quiet_world 6)%Q /\
  fst (fst (do_discover quiet_world 6 svc (VInt 5) advertising_svc)) = Ok VNone.
Proof.
  assert (forall k b0, _services_found (other_threads quiet_world k b0) = _services_found b0)
    as Hw by (intros k b0; reflexivity).
  assert (deadline quiet_world 5 < time_time quiet_world 6)%Q as Ht by reflexivity.
  split; [reflexivity|]. split; [exact Hw|]. split; [reflexivity|]. split; [exact Ht|].
  exact (proj2 (do_discover_alone_finds_nothing quiet_world svc 5 advertising_svc
                  eq_refl Hw eq_refl) 5 0 Ht).
Defined.

(** X24: [unadvertise] of a name that is not advertised at all is
    answered: it returns [None], the beacon having logged the warning and
    replied [null], with its tables as they were. *)
Theorem unadvertise_unknown_name w fuel ports_free name address p b :
  text_ok name ->
  text_ok (str w address) ->
  serving (fst (start_beacon ports_free p)) = Some b ->
  dict_find (VStr name) (_services_to_advertise b) = None ->
  exists p' l,
    unadvertise w fuel ports_free (VStr name) address p = (Ok VNone, p', l) /\
    serving p' = Some (sent (wire "null") b) /\
    In (Log WARNING "Not currently advertising %s on %s"
            [LVal (VStr name); LVal (VStr (snd (split_address (str w address))))]) l.
Proof.
  intros Hname Haddr Hserv Hf.
  destruct (split_address_text_ok (str w address) Haddr) as [Hip Hport].
  unfold unadvertise. destruct (start_beacon ports_free p) as [p1 l1]. cbn [fst] in Hserv.
  destruct (split_address (str w address)) as [ip port]. cbn [fst snd] in *.
  assert (native (VList [VStr (u "unadvertise"); VStr name; VStr port; ip])) as Hn.
  { cbn [native]. split; [apply is_ascii_text_ok; repeat constructor|]. auto. }
  destruct (unpack_pack _ Hn) as (request & Hp & Hu).
  pose proof (answered w fuel false request (u "unadvertise") [VStr name; VStr port; ip] b
                "do_unadvertise"%string call_do_unadvertise Hu (getattr_do w fuel _)
                _ _ _ (wire "null")
                (do_unadvertise_absent_name (VStr name) (VStr port) ip b eq_refl Hf)
                eq_refl) as Ha.
  unfold _rpc. rewrite Hp, Hserv, Ha. cbn [sent rpc].
  rewrite nth_error_app2 by apply le_n. rewrite Nat.sub_diag. cbn [nth_error].
  eexists _, _. split; [reflexivity|]. split; [apply serving_set_serving|].
  apply in_or_app. right. right. right. right. left. reflexivity.
Qed.

Lemma unadvertise_unknown_name_witness :
  text_ok (u "svc") /\
  text_ok (str quiet_world address_text) /\
  exists p' l,
    unadvertise quiet_world 0 true svc address_text no_process = (Ok VNone, p', l) /\
    serving p' = Some (sent (wire "null") Beacon__init__) /\
    In (Log WARNING "Not currently advertising %s on %s" [LVal svc; LVal port_9005]) l.
Proof.
  assert (text_ok (u "svc")) as H1 by (apply is_ascii_text_ok; repeat constructor).
  assert (text_ok (str quiet_world address_text)) as H2
      by (apply is_ascii_text_ok; repeat constructor).
  split; [exact H1|]. split; [exact H2|].
  exact (unadvertise_unknown_name quiet_world 0 true (u "svc") address_text no_process
           Beacon__init__ H1 H2 eq_refl eq_refl).
Defined.
